(** * WebDAV image uploader: protocol client, path codec and image loader

    A shallow embedding of [WebDavClient] / [WebDavClientInner] (the WebDAV
    protocol client with its path codec) and of [WebDavImageLoader] /
    [WebDavImageLoaderExtension] (the blob cache and the controller that
    tracks image elements), together with the properties of the
    specification that concern them.

    JavaScript strings are sequences of UTF-16 code units; they are modelled
    as [list N].  The built-ins the source calls ([encodeURI],
    [encodeURIComponent], [atob], [String.prototype.replace], [split], ...)
    are modelled after ECMAScript and the WHATWG definitions. *)

From Stdlib Require Import ZArith NArith List Lia Ascii String DecimalString.
From stdpp Require Import gmap list fin_maps.

Local Open Scope N_scope.

(* ===================================================================== *)
(** ** JavaScript strings *)
(* ===================================================================== *)

Module Js.

Abbreviation jsstring := (list N).

(** An ASCII literal as a JavaScript string. *)
Fixpoint js (s : string) : jsstring :=
  match s with
  | EmptyString => []
  | String a s' => N_of_ascii a :: js s'
  end.

(** Code units are 16 bits wide. *)
Definition is_code_unit (c : N) : bool := c <? 65536.
Definition is_utf16 (s : jsstring) : bool := forallb is_code_unit s.

Definition str_eqb (a b : jsstring) : bool := bool_decide (a = b).

(** [s.startsWith(p)] *)
Fixpoint startsWith (p s : jsstring) : bool :=
  match p, s with
  | [], _ => true
  | _ :: _, [] => false
  | a :: p', b :: s' => (a =? b) && startsWith p' s'
  end.

(** [s.endsWith(p)] *)
Definition endsWith (p s : jsstring) : bool := startsWith (rev p) (rev s).

(** [s.slice(0, -1)] *)
Definition slice_0_m1 (s : jsstring) : jsstring := removelast s.

(** [s.replace(pat, "")] with a string pattern: the first occurrence of
    [pat] is removed, the rest of the string is kept. *)
Fixpoint replace_first_empty (pat s : jsstring) : jsstring :=
  if startsWith pat s then drop (length pat) s
  else match s with
       | [] => []
       | c :: s' => c :: replace_first_empty pat s'
       end.

(** [s.split(sep)] for a one-code-unit separator; the result is never
    empty ([""] splits into one empty segment). *)
Fixpoint split (sep : N) (s : jsstring) : list jsstring :=
  match s with
  | [] => [[]]
  | c :: s' =>
      if c =? sep then [] :: split sep s'
      else match split sep s' with
           | seg :: segs => (c :: seg) :: segs
           | [] => [[c]]
           end
  end.

(** [segs.join(sep)] *)
Fixpoint join (sep : jsstring) (segs : list jsstring) : jsstring :=
  match segs with
  | [] => []
  | [seg] => seg
  | seg :: segs' => seg ++ sep ++ join sep segs'
  end.

(** [s.lastIndexOf(c)] for a one-code-unit needle: [None] stands for -1. *)
Fixpoint lastIndexOf (c : N) (s : jsstring) : option nat :=
  match s with
  | [] => None
  | d :: s' =>
      match lastIndexOf c s' with
      | Some i => Some (S i)
      | None => if d =? c then Some 0%nat else None
      end
  end.

(** [s.substring(0, s.lastIndexOf(c))]; a negative end is clamped to 0. *)
Definition substring_to_last (c : N) (s : jsstring) : jsstring :=
  match lastIndexOf c s with
  | Some i => take i s
  | None => []
  end.

(** Number-to-string conversion of an integer-valued number. *)
Definition Z_to_js (z : Z) : jsstring := js (NilZero.string_of_int (Z.to_int z)).

(** *** Percent-encoding (ECMAScript [Encode]) *)

Definition slash : N := 47.
Definition percent : N := 37.
Definition question : N := 63.

Definition in_range (lo hi c : N) : bool := (lo <=? c) && (c <=? hi).

Definition isAlnum (c : N) : bool :=
  in_range 65 90 c || in_range 97 122 c || in_range 48 57 c.

Definition member (c : N) (s : jsstring) : bool := existsb (N.eqb c) s.

(** uriMark: [- _ . ! ~ * ' ( )] *)
Definition uriMark (c : N) : bool :=
  member c [45; 95; 46; 33; 126; 42; 39; 40; 41].
(** uriReserved: [; / ? : @ & = + $ ,] *)
Definition uriReserved (c : N) : bool :=
  member c [59; 47; 63; 58; 64; 38; 61; 43; 36; 44].

Definition uriUnescaped (c : N) : bool := isAlnum c || uriMark c.
(** The set [encodeURI] leaves alone: reserved, unescaped and [#]. *)
Definition uriUnescapedFull (c : N) : bool :=
  uriReserved c || uriUnescaped c || (c =? 35).

Definition isLeadSurrogate (c : N) : bool := in_range 55296 56319 c.
Definition isTrailSurrogate (c : N) : bool := in_range 56320 57343 c.

(** UTF-8 transformation of a code point. *)
Definition utf8 (cp : N) : list N :=
  if cp <? 128 then [cp]
  else if cp <? 2048 then [192 + cp / 64; 128 + cp mod 64]
  else if cp <? 65536 then
    [224 + cp / 64 / 64; 128 + (cp / 64) mod 64; 128 + cp mod 64]
  else [240 + cp / 64 / 64 / 64; 128 + (cp / 64 / 64) mod 64;
        128 + (cp / 64) mod 64; 128 + cp mod 64].

Definition hexDigit (d : N) : N :=
  if d <? 10 then 48 + d else 55 + d.

(** One octet as [%XX], upper-case. *)
Definition pct (b : N) : jsstring := [percent; hexDigit (b / 16); hexDigit (b mod 16)].

Definition pctAll (bs : list N) : jsstring := concat (map pct bs).

Definition surrogatePair (hi lo : N) : N :=
  65536 + (hi - 55296) * 1024 + (lo - 56320).

(** [None] is the URIError raised on a lone surrogate. *)
Fixpoint Encode (unescaped : N -> bool) (s : jsstring) : option jsstring :=
  match s with
  | [] => Some []
  | c :: rest =>
      if unescaped c then option_map (cons c) (Encode unescaped rest)
      else if isTrailSurrogate c then None
      else if isLeadSurrogate c then
        match rest with
        | d :: rest' =>
            if isTrailSurrogate d then
              option_map (app (pctAll (utf8 (surrogatePair c d))))
                         (Encode unescaped rest')
            else None
        | [] => None
        end
      else option_map (app (pctAll (utf8 c))) (Encode unescaped rest)
  end.

Definition encodeURIComponent : jsstring -> option jsstring := Encode uriUnescaped.
Definition encodeURI : jsstring -> option jsstring := Encode uriUnescapedFull.

(** *** Percent-decoding (ECMAScript [Decode] with an empty reserved set) *)

Definition unhex (c : N) : option N :=
  if in_range 48 57 c then Some (c - 48)
  else if in_range 65 70 c then Some (c - 55)
  else if in_range 97 102 c then Some (c - 87)
  else None.

(** The escape sequences are read first: every [%] must be followed by two
    hexadecimal digits. *)
Inductive token := Lit (c : N) | Oct (b : N).

Fixpoint unescapeTokens (s : jsstring) : option (list token) :=
  match s with
  | [] => Some []
  | c :: rest =>
      if c =? percent then
        match rest with
        | h :: l :: rest' =>
            match unhex h, unhex l, unescapeTokens rest' with
            | Some x, Some y, Some ts => Some (Oct (16 * x + y) :: ts)
            | _, _, _ => None
            end
        | _ => None
        end
      else
        match unescapeTokens rest with
        | Some ts => Some (Lit c :: ts)
        | None => None
        end
  end.

Definition isContinuation (b : N) : bool := in_range 128 191 b.

(** UTF-16 encoding of a code point. *)
Definition utf16 (cp : N) : jsstring :=
  if cp <? 65536 then [cp]
  else [55296 + (cp - 65536) / 1024; 56320 + (cp - 65536) mod 1024].

(** The octets must form valid UTF-8: no overlong forms, no surrogates,
    nothing above U+10FFFF. *)
Fixpoint utf8Tokens (ts : list token) : option jsstring :=
  match ts with
  | [] => Some []
  | Lit c :: ts' =>
      match utf8Tokens ts' with
      | Some r => Some (c :: r)
      | None => None
      end
  | Oct b :: ts' =>
      if b <? 128 then
        match utf8Tokens ts' with
        | Some r => Some (b :: r)
        | None => None
        end
      else if in_range 194 223 b then
        match ts' with
        | Oct b2 :: ts2 =>
            if isContinuation b2 then
              match utf8Tokens ts2 with
              | Some r => Some (utf16 ((b - 192) * 64 + (b2 - 128)) ++ r)
              | None => None
              end
            else None
        | _ => None
        end
      else if in_range 224 239 b then
        match ts' with
        | Oct b2 :: Oct b3 :: ts3 =>
            let cp := (b - 224) * 4096 + (b2 - 128) * 64 + (b3 - 128) in
            if isContinuation b2 && isContinuation b3
               && (2048 <=? cp) && negb (in_range 55296 57343 cp) then
              match utf8Tokens ts3 with
              | Some r => Some (utf16 cp ++ r)
              | None => None
              end
            else None
        | _ => None
        end
      else if in_range 240 244 b then
        match ts' with
        | Oct b2 :: Oct b3 :: Oct b4 :: ts4 =>
            let cp := (b - 240) * 262144 + (b2 - 128) * 4096
                      + (b3 - 128) * 64 + (b4 - 128) in
            if isContinuation b2 && isContinuation b3 && isContinuation b4
               && (65536 <=? cp) && (cp <=? 1114111) then
              match utf8Tokens ts4 with
              | Some r => Some (utf16 cp ++ r)
              | None => None
              end
            else None
        | _ => None
        end
      else None
  end.

Definition decodeURIComponent (s : jsstring) : option jsstring :=
  match unescapeTokens s with
  | Some ts => utf8Tokens ts
  | None => None
  end.

(** *** [atob]: forgiving-base64 decode (WHATWG Infra) *)

Definition isAsciiWhitespace (c : N) : bool := member c [9; 10; 12; 13; 32].

Definition base64Value (c : N) : option N :=
  if in_range 65 90 c then Some (c - 65)
  else if in_range 97 122 c then Some (c - 71)
  else if in_range 48 57 c then Some (c + 4)
  else if c =? 43 then Some 62
  else if c =? 47 then Some 63
  else None.

Fixpoint base64Values (s : jsstring) : option (list N) :=
  match s with
  | [] => Some []
  | c :: s' =>
      match base64Value c, base64Values s' with
      | Some v, Some vs => Some (v :: vs)
      | _, _ => None
      end
  end.

(** 24 bits make three octets; a tail of 18 bits makes two and a tail of
    12 bits one, the left-over bits being dropped. *)
Fixpoint base64Octets (vs : list N) : jsstring :=
  match vs with
  | a :: b :: c :: d :: rest =>
      let n := a * 262144 + b * 4096 + c * 64 + d in
      (n / 65536) :: ((n / 256) mod 256) :: (n mod 256) :: base64Octets rest
  | [a; b; c] =>
      let n := (a * 4096 + b * 64 + c) / 4 in
      [n / 256; n mod 256]
  | [a; b] => [(a * 64 + b) / 16]
  | _ => []
  end.

Definition equals : N := 61.

Definition stripPadding (s : jsstring) : jsstring :=
  if (length s mod 4 =? 0)%nat then
    if endsWith [equals; equals] s then removelast (removelast s)
    else if endsWith [equals] s then removelast s
    else s
  else s.

(** [None] is the InvalidCharacterError. *)
Definition atob (data : jsstring) : option jsstring :=
  let d := stripPadding (List.filter (fun c => negb (isAsciiWhitespace c)) data) in
  if (length d mod 4 =? 1)%nat then None
  else match base64Values d with
       | Some vs => Some (base64Octets vs)
       | None => None
       end.

(** *** [btoa]: forgiving-base64 encode (WHATWG Infra) *)

Definition base64Char (v : N) : N :=
  if v <? 26 then 65 + v
  else if v <? 52 then 71 + v
  else if v <? 62 then v - 4
  else if v =? 62 then 43
  else 47.

Fixpoint base64Chars (bs : list N) : jsstring :=
  match bs with
  | a :: b :: c :: rest =>
      let n := a * 65536 + b * 256 + c in
      base64Char (n / 262144) :: base64Char ((n / 4096) mod 64)
        :: base64Char ((n / 64) mod 64) :: base64Char (n mod 64)
        :: base64Chars rest
  | [a; b] =>
      let n := (a * 256 + b) * 4 in
      [base64Char (n / 4096); base64Char ((n / 64) mod 64);
       base64Char (n mod 64); equals]
  | [a] =>
      let n := a * 16 in
      [base64Char (n / 64); base64Char (n mod 64); equals; equals]
  | [] => []
  end.

(** [None] is the InvalidCharacterError for a code unit above 255. *)
Definition btoa (data : jsstring) : option jsstring :=
  if forallb (fun c => c <? 256) data then Some (base64Chars data) else None.

End Js.

Import Js.

(* ===================================================================== *)
(** ** Effects: the network, the console, the document *)
(* ===================================================================== *)

(** Thrown values are error objects. *)
Record JsError := mkJsError { err_name : jsstring; err_message : jsstring }.

Definition Error (msg : jsstring) : JsError := mkJsError (js "Error") msg.
Definition URIError : JsError := mkJsError (js "URIError") (js "URI malformed").
Definition InvalidCharacterError : JsError :=
  mkJsError (js "InvalidCharacterError")
            (js "The string to be decoded is not correctly encoded.").

(** [Error.prototype.toString], which a template literal applies to an
    interpolated error. *)
Definition error_toString (e : JsError) : jsstring :=
  match err_name e, err_message e with
  | [], msg => msg
  | name, [] => name
  | name, msg => name ++ js ": " ++ msg
  end.

(** The argument of Obsidian's [requestUrl] and what answers it. *)
Record Request := mkRequest {
  req_url : jsstring;
  req_method : jsstring;
  req_headers : gmap jsstring jsstring;
  req_body : option jsstring;
  req_throw : bool
}.

Record Response := mkResponse {
  status : Z;
  text : option jsstring;
  arrayBuffer : jsstring
}.

Inductive Reply :=
| Answer (r : Response)
| NetworkFailure (e : JsError).

(** A server answers a request knowing the exchanges that came before. *)
Definition Server := list (Request * Reply) -> Request -> Reply.

(** An image element: its [src] property, its attributes, and whether an
    [onload] handler that revokes the object URL is installed.  The sources
    assigned are absolute URLs, which [src] gives back as they were set. *)
Record Element := mkElement {
  src : jsstring;
  attributes : gmap jsstring jsstring;
  onload_revokes : bool
}.

Record World := mkWorld {
  exchanges : list (Request * Reply);   (* requests sent, with their replies *)
  warnings : list jsstring;             (* console.warn *)
  elements : gmap nat Element;          (* image elements, by identity *)
  darkTheme : bool;                     (* document.body has class theme-dark *)
  objectUrls : list jsstring;           (* live object URLs *)
  createdBlobs : nat;                   (* object URLs created so far *)
  blobs : gmap jsstring jsstring;       (* WebDavImageLoader.blobs *)
  images : list nat                     (* WebDavImageLoaderExtension.images,
                                           in insertion order *)
}.

Definition set_exchanges (w : World) x :=
  mkWorld x (warnings w) (elements w) (darkTheme w) (objectUrls w)
          (createdBlobs w) (blobs w) (images w).
Definition set_warnings (w : World) x :=
  mkWorld (exchanges w) x (elements w) (darkTheme w) (objectUrls w)
          (createdBlobs w) (blobs w) (images w).
Definition set_elements (w : World) x :=
  mkWorld (exchanges w) (warnings w) x (darkTheme w) (objectUrls w)
          (createdBlobs w) (blobs w) (images w).
Definition set_objectUrls (w : World) x n :=
  mkWorld (exchanges w) (warnings w) (elements w) (darkTheme w) x
          n (blobs w) (images w).
Definition set_blobs (w : World) x :=
  mkWorld (exchanges w) (warnings w) (elements w) (darkTheme w) (objectUrls w)
          (createdBlobs w) x (images w).
Definition set_images (w : World) x :=
  mkWorld (exchanges w) (warnings w) (elements w) (darkTheme w) (objectUrls w)
          (createdBlobs w) (blobs w) x.

Definition emptyWorld : World := mkWorld [] [] ∅ false [] 0 ∅ [].

(** How a call ends: it returns, it throws, or the recursion budget of the
    model is used up (the call is still running). *)
Inductive Outcome (A : Type) :=
| Returned (a : A)
| Thrown (e : JsError)
| OutOfFuel.
Arguments Returned {A} a.
Arguments Thrown {A} e.
Arguments OutOfFuel {A}.

Definition M (A : Type) : Type := World -> Outcome A * World.

Definition ret {A} (a : A) : M A := fun w => (Returned a, w).
Definition throw {A} (e : JsError) : M A := fun w => (Thrown e, w).
Definition diverge {A} : M A := fun w => (OutOfFuel, w).

Definition bind {A B} (m : M A) (k : A -> M B) : M B := fun w =>
  match m w with
  | (Returned a, w') => k a w'
  | (Thrown e, w') => (Thrown e, w')
  | (OutOfFuel, w') => (OutOfFuel, w')
  end.

Notation "'let*' x := m 'in' k" := (bind m (fun x => k))
  (at level 10, x pattern, m at level 100, k at level 200).
Notation "m ;; k" := (bind m (fun _ => k))
  (at level 100, k at level 200, right associativity).

(** [try { m } catch (e) { h e }] *)
Definition try_catch {A} (m : M A) (h : JsError -> M A) : M A := fun w =>
  match m w with
  | (Thrown e, w') => h e w'
  | r => r
  end.

(** A built-in that throws [e] where the model says [None]. *)
Definition orThrow {A} (e : JsError) (o : option A) : M A :=
  match o with
  | Some a => ret a
  | None => throw e
  end.

Definition console_warn (msg : jsstring) : M unit := fun w =>
  (Returned tt, set_warnings w (warnings w ++ [msg])).

Section Plugin.

Variable server : Server.

(** Obsidian's [requestUrl]: the request goes out, the reply is recorded;
    a network failure throws, and so does a status of 400 or more unless
    the request says [throw: false]. *)
Definition requestUrl (p : Request) : M Response := fun w =>
  let reply := server (exchanges w) p in
  let w' := set_exchanges w (exchanges w ++ [(p, reply)]) in
  match reply with
  | NetworkFailure e => (Thrown e, w')
  | Answer r =>
      if req_throw p && (400 <=? status r)%Z
      then (Thrown (Error (js "Request failed, status " ++ Z_to_js (status r))), w')
      else (Returned r, w')
  end.

(* ===================================================================== *)
(** ** WebDavClientInner *)
(* ===================================================================== *)

Record WebDavClientInner := mkInner {
  baseUrl : jsstring;
  authHeader : jsstring
}.

(** [options] of [request] and [customRequest]. *)
Record Options := mkOptions {
  opt_url : jsstring;
  opt_method : jsstring;
  opt_headers : option (gmap jsstring jsstring);
  opt_body : option jsstring
}.

Definition Authorization : jsstring := js "Authorization".

(** [{ Authorization: this.authHeader, ...headers }]: the entries of
    [headers] are copied over the object that holds Authorization. *)
Definition spread_over_auth (auth : jsstring) (headers : gmap jsstring jsstring)
  : gmap jsstring jsstring :=
  headers ∪ {[ Authorization := auth ]}.

(** The [requestOptions] object that [request] hands to [requestUrl]. *)
Definition requestOptions (c : WebDavClientInner) (options : Options) : Request :=
  let headers := default ∅ (opt_headers options) in
  mkRequest (opt_url options) (opt_method options)
            (spread_over_auth (authHeader c) headers)
            (opt_body options) false.

Definition request (c : WebDavClientInner) (options : Options) : M Response :=
  requestUrl (requestOptions c options).

Definition handleResponseCode (response : Response) : M unit :=
  if (400 <=? status response)%Z then
    throw (Error (Z_to_js (status response) ++ js " "
                  ++ default (js "Unknown error") (text response)))
  else ret tt.

Definition encodePath (path : jsstring) : option jsstring :=
  option_map (join (js "/")) (mapM encodeURIComponent (split slash path)).

Definition buildUrl (c : WebDavClientInner) (path : jsstring) : jsstring :=
  let path := if startsWith (js "/") path then path else js "/" ++ path in
  baseUrl c ++ path.

Definition includes (xs : list Z) (x : Z) : bool := existsb (Z.eqb x) xs.

Definition createDirectory (c : WebDavClientInner) (path : jsstring) : M Response :=
  let* encodedPath := orThrow URIError (encodePath path) in
  let url := buildUrl c encodedPath in
  request c (mkOptions url (js "MKCOL") None None).

(** The body of [for (const dir of directories)], with [currentPath]
    carried along. *)
Fixpoint ensureDirectories (c : WebDavClientInner) (currentPath : jsstring)
         (directories : list jsstring) : M unit :=
  match directories with
  | [] => ret tt
  | dir :: rest =>
      let currentPath := currentPath ++ js "/" ++ dir in
      let* response := createDirectory c currentPath in
      (if includes [405; 409]%Z (status response) then
         console_warn (js "Directory already exists or cannot be created: "
                       ++ currentPath)
       else handleResponseCode response) ;;
      ensureDirectories c currentPath rest
  end.

Definition ensureDirectoryExists (c : WebDavClientInner) (path : jsstring) : M unit :=
  let directories :=
    List.filter (fun dir => negb (str_eqb dir [])) (split slash path) in
  ensureDirectories c [] directories.

(** [putFileContents] calls itself; [fuel] bounds the depth of the calls.
    The result is [Some true] for [true] and [None] for [undefined]. *)
Fixpoint putFileContents (fuel : nat) (c : WebDavClientInner)
         (path : jsstring) (data : jsstring) : M (option bool) :=
  match fuel with
  | O => diverge
  | S fuel' =>
      let* encodedPath := orThrow URIError (encodePath path) in
      let url := buildUrl c encodedPath in
      let* response :=
        request c (mkOptions url (js "PUT")
                     (Some {[ js "Content-Type" := js "application/octet-stream" ]})
                     (Some data)) in
      if (status response =? 409)%Z then
        ensureDirectoryExists c (substring_to_last slash path) ;;
        putFileContents fuel' c path data ;;
        ret None
      else
        handleResponseCode response ;;
        ret (Some true)
  end.

Definition getFileContents (c : WebDavClientInner) (path : jsstring) : M jsstring :=
  let* encodedPath := orThrow URIError (encodePath path) in
  let url := buildUrl c encodedPath in
  let* response := request c (mkOptions url (js "GET") None None) in
  handleResponseCode response ;;
  ret (arrayBuffer response).

Definition exists_ (c : WebDavClientInner) (path : jsstring) : M bool :=
  let* encodedPath := orThrow URIError (encodePath path) in
  let url := buildUrl c encodedPath in
  let* response := request c (mkOptions url (js "HEAD") None None) in
  if (status response =? 200)%Z then ret true
  else if (status response =? 404)%Z then ret false
  else
    handleResponseCode response ;;
    ret false.

Definition destinationExists (newPath : jsstring) : JsError :=
  Error (js "Destination file already exists: '" ++ newPath ++ js "'").

Fixpoint moveFile (fuel : nat) (c : WebDavClientInner)
         (oldPath newPath : jsstring) (overwrite : bool) : M unit :=
  match fuel with
  | O => diverge
  | S fuel' =>
      let* encodedOld := orThrow URIError (encodePath oldPath) in
      let url := buildUrl c encodedOld in
      (if negb overwrite then
         let* exists' := exists_ c newPath in
         if exists' then throw (destinationExists newPath) else ret tt
       else ret tt) ;;
      let* encodedNew := orThrow URIError (encodePath newPath) in
      let newUrl := buildUrl c encodedNew in
      let* response :=
        request c (mkOptions url (js "MOVE")
                     (Some (<[ js "Overwrite" := if overwrite then js "T" else js "F" ]>
                              {[ js "Destination" := newUrl ]}))
                     None) in
      if includes [404; 409; 500]%Z (status response) then
        ensureDirectoryExists c (substring_to_last slash newPath) ;;
        moveFile fuel' c oldPath newPath overwrite ;;
        ret tt
      else if (status response =? 412)%Z then
        throw (destinationExists newPath)
      else
        handleResponseCode response ;;
        ret tt
  end.

Definition deleteFile (c : WebDavClientInner) (path : jsstring) : M unit :=
  let* encodedPath := orThrow URIError (encodePath path) in
  let url := buildUrl c encodedPath in
  let* response := request c (mkOptions url (js "DELETE") None None) in
  handleResponseCode response.

(** [customRequest(path, { method, headers = {}, body })] *)
Definition customRequest (c : WebDavClientInner) (path : jsstring)
           (method : jsstring) (headers : option (gmap jsstring jsstring))
           (body : option jsstring) : M Response :=
  let headers := default ∅ headers in
  let* encodedPath := orThrow URIError (encodePath path) in
  let url := buildUrl c encodedPath in
  request c (mkOptions url method (Some headers) body).

(* ===================================================================== *)
(** ** WebDavClient *)
(* ===================================================================== *)

(** The settings the client reads ([WebDavImageUploaderSettings]); the
    optional fields may be undefined. *)
Record Settings := mkSettings {
  url : jsstring;
  username : option jsstring;
  password : option jsstring;
  token : option jsstring
}.

(** [String(x)] of a string or undefined. *)
Definition String_ (x : option jsstring) : jsstring := default (js "undefined") x.

(** Truthiness of a string or undefined. *)
Definition truthy_string (x : option jsstring) : bool :=
  match x with
  | Some (_ :: _) => true
  | _ => false
  end.

(** [getToken] of utils.ts is not part of the sources at hand; it is a
    parameter of the development. *)
Variable getToken : option jsstring -> jsstring -> jsstring.

(** [new WebDavClientInner(url, username, password)] *)
Definition newWebDavClientInner (url : jsstring) (username password : option jsstring)
  : M WebDavClientInner :=
  let baseUrl := if endsWith (js "/") url then slice_0_m1 url else url in
  if truthy_string username && truthy_string password then
    let* passwordDecoded := orThrow InvalidCharacterError (atob (String_ password)) in
    let credentials := getToken username passwordDecoded in
    ret (mkInner baseUrl (js "Basic " ++ credentials))
  else ret (mkInner baseUrl (js "")).

Record WebDavClient := mkClient {
  settings : Settings;
  client : WebDavClientInner
}.

(** [new WebDavClient(plugin)], that is [initClient]. *)
Definition newWebDavClient (s : Settings) : M WebDavClient :=
  let* inner := newWebDavClientInner (url s) (username s) (password s) in
  ret (mkClient s inner).

Record File := mkFile { file_name : jsstring; file_arrayBuffer : jsstring }.
Record FileInfo := mkFileInfo { fileName : jsstring; fileUrl : jsstring }.

(** [getUrl] and [getPath] touch neither the network nor the document:
    they return a string ([inr]) or throw ([inl]). *)
Definition tokenQuery (s : Settings) : JsError + jsstring :=
  let token := String_ (token s) in
  if (0 <? length token)%nat then
    match atob token with
    | Some token => inr (js "?token=" ++ token)
    | None => inl InvalidCharacterError
    end
  else inr [].

Definition getUrl (s : Settings) (path : jsstring) : JsError + jsstring :=
  match tokenQuery s with
  | inr queryStr =>
      match encodeURI (url s ++ path ++ queryStr) with
      | Some u => inr u
      | None => inl URIError
      end
  | inl e => inl e
  end.

Definition getPath (s : Settings) (url_ : jsstring) : JsError + jsstring :=
  let path := replace_first_empty (url s) url_ in
  match tokenQuery s with
  | inr queryStr => inr (replace_first_empty queryStr path)
  | inl e => inl e
  end.

Definition liftE {A} (r : JsError + A) : M A :=
  match r with
  | inr a => ret a
  | inl e => throw e
  end.

(** Truthiness of [true | undefined]. *)
Definition truthy (x : option bool) : bool := default false x.

Definition uploadFile (fuel : nat) (wc : WebDavClient) (file : File)
           (path : jsstring) : M FileInfo :=
  let buffer := file_arrayBuffer file in
  let* success := putFileContents fuel (client wc) path buffer in
  if negb (truthy success) then
    throw (Error (js "Failed to upload file: '" ++ file_name file ++ js "'"))
  else
    let* u := liftE (getUrl (settings wc) path) in
    ret (mkFileInfo (file_name file) u).

Definition renameFile (fuel : nat) (wc : WebDavClient) (oldPath newPath : jsstring)
  : M unit :=
  moveFile fuel (client wc) oldPath newPath false.

(** The result is [None] for [null]. *)
Definition testConnection (wc : WebDavClient) : M (option jsstring) :=
  try_catch
    (let* resp := customRequest (client wc) (js "/") (js "PROPFIND")
                                (Some {[ js "Depth" := js "0" ]}) None in
     if (status resp =? 207)%Z then ret None
     else ret (Some (js "Check connection failed: " ++ Z_to_js (status resp))))
    (fun e => ret (Some (error_toString e))).

Definition WebDavClient_deleteFile (wc : WebDavClient) (url_ : jsstring) : M unit :=
  let* path := liftE (getPath (settings wc) url_) in
  deleteFile (client wc) path.

(* ===================================================================== *)
(** ** WebDavImageLoader and WebDavImageLoaderExtension *)
(* ===================================================================== *)

Definition loadingLight : jsstring :=
  js "data:image/svg+xml;base64,PHN2ZyB4bWxucz0iaHR0cDovL3d3dy53My5vcmcvMjAwMC9zdmciIHdpZHRoPSI0OCIgaGVpZ2h0PSI0OCIgdmlld0JveD0iMCAwIDI0IDI0Ij48Y2lyY2xlIGN4PSIxMiIgY3k9IjEyIiByPSIzIiBzdHJva2U9IiMwMDAwMDAiIHN0cm9rZS13aWR0aD0iMiIgZmlsbD0ibm9uZSIgc3Ryb2tlLWRhc2hhcnJheT0iNiwgMzAiPjxhbmltYXRlVHJhbnNmb3JtIGF0dHJpYnV0ZU5hbWU9InRyYW5zZm9ybSIgdHlwZT0icm90YXRlIiBmcm9tPSIwIDEyIDEyIiB0bz0iMzYwIDEyIDEyIiBkdXI9IjFzIiByZXBlYXRDb3VudD0iaW5kZWZpbml0ZSIvPjwvY2lyY2xlPjwvc3ZnPg==".
Definition loadingDark : jsstring :=
  js "data:image/svg+xml;base64,PHN2ZyB4bWxucz0iaHR0cDovL3d3dy53My5vcmcvMjAwMC9zdmciIHdpZHRoPSI0OCIgaGVpZ2h0PSI0OCIgdmlld0JveD0iMCAwIDI0IDI0Ij48Y2lyY2xlIGN4PSIxMiIgY3k9IjEyIiByPSIzIiBzdHJva2U9IiNmZmZmZmYiIHN0cm9rZS13aWR0aD0iMiIgZmlsbD0ibm9uZSIgc3Ryb2tlLWRhc2hhcnJheT0iNiwgMzAiPjxhbmltYXRlVHJhbnNmb3JtIGF0dHJpYnV0ZU5hbWU9InRyYW5zZm9ybSIgdHlwZT0icm90YXRlIiBmcm9tPSIwIDEyIDEyIiB0bz0iMzYwIDEyIDEyIiBkdXI9IjFzIiByZXBlYXRDb3VudD0iaW5kZWZpbml0ZSIvPjwvY2lyY2xlPjwvc3ZnPg==".

(** *** The document and the object-URL registry *)

Definition blankElement : Element := mkElement [] ∅ false.

Definition element (w : World) (el : nat) : Element :=
  default blankElement (elements w !! el).

Definition get_src (el : nat) : M jsstring := fun w =>
  (Returned (src (element w el)), w).

Definition set_src (el : nat) (v : jsstring) : M unit := fun w =>
  let e := element w el in
  (Returned tt,
   set_elements w
     (<[ el := mkElement v (attributes e) (onload_revokes e) ]> (elements w))).

Definition getAttribute (el : nat) (name : jsstring) : M (option jsstring) := fun w =>
  (Returned (attributes (element w el) !! name), w).

Definition setAttribute (el : nat) (name v : jsstring) : M unit := fun w =>
  let e := element w el in
  (Returned tt,
   set_elements w
     (<[ el := mkElement (src e) (<[ name := v ]> (attributes e)) (onload_revokes e) ]>
        (elements w))).

(** [el.onload = () => URL.revokeObjectURL(el.src)] *)
Definition set_onload_revoke (el : nat) : M unit := fun w =>
  let e := element w el in
  (Returned tt,
   set_elements w (<[ el := mkElement (src e) (attributes e) true ]> (elements w))).

Definition hasClass_theme_dark : M bool := fun w => (Returned (darkTheme w), w).

(** [URL.createObjectURL]: every call hands out an object URL that was
    never handed out before. *)
Definition createObjectURL (blob : jsstring) : M jsstring := fun w =>
  let u := js "blob:" ++ Z_to_js (Z.of_nat (createdBlobs w)) in
  (Returned u, set_objectUrls w (objectUrls w ++ [u]) (S (createdBlobs w))).

(** [URL.revokeObjectURL]: nothing happens for a URL that is not live. *)
Definition revokeObjectURL (u : jsstring) : M unit := fun w =>
  (Returned tt,
   set_objectUrls w (List.filter (fun v => negb (str_eqb v u)) (objectUrls w))
                  (createdBlobs w)).

(** *** WebDavImageLoader *)

Definition blobs_get (k : jsstring) : M (option jsstring) := fun w =>
  (Returned (blobs w !! k), w).
Definition blobs_set (k v : jsstring) : M unit := fun w =>
  (Returned tt, set_blobs w (<[ k := v ]> (blobs w))).
Definition blobs_delete (k : jsstring) : M unit := fun w =>
  (Returned tt, set_blobs w (delete k (blobs w))).

(** [isWebdavUrl] of main.ts is not part of the sources at hand; it is a
    parameter of the development. *)
Variable isWebdavUrl : jsstring -> bool.

Definition shouldLoadImage (el : nat) : M bool :=
  let* url_ := get_src el in
  let* loaded := getAttribute el (js "webdav-loaded") in
  ret (negb (bool_decide (loaded = Some (js "true")))
       && negb (str_eqb url_ [])
       && isWebdavUrl url_).

Definition loadImage (s : Settings) (el : nat) (cache : bool) : M unit :=
  let* should := shouldLoadImage el in
  if negb should then ret tt
  else
    let* url_ := get_src el in
    let* blobUrl := blobs_get url_ in
    match blobUrl with
    | Some blobUrl =>
        set_src el blobUrl ;;
        setAttribute el (js "loaded") (js "true")
    | None =>
        let* isDarkMode := hasClass_theme_dark in
        set_src el (if isDarkMode then loadingDark else loadingLight) ;;
        let* passwordDecoded :=
          orThrow InvalidCharacterError (atob (String_ (password s))) in
        let token := getToken (username s) passwordDecoded in
        let* resp :=
          requestUrl (mkRequest url_ (js "GET")
                        {[ Authorization := js "Basic " ++ token ]} None true) in
        let blob := arrayBuffer resp in
        let* created := createObjectURL blob in
        set_src el created ;;
        setAttribute el (js "loaded") (js "true") ;;
        if cache then
          let* current := get_src el in
          blobs_set url_ current
        else set_onload_revoke el
    end.

Definition revokeImage (el : nat) : M unit :=
  let* current := get_src el in
  let* blobUrl := blobs_get current in
  match blobUrl with
  | Some blobUrl =>
      revokeObjectURL blobUrl ;;
      blobs_delete current
  | None => ret tt
  end.

(** [destroy] of the loader: every cached object URL is revoked and the
    cache is emptied. *)
Definition loader_destroy : M unit := fun w =>
  (map_fold (fun _ blobUrl (rest : M unit) => revokeObjectURL blobUrl ;; rest)
            (ret tt) (blobs w) ;;
   (fun w' => (Returned tt, set_blobs w' ∅))) w.

(** *** WebDavImageLoaderExtension *)

Definition images_has (el : nat) : M bool := fun w =>
  (Returned (bool_decide (el ∈ images w)), w).
Definition images_add (el : nat) : M unit := fun w =>
  (Returned tt,
   if bool_decide (el ∈ images w) then w else set_images w (images w ++ [el])).
Definition images_clear : M unit := fun w => (Returned tt, set_images w []).

Fixpoint forEach (f : nat -> M unit) (els : list nat) : M unit :=
  match els with
  | [] => ret tt
  | el :: rest => f el ;; forEach f rest
  end.

Definition extension_loadImage (s : Settings) (el : nat) : M unit :=
  let* has := images_has el in
  if has then ret tt
  else
    loadImage s el true ;;
    images_add el.

(** [destroy] of the extension; the observer it disconnects has no state
    in this model. *)
Definition extension_destroy : M unit :=
  (fun w => forEach revokeImage (images w) w) ;;
  images_clear.

End Plugin.

(* ===================================================================== *)
(** ** WebDavClient.downloadFile *)
(* ===================================================================== *)

Section Vault.

Variable server : Server.

(** The two calls into the host application, [getAvailablePathForAttachment]
    of the file manager and [createBinary] of the vault, are parameters. *)
Variable TFile : Type.
Variable getAvailablePathForAttachment : jsstring -> option jsstring -> M jsstring.
Variable createBinary : jsstring -> jsstring -> M TFile.

(** [segs.pop()!] of an array that is not changed afterwards. *)
Definition pop (segs : list jsstring) : jsstring := List.last segs [].

Definition downloadFile (wc : WebDavClient) (url_ : jsstring)
           (sourcePath : option jsstring) : M TFile :=
  let* path := liftE (getPath (settings wc) url_) in
  let fileName := pop (split slash path) in
  let* resp := getFileContents server (client wc) path in
  let* filePath := getAvailablePathForAttachment fileName sourcePath in
  createBinary filePath resp.

End Vault.

(* ===================================================================== *)
(** ** WebDavImageUploaderSettingTab: the change handlers *)
(* ===================================================================== *)

(** White space and line terminators, as [String.prototype.trim] sees them. *)
Definition isWhiteSpace (c : N) : bool :=
  member c [9; 10; 11; 12; 13; 32; 160; 5760; 8232; 8233; 8239; 8287; 12288; 65279]
  || in_range 8192 8202 c.

Fixpoint trimStart (s : jsstring) : jsstring :=
  match s with
  | [] => []
  | c :: s' => if isWhiteSpace c then trimStart s' else s
  end.

Definition trimEnd (s : jsstring) : jsstring := rev (trimStart (rev s)).

(** [s.trim()] *)
Definition trim (s : jsstring) : jsstring := trimEnd (trimStart s).

(** The handler of the Url field. *)
Definition onUrlChange (s : Settings) (value : jsstring) : Settings :=
  let value := trim value in
  let value := if endsWith (js "/") value then slice_0_m1 value else value in
  mkSettings value (username s) (password s) (token s).

(** The handler of the Username field. *)
Definition onUsernameChange (s : Settings) (value : jsstring) : Settings :=
  mkSettings (url s) (Some value) (password s) (token s).

(** The handlers of the Password and Token fields store [btoa(value)];
    [btoa] throws on a code unit above 255 and nothing is stored then. *)
Definition onPasswordChange (s : Settings) (value : jsstring) : JsError + Settings :=
  match btoa value with
  | Some encoded => inr (mkSettings (url s) (username s) (Some encoded) (token s))
  | None => inl InvalidCharacterError
  end.

Definition onTokenChange (s : Settings) (value : jsstring) : JsError + Settings :=
  match btoa value with
  | Some encoded => inr (mkSettings (url s) (username s) (password s) (Some encoded))
  | None => inl InvalidCharacterError
  end.

Definition comma : N := 44.

(** The Include extensions field shows [includeExtensions.join(",")]; its
    handler stores the list computed here. *)
Definition displayIncludeExtensions (includeExtensions : list jsstring) : jsstring :=
  join (js ",") includeExtensions.

Definition onIncludeExtensionsChange (value : jsstring) : list jsstring :=
  List.filter (fun ext => negb (str_eqb ext [])) (map trim (split comma value)).

(* ===================================================================== *)
(** ** Vocabulary of the properties *)
(* ===================================================================== *)

Arguments js : simpl never.
Arguments requestOptions : simpl never.
Arguments buildUrl : simpl never.
Arguments Z_to_js : simpl never.
Arguments encodePath : simpl never.

(** *** The requests the operations send *)

(** The world once a request has gone out and was answered. *)
Definition sent (w : World) (p : Request) (reply : Reply) : World :=
  set_exchanges w (exchanges w ++ [(p, reply)]).

(** The HEAD request [exists] sends for an encoded path. *)
Definition headRequest (c : WebDavClientInner) (encodedPath : jsstring) : Request :=
  requestOptions c (mkOptions (buildUrl c encodedPath) (js "HEAD") None None).

(** The MOVE request [moveFile] sends. *)
Definition moveRequest (c : WebDavClientInner) (encodedOld encodedNew : jsstring)
           (overwrite : bool) : Request :=
  requestOptions c
    (mkOptions (buildUrl c encodedOld) (js "MOVE")
       (Some (<[ js "Overwrite" := if overwrite then js "T" else js "F" ]>
                {[ js "Destination" := buildUrl c encodedNew ]}))
       None).

(** The PUT request [putFileContents] sends. *)
Definition putRequest (c : WebDavClientInner) (encodedPath data : jsstring) : Request :=
  requestOptions c
    (mkOptions (buildUrl c encodedPath) (js "PUT")
       (Some {[ js "Content-Type" := js "application/octet-stream" ]})
       (Some data)).

(** The PROPFIND request [testConnection] sends. *)
Definition propfindRequest (wc : WebDavClient) : Request :=
  requestOptions (client wc)
    (mkOptions (buildUrl (client wc) (js "/")) (js "PROPFIND")
               (Some {[ js "Depth" := js "0" ]}) None).

(** The authenticated GET that [loadImage] sends for the URL [U]. *)
Definition fetchRequest (getToken : option jsstring -> jsstring -> jsstring)
           (s : Settings) (U passwordDecoded : jsstring) : Request :=
  mkRequest U (js "GET")
            {[ Authorization := js "Basic " ++ getToken (username s) passwordDecoded ]}
            None true.

(** What went over the wire, in short: verb, URL and status of the answer. *)
Definition summary (x : Request * Reply) : jsstring * jsstring * option Z :=
  (req_method (fst x), req_url (fst x),
   match snd x with
   | Answer r => Some (status r)
   | NetworkFailure _ => None
   end).

(** *** What an operation adds to the record of exchanges *)

(** [m] only ever adds exchanges, and each one it adds satisfies [P]. *)
Definition appends (P : Request * Reply -> Prop) {A} (m : M A) : Prop :=
  forall w, exists new,
    exchanges (snd (m w)) = exchanges w ++ new /\ Forall P new.

Definition sendsAuthorization (v : jsstring) (x : Request * Reply) : Prop :=
  req_headers (fst x) !! Authorization = Some v.

(** *** Attempts and recoverable answers *)

Definition isVerb (verb : jsstring) (x : Request * Reply) : bool :=
  str_eqb (req_method (fst x)) verb.

Definition isMove (x : Request * Reply) : bool := isVerb (js "MOVE") x.

Definition isRecoverable (verb : jsstring) (recoverable : Z -> bool)
           (x : Request * Reply) : bool :=
  isVerb verb x && match snd x with
                   | Answer r => recoverable (status r)
                   | NetworkFailure _ => false
                   end.

(** How often the verb was sent, and how often it was answered with a
    recoverable status. *)
Definition attempts (verb : jsstring) (new : list (Request * Reply)) : nat :=
  length (List.filter (isVerb verb) new).
Definition recovered (verb : jsstring) (recoverable : Z -> bool)
           (new : list (Request * Reply)) : nat :=
  length (List.filter (isRecoverable verb recoverable) new).

Definition otherVerb (verb : jsstring) (x : Request * Reply) : Prop :=
  isVerb verb x = false.

(** [m] does not send the verb and always comes to an end. *)
Definition quiet (verb : jsstring) {A} (m : M A) : Prop :=
  appends (otherVerb verb) m /\ forall w, fst (m w) <> OutOfFuel.

(** [m] sends the verb at most once more than it saw it answered with a
    recoverable status, and exactly once more when it returns; and if the
    budget [fuel] runs out, every one of the [fuel] attempts was answered
    so. *)
Definition retries (verb : jsstring) (recoverable : Z -> bool) {A}
           (fuel : nat) (m : M A) : Prop :=
  forall w, exists new,
    exchanges (snd (m w)) = exchanges w ++ new
    /\ (attempts verb new <= 1 + recovered verb recoverable new)%nat
    /\ (forall a, fst (m w) = Returned a ->
        attempts verb new = (1 + recovered verb recoverable new)%nat)
    /\ (fst (m w) = OutOfFuel ->
        attempts verb new = fuel /\ recovered verb recoverable new = fuel).

Definition is409 (s : Z) : bool := (s =? 409)%Z.

(** The server answers the request [p] with a recoverable status whatever
    came before. *)
Definition alwaysRecoverable (server : Server) (p : Request)
           (recoverable : Z -> bool) : Prop :=
  forall history, exists r,
    server history p = Answer r /\ recoverable (status r) = true.

(** [m] returns in every world. *)
Definition alwaysReturns {A} (m : M A) : Prop :=
  forall w, exists a w', m w = (Returned a, w').

(** Started in [w], [m] is still running when the budget of [fuel] nested
    calls is used up, and has sent the verb [fuel] times by then. *)
Definition runsOut (verb : jsstring) (fuel : nat) {A} (m : M A) (w : World) : Prop :=
  exists new,
    fst (m w) = OutOfFuel
    /\ exchanges (snd (m w)) = exchanges w ++ new
    /\ attempts verb new = fuel.

(** The world in which the MOVE goes out: the one [moveFile] starts in when
    [overwrite] is set, the one the existence check leaves otherwise. *)
Definition checkPassed (server : Server) (c : WebDavClientInner)
           (newPath : jsstring) (overwrite : bool) (w w1 : World) : Prop :=
  if overwrite then w1 = w
  else exists_ server c newPath w = (Returned false, w1).

(** *** The image loader and the blob cache *)

(** The object URL that the n-th call of [createObjectURL] hands out. *)
Definition objectUrl (n : nat) : jsstring := js "blob:" ++ Z_to_js (Z.of_nat n).

(** The element once a blob URL is assigned to it and it is marked. *)
Definition assigned (w : World) (el : nat) (b : jsstring) : Element :=
  mkElement b (<[ js "loaded" := js "true" ]> (attributes (element w el)))
            (onload_revokes (element w el)).

(** The world after a load that had to fetch, and after one served from
    the cache. *)
Definition afterFetch (getToken : option jsstring -> jsstring -> jsstring)
           (s : Settings) (el : nat) (U pd : jsstring) (r : Response) (w : World)
  : World :=
  let b := objectUrl (createdBlobs w) in
  mkWorld (exchanges w ++ [(fetchRequest getToken s U pd, Answer r)]) (warnings w)
          (<[ el := assigned w el b ]> (elements w))
          (darkTheme w) (objectUrls w ++ [b]) (S (createdBlobs w))
          (<[ U := b ]> (blobs w)) (images w).

Definition afterCacheHit (el : nat) (b : jsstring) (w : World) : World :=
  set_elements w (<[ el := assigned w el b ]> (elements w)).

(** The element is one that [shouldLoadImage] accepts and its source is [U]. *)
Definition loadable (isWebdavUrl : jsstring -> bool) (w : World) (el : nat)
           (U : jsstring) : Prop :=
  src (element w el) = U
  /\ U <> []
  /\ isWebdavUrl U = true
  /\ attributes (element w el) !! js "webdav-loaded" <> Some (js "true").

(** *** The path codec *)

(** A string made of code units that the encoder leaves alone. *)
Definition stable (unescaped : N -> bool) (s : jsstring) : bool := forallb unescaped s.

(** A Unicode scalar value: a code point that is not a surrogate. *)
Definition isScalar (cp : N) : Prop :=
  cp < 1114112 /\ in_range 55296 57343 cp = false.

(** The two passes of the decoder succeed on [e] and give [s]. *)
Definition decodes (e s : jsstring) : Prop :=
  exists ts, unescapeTokens e = Some ts /\ utf8Tokens ts = Some s.

(** Decoding an encoded path: every segment between two slashes is decoded
    on its own. *)
Definition decodePath (e : jsstring) : option jsstring :=
  option_map (join (js "/")) (mapM decodeURIComponent (split slash e)).

(** *** Servers, clients and documents for concrete runs *)

(** A server that answers every request with the same status. *)
Definition constantServer (s : Z) : Server :=
  fun _ _ => Answer (mkResponse s None []).

(** A server that answers the n-th request it sees with the n-th status of
    a script, and with [last] once the script is over. *)
Definition scriptedServer (script : list Z) (last : Z) : Server :=
  fun history _ => Answer (mkResponse (nth (length history) script last) None []).

Definition davClient : WebDavClientInner :=
  mkInner (js "https://dav.example.com/remote") (js "Basic dXNlcjpwYXNz").

(** Settings without an access token, and with the token [secret]. *)
Definition davSettings : Settings :=
  mkSettings (js "https://dav.example.com/remote") (Some (js "user"))
             (Some (js "cGFzcw==")) (Some []).

Definition tokenSettings : Settings :=
  mkSettings (js "https://dav.example.com/remote") (Some (js "user"))
             (Some (js "cGFzcw==")) (Some (js "c2VjcmV0")).

Definition davWebDavClient : WebDavClient := mkClient davSettings davClient.

Definition imgFile : File := mkFile (js "img.png") [137; 80; 78; 71].

(** Modelled from the spec: [getToken] of utils.ts is not among the
    sources; the spec gives the credential of the Authorization header as
    base64(username:password). *)
Definition specGetToken (u : option jsstring) (p : jsstring) : jsstring :=
  default [] (btoa (String_ u ++ js ":" ++ p)).

(** Modelled from the spec: [isWebdavUrl] of main.ts is not among the
    sources; the spec speaks of a source that matches the configured
    server's URL shape, read here as: it starts with the configured URL. *)
Definition specIsWebdavUrl (s : Settings) (u : jsstring) : bool :=
  startsWith (url s) u.

Definition imageUrl : jsstring := js "https://dav.example.com/remote/notes/img.png".

Definition imageElement : Element := mkElement imageUrl ∅ false.

(** A document with one image element, and one with two image elements
    that show the same remote URL. *)
Definition oneImage : World :=
  mkWorld [] [] (<[ 0%nat := imageElement ]> ∅) false [] 0 ∅ [].

Definition twoImages : World :=
  mkWorld [] [] (<[ 1%nat := imageElement ]> (<[ 0%nat := imageElement ]> ∅))
          false [] 0 ∅ [].

(** /notes/a#b c/é.png *)
Definition reservedPath : jsstring :=
  js "/notes/a#b c/" ++ [233] ++ js ".png".


(** *** Directories, plain paths and guarded moves *)

(** The directories [ensureDirectoryExists] walks through, and the paths it
    builds from them one after the other. *)
Definition directoriesOf (path : jsstring) : list jsstring :=
  List.filter (fun dir => negb (str_eqb dir [])) (split slash path).

Fixpoint cumulative (currentPath : jsstring) (directories : list jsstring)
  : list jsstring :=
  match directories with
  | [] => []
  | dir :: rest =>
      let currentPath := currentPath ++ js "/" ++ dir in
      currentPath :: cumulative currentPath rest
  end.

(** Verb and URL of the MKCOL for a path; no URL when the path cannot be
    encoded. *)
Definition mkcolFor (c : WebDavClientInner) (path : jsstring)
  : jsstring * option jsstring :=
  (js "MKCOL", option_map (buildUrl c) (encodePath path)).

Definition verbAndUrl (x : Request * Reply) : jsstring * option jsstring :=
  (req_method (fst x), Some (req_url (fst x))).

(** An answer that lets [ensureDirectoryExists] go on: 405, 409, or any
    status below 400. *)
Definition tolerated (x : Request * Reply) : bool :=
  match snd x with
  | Answer r => includes [405; 409]%Z (status r) || (status r <? 400)%Z
  | NetworkFailure _ => false
  end.

(** The URL of the destination of a move: that of the encoded new path,
    and none when the new path cannot be encoded. *)
Definition destinationUrl (c : WebDavClientInner) (newPath : jsstring)
  : option jsstring :=
  option_map (buildUrl c) (encodePath newPath).

(** A HEAD that went to the URL [dest] and was answered with a status
    other than 200.  No exchange is one when there is no such URL. *)
Definition passedHead (dest : option jsstring) (x : Request * Reply) : bool :=
  isVerb (js "HEAD") x
  && bool_decide (Some (req_url (fst x)) = dest)
  && match snd x with
     | Answer r => negb (status r =? 200)%Z
     | NetworkFailure _ => false
     end.

(** Every MOVE of the list comes right after such a HEAD; [previous] says
    whether the exchange before the list was one. *)
Fixpoint guardedMoves (dest : option jsstring) (previous : bool)
         (xs : list (Request * Reply)) : bool :=
  match xs with
  | [] => true
  | x :: rest =>
      (if isMove x then previous else true)
      && guardedMoves dest (passedHead dest x) rest
  end.

(** A code unit that passes through [encodePath] as it is, and one that
    may occur in what [encodePath] puts out. *)
Definition plainUnit (c : N) : bool := uriUnescaped c || (c =? slash).
Definition wireUnit (c : N) : bool := plainUnit c || (c =? percent).

Definition isSurrogate (c : N) : bool := in_range 55296 57343 c.

(** [pat] occurs somewhere in [s]. *)
Fixpoint occurs (pat s : jsstring) : bool :=
  startsWith pat s || match s with
                      | [] => false
                      | _ :: s' => occurs pat s'
                      end.

(** A code unit that [btoa] accepts. *)
Definition isLatin1 (s : jsstring) : bool := forallb (fun c => c <? 256) s.

(** An operation that leaves a part of the world as it is. *)
Definition keeps {X A} (part : World -> X) (m : M A) : Prop :=
  forall w, part (snd (m w)) = part w.

(** A lone surrogate, which no encoder accepts. *)
Definition malformed : jsstring := [55296].

(** A MOVE request for the encoded paths: its URL and its two headers. *)
Definition movesTo (c : WebDavClientInner) (encodedOld encodedNew : jsstring)
           (overwrite : bool) (x : Request * Reply) : Prop :=
  isMove x = true ->
  req_url (fst x) = buildUrl c encodedOld
  /\ req_headers (fst x) !! js "Destination" = Some (buildUrl c encodedNew)
  /\ req_headers (fst x) !! js "Overwrite"
     = Some (if overwrite then js "T" else js "F").

(** *** Base64 *)

(** The six-bit values [btoa] writes for a list of octets, and the padding
    it adds. *)
Fixpoint sextets (bs : list N) : list N :=
  match bs with
  | a :: b :: c :: rest =>
      let n := a * 65536 + b * 256 + c in
      (n / 262144) :: ((n / 4096) mod 64) :: ((n / 64) mod 64) :: (n mod 64)
        :: sextets rest
  | [a; b] =>
      let n := (a * 256 + b) * 4 in
      [n / 4096; (n / 64) mod 64; n mod 64]
  | [a] =>
      let n := a * 16 in
      [n / 64; n mod 64]
  | [] => []
  end.

Fixpoint padding (bs : list N) : jsstring :=
  match bs with
  | _ :: _ :: _ :: rest => padding rest
  | [_; _] => [equals]
  | [_] => [equals; equals]
  | [] => []
  end.

(** An entry as the Include extensions field keeps it: not empty, without
    white space around it and without a comma. *)
Definition cleanExtension (ext : jsstring) : Prop :=
  ext <> [] /\ trim ext = ext /\ member comma ext = false.

(** Settings in which the token was never set. *)
Definition tokenlessSettings : Settings :=
  mkSettings (js "https://dav.example.com/remote") (Some (js "user"))
             (Some (js "cGFzcw==")) None.

(** The DELETE and GET requests [deleteFile] and [getFileContents] send. *)
Definition deleteRequest (c : WebDavClientInner) (encodedPath : jsstring) : Request :=
  requestOptions c (mkOptions (buildUrl c encodedPath) (js "DELETE") None None).

Definition getRequest (c : WebDavClientInner) (encodedPath : jsstring) : Request :=
  requestOptions c (mkOptions (buildUrl c encodedPath) (js "GET") None None).

(** *** The loader on its failure paths *)

(** The animation an element shows while its image is fetched. *)
Definition loadingImage (w : World) : jsstring :=
  if darkTheme w then loadingDark else loadingLight.

(** The world in which the element shows the animation and nothing else
    has changed. *)
Definition waiting (w : World) (el : nat) : World :=
  set_elements w
    (<[ el := mkElement (loadingImage w) (attributes (element w el))
                        (onload_revokes (element w el)) ]> (elements w)).

(** A reply that makes a throwing request fail. *)
Definition refused (reply : Reply) : Prop :=
  match reply with
  | NetworkFailure _ => True
  | Answer r => (400 <= status r)%Z
  end.

(** What a refused request throws. *)
Definition refusal (reply : Reply) : JsError :=
  match reply with
  | NetworkFailure e => e
  | Answer r => Error (js "Request failed, status " ++ Z_to_js (status r))
  end.

(** The element is one that [shouldLoadImage] rejects. *)
Definition unloadable (isWebdavUrl : jsstring -> bool) (w : World) (el : nat) : Prop :=
  attributes (element w el) !! js "webdav-loaded" = Some (js "true")
  \/ src (element w el) = []
  \/ isWebdavUrl (src (element w el)) = false.

(** Settings in which no password was ever stored. *)
Definition passwordlessSettings : Settings :=
  mkSettings (js "https://dav.example.com/remote") (Some (js "user")) None (Some []).

(** The replies of [constantServer] as a reply. *)
Definition statusReply (s : Z) : Reply := Answer (mkResponse s None []).
(* ===================================================================== *)
(** ** Properties *)
(* ===================================================================== *)

(** *** The built-ins on examples *)

Example btoa_ex :
  btoa (js "user:pass") = Some (js "dXNlcjpwYXNz")
  /\ btoa (js "a") = Some (js "YQ==")
  /\ btoa (js "ab") = Some (js "YWI=")
  /\ btoa [8364] = None
  /\ specGetToken (Some (js "user")) (js "pass") = js "dXNlcjpwYXNz".
Proof. repeat split; reflexivity. Qed.

Example atob_ex :
  atob (js "c2VjcmV0") = Some (js "secret")
  /\ atob (js "YSBi") = Some (js "a b")
  /\ atob (js "YQ==") = Some (js "a")
  /\ atob (js "YWI=") = Some (js "ab")
  /\ atob (js "YWI") = Some (js "ab")
  /\ atob (js "") = Some (js "")
  /\ atob (js "undefined") = None.
Proof. repeat split; reflexivity. Qed.

Example decodeURIComponent_ex :
  decodeURIComponent (js "a%23b%3Fc%20d%2Fe") = Some (js "a#b?c d/e")
  /\ decodeURIComponent (js "%C3%A9%F0%9F%98%80") = Some [233; 55357; 56832]
  /\ decodeURIComponent (js "%C0%80") = None
  /\ decodeURIComponent (js "%ED%A0%80") = None
  /\ decodeURIComponent (js "%4") = None.
Proof. repeat split; reflexivity. Qed.

Example encodeURI_space :
  encodeURI (js "https://dav.example.com/remote/my img.png?token=a b")
  = Some (js "https://dav.example.com/remote/my%20img.png?token=a%20b").
Proof. reflexivity. Qed.

Example encodeURIComponent_reserved :
  encodeURIComponent (js "a#b?c d/e") = Some (js "a%23b%3Fc%20d%2Fe").
Proof. reflexivity. Qed.

(* U+00E9 and the surrogate pair of U+1F600 *)
Example encodeURIComponent_unicode :
  encodeURIComponent [233; 55357; 56832] = Some (js "%C3%A9%F0%9F%98%80").
Proof. reflexivity. Qed.

Example split_join_ex :
  split slash (js "/a//b/") = [js ""; js "a"; js ""; js "b"; js ""]
  /\ join [slash] (split slash (js "/a//b/")) = js "/a//b/"
  /\ replace_first_empty (js "ab") (js "xxabyyab") = js "xxyyab"
  /\ substring_to_last slash (js "/notes/img.png") = js "/notes"
  /\ substring_to_last slash (js "img.png") = js ""
  /\ Z_to_js 409 = js "409".
Proof. repeat split; reflexivity. Qed.

(** *** Reading the monad *)

Ltac run :=
  cbv beta iota zeta delta
    [bind ret throw diverge orThrow liftE try_catch request requestUrl
     handleResponseCode console_warn].

Lemma bind_returned {A B} (m : M A) (k : A -> M B) w a w' :
  m w = (Returned a, w') -> bind m k w = k a w'.
Proof. intros H. unfold bind. rewrite H. reflexivity. Qed.

Lemma bind_thrown {A B} (m : M A) (k : A -> M B) w e w' :
  m w = (Thrown e, w') -> bind m k w = (Thrown e, w').
Proof. intros H. unfold bind. rewrite H. reflexivity. Qed.

Lemma bind_out_of_fuel {A B} (m : M A) (k : A -> M B) w w' :
  m w = (OutOfFuel, w') -> bind m k w = (OutOfFuel, w').
Proof. intros H. unfold bind. rewrite H. reflexivity. Qed.

Lemma request_answer server c o w r :
  server (exchanges w) (requestOptions c o) = Answer r ->
  request server c o w = (Returned r, sent w (requestOptions c o) (Answer r)).
Proof.
  intros H. unfold request, requestUrl. rewrite H. reflexivity.
Qed.

Lemma request_failure server c o w e :
  server (exchanges w) (requestOptions c o) = NetworkFailure e ->
  request server c o w = (Thrown e, sent w (requestOptions c o) (NetworkFailure e)).
Proof.
  intros H. unfold request, requestUrl. rewrite H. reflexivity.
Qed.

(** *** exists *)

Section Exists.

Variable server : Server.
Variable c : WebDavClientInner.

Lemma exists_answer path e w r :
  encodePath path = Some e ->
  server (exchanges w) (headRequest c e) = Answer r ->
  exists_ server c path w =
    (if (status r =? 200)%Z then Returned true
     else if (status r =? 404)%Z then Returned false
     else if (400 <=? status r)%Z then
       Thrown (Error (Z_to_js (status r) ++ js " "
                      ++ default (js "Unknown error") (text r)))
     else Returned false,
     sent w (headRequest c e) (Answer r)).
Proof.
  intros He Hr. unfold exists_. rewrite He.
  rewrite (bind_returned _ _ w e w eq_refl).
  rewrite (bind_returned _ _ _ _ _ (request_answer _ _ _ _ _ Hr)).
  destruct (status r =? 200)%Z; [reflexivity|].
  destruct (status r =? 404)%Z; [reflexivity|].
  run. destruct (400 <=? status r)%Z; reflexivity.
Qed.

End Exists.

(** C10. When the HEAD request is answered with a status that is neither
    200 nor 404 and is below 400, [exists] returns false and does not
    throw; it throws exactly for the statuses of 400 and more other than
    404. *)
Theorem exists_false_below_400 server c path e w r :
  encodePath path = Some e ->
  server (exchanges w) (headRequest c e) = Answer r ->
  (status r <> 200 -> status r <> 404 -> status r < 400 ->
   fst (exists_ server c path w) = Returned false)%Z
  /\ ((exists err, fst (exists_ server c path w) = Thrown err)
      <-> (400 <= status r /\ status r <> 404)%Z).
Proof.
  intros He Hr. rewrite (exists_answer server c path e w r He Hr). simpl.
  destruct (Z.eqb_spec (status r) 200) as [E200|N200].
  { split; [intros; lia|]. split; [intros [err H]; discriminate | lia]. }
  destruct (Z.eqb_spec (status r) 404) as [E404|N404].
  { split; [intros; lia|]. split; [intros [err H]; discriminate | lia]. }
  destruct (Z.leb_spec 400 (status r)) as [Hge|Hlt].
  - split; [intros; lia|]. split; [intros _; lia | intros _; eauto].
  - split; [reflexivity|]. split; [intros [err H]; discriminate | lia].
Qed.

Lemma exists_false_below_400_witness :
  fst (exists_ (constantServer 204) davClient (js "/notes/img.png") emptyWorld)
  = Returned false.
Proof.
  refine (proj1 (exists_false_below_400 (constantServer 204) davClient
                   (js "/notes/img.png") (js "/notes/img.png") emptyWorld
                   (mkResponse 204 None []) _ _) _ _ _).
  - reflexivity.
  - reflexivity.
  - simpl; lia.
  - simpl; lia.
  - simpl; lia.
Defined.

(** *** moveFile *)

Section Move.

Variable server : Server.
Variable c : WebDavClientInner.

Lemma moveFile_checked fuel oldPath newPath eo en overwrite w w1 :
  encodePath oldPath = Some eo ->
  encodePath newPath = Some en ->
  checkPassed server c newPath overwrite w w1 ->
  moveFile server (S fuel) c oldPath newPath overwrite w =
  bind (request server c
          (mkOptions (buildUrl c eo) (js "MOVE")
             (Some (<[ js "Overwrite" := if overwrite then js "T" else js "F" ]>
                      {[ js "Destination" := buildUrl c en ]}))
             None))
       (fun response =>
          if includes [404; 409; 500]%Z (status response) then
            ensureDirectoryExists server c (substring_to_last slash newPath) ;;
            moveFile server fuel c oldPath newPath overwrite ;;
            ret tt
          else if (status response =? 412)%Z then
            throw (destinationExists newPath)
          else
            handleResponseCode response ;;
            ret tt) w1.
Proof.
  intros Ho Hn Hc. cbn [moveFile]. rewrite Ho, Hn.
  rewrite (bind_returned _ _ w eo w eq_refl).
  destruct overwrite; cbn [negb].
  - red in Hc. subst w1.
    rewrite (bind_returned _ _ w tt w eq_refl).
    rewrite (bind_returned _ _ w en w eq_refl). reflexivity.
  - red in Hc.
    erewrite (bind_returned (bind _ _) _ w tt w1).
    2:{ rewrite (bind_returned _ _ _ _ _ Hc). reflexivity. }
    rewrite (bind_returned _ _ w1 en w1 eq_refl). reflexivity.
Qed.

End Move.

(** C5. With [overwrite] false and a destination that the HEAD check finds
    (status 200), [moveFile] throws the destination-exists error and the
    HEAD request is the only one it sends, so no MOVE goes out; and when
    the MOVE does go out, with or without a check before it, a 412 answer
    makes [moveFile] throw the destination-exists error. *)
Theorem moveFile_destination_exists server c fuel oldPath newPath eo en w :
  encodePath oldPath = Some eo ->
  encodePath newPath = Some en ->
  (forall r,
     server (exchanges w) (headRequest c en) = Answer r ->
     status r = 200%Z ->
     exists w',
       moveFile server (S fuel) c oldPath newPath false w
       = (Thrown (destinationExists newPath), w')
       /\ exchanges w' = exchanges w ++ [(headRequest c en, Answer r)]
       /\ req_method (headRequest c en) = js "HEAD"
       /\ List.filter isMove (exchanges w') = List.filter isMove (exchanges w))
  /\ (forall overwrite w1 r,
        checkPassed server c newPath overwrite w w1 ->
        server (exchanges w1) (moveRequest c eo en overwrite) = Answer r ->
        status r = 412%Z ->
        fst (moveFile server (S fuel) c oldPath newPath overwrite w)
        = Thrown (destinationExists newPath)).
Proof.
  intros Ho Hn. split.
  - intros r Hr H200. eexists. split; [|split; [|split]].
    + pose proof (exists_answer server c newPath en w r Hn Hr) as Hex.
      rewrite H200 in Hex. cbn [Z.eqb Pos.eqb] in Hex.
      cbn [moveFile]. rewrite Ho.
      rewrite (bind_returned _ _ w eo w eq_refl). cbn [negb].
      erewrite (bind_thrown (bind _ _)); [reflexivity|].
      rewrite (bind_returned _ _ _ _ _ Hex). reflexivity.
    + reflexivity.
    + reflexivity.
    + simpl. rewrite List.filter_app. apply app_nil_r.
  - intros overwrite w1 r Hc Hr H412.
    rewrite (moveFile_checked server c fuel oldPath newPath eo en overwrite w w1
                              Ho Hn Hc).
    rewrite (bind_returned _ _ _ _ _ (request_answer _ _ _ _ _ Hr)).
    rewrite H412. reflexivity.
Qed.

Lemma moveFile_destination_exists_witness :
  fst (moveFile (constantServer 200) 1 davClient (js "/a.png") (js "/b.png")
                false emptyWorld)
  = Thrown (destinationExists (js "/b.png"))
  /\ fst (moveFile (scriptedServer [404; 412]%Z 500) 1 davClient (js "/a.png")
                   (js "/b.png") false emptyWorld)
     = Thrown (destinationExists (js "/b.png")).
Proof.
  split.
  - destruct (proj1 (moveFile_destination_exists (constantServer 200) davClient 0
                       (js "/a.png") (js "/b.png") (js "/a.png") (js "/b.png")
                       emptyWorld eq_refl eq_refl)
                    (mkResponse 200 None []) eq_refl eq_refl) as [w' [H _]].
    rewrite H. reflexivity.
  - refine (proj2 (moveFile_destination_exists (scriptedServer [404; 412]%Z 500)
                     davClient 0 (js "/a.png") (js "/b.png") (js "/a.png")
                     (js "/b.png") emptyWorld eq_refl eq_refl)
                  false
                  (sent emptyWorld (headRequest davClient (js "/b.png"))
                        (Answer (mkResponse 404 None [])))
                  (mkResponse 412 None []) _ _ _).
    + red. reflexivity.
    + reflexivity.
    + reflexivity.
Defined.

(** *** testConnection *)

Lemma encodePath_root : encodePath (js "/") = Some (js "/").
Proof. reflexivity. Qed.

Lemma customRequest_root server c method headers body w :
  customRequest server c (js "/") method (Some headers) body w
  = request server c (mkOptions (buildUrl c (js "/")) method (Some headers) body) w.
Proof. unfold customRequest. rewrite encodePath_root. reflexivity. Qed.

(** C8. [testConnection] always returns and never throws: it returns null
    exactly when the PROPFIND request is answered with status 207; any other
    answer gives the message with the status, and a network failure gives
    the text of the error that was thrown. *)
Theorem testConnection_never_throws server wc w :
  exists res w',
    testConnection server wc w = (Returned res, w')
    /\ (res = None <->
        exists r, server (exchanges w) (propfindRequest wc) = Answer r
                  /\ status r = 207%Z)
    /\ match server (exchanges w) (propfindRequest wc) with
       | Answer r =>
           if (status r =? 207)%Z then res = None
           else res = Some (js "Check connection failed: " ++ Z_to_js (status r))
       | NetworkFailure e => res = Some (error_toString e)
       end.
Proof.
  unfold testConnection, try_catch.
  destruct (server (exchanges w) (propfindRequest wc)) as [r|e] eqn:Hs.
  - rewrite (bind_returned _ _ _ _ _
               (eq_trans (customRequest_root _ _ _ _ _ _)
                         (request_answer _ _ _ _ _ Hs))).
    destruct (Z.eqb_spec (status r) 207) as [E|N].
    + do 2 eexists. split; [reflexivity|]. split; [|reflexivity].
      split; [intros _; eauto | reflexivity].
    + do 2 eexists. split; [reflexivity|]. split; [|reflexivity].
      split; [discriminate|]. intros [r' [Hr' H207]]. congruence.
  - rewrite (bind_thrown _ _ _ _ _
               (eq_trans (customRequest_root _ _ _ _ _ _)
                         (request_failure _ _ _ _ _ Hs))).
    do 2 eexists. split; [reflexivity|]. split; [|reflexivity].
    split; [discriminate|]. intros [r' [Hr' _]]. discriminate.
Qed.

(** *** uploadFile and putFileContents *)

(** After a 409 the value of the inner call is dropped: the outer call
    returns undefined, never true. *)
Lemma putFileContents_409_not_true server fuel c path e data w r v w' :
  encodePath path = Some e ->
  server (exchanges w) (putRequest c e data) = Answer r ->
  status r = 409%Z ->
  putFileContents server fuel c path data w = (Returned v, w') ->
  v = None.
Proof.
  intros He Hr H409. destruct fuel as [|fuel]; [discriminate|].
  cbn [putFileContents]. rewrite He.
  rewrite (bind_returned _ _ w e w eq_refl).
  rewrite (bind_returned _ _ _ _ _ (request_answer _ _ _ _ _ Hr)).
  rewrite H409. cbn [Z.eqb Pos.eqb].
  unfold bind at 1.
  destruct (ensureDirectoryExists _ _ _ _) as [[[]| |] w1]; try discriminate.
  unfold bind at 1.
  destruct (putFileContents _ _ _ _ _ _) as [[| |] w2]; try discriminate.
  unfold ret. congruence.
Qed.

(** Whenever the first PUT is answered with 409, [uploadFile] does not
    return a result, whatever the server does afterwards. *)
Lemma uploadFile_409_no_result server fuel wc file path e w r info w' :
  encodePath path = Some e ->
  server (exchanges w) (putRequest (client wc) e (file_arrayBuffer file)) = Answer r ->
  status r = 409%Z ->
  uploadFile server fuel wc file path w <> (Returned info, w').
Proof.
  intros He Hr H409 Hup. unfold uploadFile in Hup. unfold bind at 1 in Hup.
  destruct (putFileContents _ _ _ _ _ _) as [[v| |] w1] eqn:Hput; try discriminate.
  rewrite (putFileContents_409_not_true _ _ _ _ _ _ _ _ _ _ He Hr H409 Hput) in Hup.
  discriminate.
Qed.

(** With the parent directory in place one PUT is enough, no MKCOL is sent
    and [uploadFile] returns the file name and the URL. *)
Example uploadFile_existing_parent :
  let run := uploadFile (constantServer 201) 1 davWebDavClient imgFile
                        (js "/notes/img.png") emptyWorld in
  fst run = Returned (mkFileInfo (js "img.png")
                                 (js "https://dav.example.com/remote/notes/img.png"))
  /\ map summary (exchanges (snd run))
     = [ (js "PUT", js "https://dav.example.com/remote/notes/img.png", Some 201%Z) ].
Proof. split; vm_compute; reflexivity. Qed.

(** C2. The parent directory is missing: the PUT is answered with 409, the
    directory is created, the PUT is sent again and accepted with 201, and
    yet [uploadFile] throws the upload-failure error instead of returning
    the file name and the URL. *)
Theorem uploadFile_missing_parent_throws :
  let server := scriptedServer [409; 201; 201]%Z 500 in
  let run := uploadFile server 2 davWebDavClient imgFile (js "/notes/img.png")
                        emptyWorld in
  fst run = Thrown (Error (js "Failed to upload file: 'img.png'"))
  /\ map summary (exchanges (snd run))
     = [ (js "PUT", js "https://dav.example.com/remote/notes/img.png", Some 409%Z);
         (js "MKCOL", js "https://dav.example.com/remote/notes", Some 201%Z);
         (js "PUT", js "https://dav.example.com/remote/notes/img.png", Some 201%Z) ].
Proof. split; vm_compute; reflexivity. Qed.

(** *** What an operation adds to the record of exchanges *)

Section Appends.

Variable P : Request * Reply -> Prop.

Lemma appends_ret {A} (a : A) : appends P (ret a).
Proof. intros w. exists []. split; [symmetry; apply app_nil_r | constructor]. Qed.

Lemma appends_throw {A} e : appends P (@throw A e).
Proof. intros w. exists []. split; [symmetry; apply app_nil_r | constructor]. Qed.

Lemma appends_diverge {A} : appends P (@diverge A).
Proof. intros w. exists []. split; [symmetry; apply app_nil_r | constructor]. Qed.

Lemma appends_orThrow {A} e (o : option A) : appends P (orThrow e o).
Proof. destruct o; [apply appends_ret | apply appends_throw]. Qed.

Lemma appends_console_warn msg : appends P (console_warn msg).
Proof. intros w. exists []. split; [symmetry; apply app_nil_r | constructor]. Qed.

Lemma appends_handleResponseCode r : appends P (handleResponseCode r).
Proof.
  unfold handleResponseCode.
  destruct (400 <=? status r)%Z; [apply appends_throw | apply appends_ret].
Qed.

Lemma appends_bind {A B} (m : M A) (k : A -> M B) :
  appends P m -> (forall a, appends P (k a)) -> appends P (bind m k).
Proof.
  intros Hm Hk w. destruct (Hm w) as [new1 [E1 F1]].
  unfold bind. destruct (m w) as [[a|e|] w1]; simpl in E1.
  - destruct (Hk a w1) as [new2 [E2 F2]]. exists (new1 ++ new2).
    split; [rewrite E2, E1; symmetry; apply app_assoc | apply Forall_app; auto].
  - exists new1. auto.
  - exists new1. auto.
Qed.

Lemma appends_requestUrl server p :
  (forall reply, P (p, reply)) -> appends P (requestUrl server p).
Proof.
  intros HP w. exists [(p, server (exchanges w) p)]. split.
  - unfold requestUrl. destruct (server (exchanges w) p) as [r|e]; [|reflexivity].
    destruct (req_throw p && (400 <=? status r)%Z); reflexivity.
  - constructor; [apply HP | constructor].
Qed.

End Appends.

Ltac appends_step :=
  first
    [ apply appends_ret | apply appends_throw | apply appends_diverge
    | apply appends_orThrow | apply appends_console_warn
    | apply appends_handleResponseCode
    | apply appends_bind; [| intros ? ]
    | match goal with
      | |- appends _ (if ?b then _ else _) => destruct b
      end ].

(** *** The Authorization header *)

Section AuthorizationHeader.

Variable server : Server.
Variable c : WebDavClientInner.

(** The header that goes out: the caller's Authorization entry when there
    is one, the configured header otherwise. *)
Lemma requestOptions_authorization o :
  req_headers (requestOptions c o) !! Authorization
  = Some (default (authHeader c) (default ∅ (opt_headers o) !! Authorization)).
Proof.
  unfold requestOptions, spread_over_auth. simpl.
  destruct (default ∅ (opt_headers o) !! Authorization) as [v|] eqn:E.
  - simpl. apply lookup_union_Some_l. exact E.
  - simpl. rewrite lookup_union_r by exact E. apply lookup_singleton_eq.
Qed.

Lemma appends_request o :
  appends (sendsAuthorization
             (default (authHeader c) (default ∅ (opt_headers o) !! Authorization)))
          (request server c o).
Proof.
  apply appends_requestUrl. intros reply. apply requestOptions_authorization.
Qed.

Lemma appends_request_own o :
  default ∅ (opt_headers o) !! Authorization = None ->
  appends (sendsAuthorization (authHeader c)) (request server c o).
Proof.
  intros H. pose proof (appends_request o) as Ha. rewrite H in Ha. exact Ha.
Qed.

Ltac own_request := apply appends_request_own; vm_compute; reflexivity.

Lemma appends_createDirectory path :
  appends (sendsAuthorization (authHeader c)) (createDirectory server c path).
Proof. unfold createDirectory. repeat appends_step. own_request. Qed.

Lemma appends_ensureDirectories dirs : forall currentPath,
  appends (sendsAuthorization (authHeader c))
          (ensureDirectories server c currentPath dirs).
Proof.
  induction dirs as [|dir rest IH]; intros currentPath; cbn [ensureDirectories].
  - apply appends_ret.
  - apply appends_bind; [apply appends_createDirectory | intros response].
    apply appends_bind; [repeat appends_step | intros _; apply IH].
Qed.

Lemma appends_ensureDirectoryExists path :
  appends (sendsAuthorization (authHeader c)) (ensureDirectoryExists server c path).
Proof. apply appends_ensureDirectories. Qed.

Lemma appends_putFileContents fuel path data :
  appends (sendsAuthorization (authHeader c)) (putFileContents server fuel c path data).
Proof.
  induction fuel as [|fuel IH]; cbn [putFileContents]; [apply appends_diverge|].
  apply appends_bind; [appends_step | intros encodedPath].
  apply appends_bind; [own_request | intros response].
  destruct (status response =? 409)%Z.
  - apply appends_bind; [apply appends_ensureDirectoryExists | intros _].
    apply appends_bind; [apply IH | intros _; apply appends_ret].
  - repeat appends_step.
Qed.

Lemma appends_getFileContents path :
  appends (sendsAuthorization (authHeader c)) (getFileContents server c path).
Proof.
  unfold getFileContents.
  apply appends_bind; [appends_step | intros encodedPath].
  apply appends_bind; [own_request | intros response]. repeat appends_step.
Qed.

Lemma appends_exists path :
  appends (sendsAuthorization (authHeader c)) (exists_ server c path).
Proof.
  unfold exists_.
  apply appends_bind; [appends_step | intros encodedPath].
  apply appends_bind; [own_request | intros response]. repeat appends_step.
Qed.

Lemma appends_deleteFile path :
  appends (sendsAuthorization (authHeader c)) (deleteFile server c path).
Proof.
  unfold deleteFile.
  apply appends_bind; [appends_step | intros encodedPath].
  apply appends_bind; [own_request | intros response]. repeat appends_step.
Qed.

Lemma moveHeaders_no_authorization (newUrl : jsstring) (overwrite : bool) :
  (<[ js "Overwrite" := if overwrite then js "T" else js "F" ]>
     ({[ js "Destination" := newUrl ]} : gmap jsstring jsstring))
    !! Authorization = None.
Proof.
  rewrite lookup_insert_ne by (vm_compute; discriminate).
  apply lookup_singleton_ne. vm_compute; discriminate.
Qed.

Lemma appends_moveFile fuel oldPath newPath overwrite :
  appends (sendsAuthorization (authHeader c))
          (moveFile server fuel c oldPath newPath overwrite).
Proof.
  induction fuel as [|fuel IH]; cbn [moveFile]; [apply appends_diverge|].
  apply appends_bind; [appends_step | intros encodedOld].
  apply appends_bind.
  { destruct (negb overwrite); [|apply appends_ret].
    apply appends_bind; [apply appends_exists | intros found].
    destruct found; [apply appends_throw | apply appends_ret]. }
  intros _.
  apply appends_bind; [appends_step | intros encodedNew].
  apply appends_bind.
  { apply appends_request_own. apply moveHeaders_no_authorization. }
  intros response.
  destruct (includes _ _).
  - apply appends_bind; [apply appends_ensureDirectoryExists | intros _].
    apply appends_bind; [apply IH | intros _; apply appends_ret].
  - repeat appends_step.
Qed.

Lemma appends_customRequest path method headers body :
  appends (sendsAuthorization
             (default (authHeader c) (default ∅ headers !! Authorization)))
          (customRequest server c path method headers body).
Proof.
  unfold customRequest.
  apply appends_bind; [appends_step | intros encodedPath].
  pose proof (appends_request
                (mkOptions (buildUrl c encodedPath) method
                           (Some (default ∅ headers)) body)) as H.
  exact H.
Qed.

End AuthorizationHeader.

(** C3 (as amended). Every request the protocol client sends carries an
    Authorization header.  For the client's own operations it is the
    configured one; for [customRequest] it is the caller's Authorization
    entry when the caller supplies one, and the configured one otherwise. *)
Theorem authorization_header_sent server c :
  (forall path method headers body,
     appends (sendsAuthorization
                (default (authHeader c) (default ∅ headers !! Authorization)))
             (customRequest server c path method headers body))
  /\ (forall fuel path data,
        appends (sendsAuthorization (authHeader c))
                (putFileContents server fuel c path data))
  /\ (forall path,
        appends (sendsAuthorization (authHeader c)) (getFileContents server c path))
  /\ (forall fuel oldPath newPath overwrite,
        appends (sendsAuthorization (authHeader c))
                (moveFile server fuel c oldPath newPath overwrite))
  /\ (forall path,
        appends (sendsAuthorization (authHeader c)) (deleteFile server c path))
  /\ (forall path,
        appends (sendsAuthorization (authHeader c)) (createDirectory server c path))
  /\ (forall path,
        appends (sendsAuthorization (authHeader c)) (exists_ server c path))
  /\ (forall path,
        appends (sendsAuthorization (authHeader c))
                (ensureDirectoryExists server c path)).
Proof.
  repeat split; intros.
  - apply appends_customRequest.
  - apply appends_putFileContents.
  - apply appends_getFileContents.
  - apply appends_moveFile.
  - apply appends_deleteFile.
  - apply appends_createDirectory.
  - apply appends_exists.
  - apply appends_ensureDirectoryExists.
Qed.

(** C3 as stated fails: a caller of [customRequest] who passes an
    Authorization entry replaces the configured header on the wire. *)
Lemma customRequest_authorization_replaced :
  let run := customRequest (constantServer 200) davClient (js "/") (js "PROPFIND")
               (Some {[ Authorization := js "Bearer other" ]}) None emptyWorld in
  map (fun x => req_headers (fst x) !! Authorization) (exchanges (snd run))
  = [Some (js "Bearer other")]
  /\ Some (js "Bearer other") <> Some (authHeader davClient).
Proof. split; [vm_compute; reflexivity | discriminate]. Qed.

(** *** Retrying after a recoverable answer *)

Section Retry.

Variable server : Server.
Variable c : WebDavClientInner.
Variable verb : jsstring.
Variable recoverable : Z -> bool.

Lemma attempts_app a b :
  attempts verb (a ++ b) = (attempts verb a + attempts verb b)%nat.
Proof. unfold attempts. rewrite List.filter_app. apply length_app. Qed.

Lemma recovered_app a b :
  recovered verb recoverable (a ++ b)
  = (recovered verb recoverable a + recovered verb recoverable b)%nat.
Proof. unfold recovered. rewrite List.filter_app. apply length_app. Qed.

Lemma attempts_one x : isVerb verb x = true -> attempts verb [x] = 1%nat.
Proof. intros Hx. unfold attempts. simpl. rewrite Hx. reflexivity. Qed.

Lemma otherVerb_counts new :
  Forall (otherVerb verb) new ->
  attempts verb new = 0%nat /\ recovered verb recoverable new = 0%nat.
Proof.
  induction 1 as [|x new Hx _ [IHa IHr]]; [split; reflexivity|].
  unfold attempts, recovered, isRecoverable in *. simpl.
  red in Hx. rewrite Hx. simpl. auto.
Qed.

Lemma quiet_ret {A} (a : A) : quiet verb (ret a).
Proof. split; [apply appends_ret | discriminate]. Qed.

Lemma quiet_throw {A} e : quiet verb (@throw A e).
Proof. split; [apply appends_throw | discriminate]. Qed.

Lemma quiet_orThrow {A} e (o : option A) : quiet verb (orThrow e o).
Proof. destruct o; [apply quiet_ret | apply quiet_throw]. Qed.

Lemma quiet_console_warn msg : quiet verb (console_warn msg).
Proof. split; [apply appends_console_warn | discriminate]. Qed.

Lemma quiet_handleResponseCode r : quiet verb (handleResponseCode r).
Proof.
  unfold handleResponseCode.
  destruct (400 <=? status r)%Z; [apply quiet_throw | apply quiet_ret].
Qed.

Lemma quiet_bind {A B} (m : M A) (k : A -> M B) :
  quiet verb m -> (forall a, quiet verb (k a)) -> quiet verb (bind m k).
Proof.
  intros [Ha Hf] Hk. split.
  - apply appends_bind; [exact Ha | intros a; apply Hk].
  - intros w. unfold bind. specialize (Hf w).
    destruct (m w) as [[a|e|] w1]; simpl in *; [apply Hk | discriminate | congruence].
Qed.

Lemma quiet_request o :
  str_eqb (opt_method o) verb = false -> quiet verb (request server c o).
Proof.
  intros Hm. split.
  - apply appends_requestUrl. intros reply. exact Hm.
  - intros w. unfold request, requestUrl.
    destruct (server _ _) as [r|e]; simpl; discriminate.
Qed.

Lemma retries_diverge {A} : retries verb recoverable 0 (@diverge A).
Proof.
  intros w. exists []. split; [symmetry; apply app_nil_r|].
  split; [unfold attempts, recovered; simpl; lia|].
  split; [intros a Ha; discriminate | intros _; split; reflexivity].
Qed.

Lemma retries_quiet_bind {A B} fuel (m : M A) (k : A -> M B) :
  quiet verb m ->
  (forall a, retries verb recoverable fuel (k a)) ->
  retries verb recoverable fuel (bind m k).
Proof.
  intros [Ha Hf] Hk w. destruct (Ha w) as [new1 [E1 F1]].
  destruct (otherVerb_counts new1 F1) as [A1 R1].
  specialize (Hf w). unfold bind.
  destruct (m w) as [[a|e|] w1]; simpl in *.
  - destruct (Hk a w1) as [new2 [E2 [L2 [X2 O2]]]]. exists (new1 ++ new2).
    split; [rewrite E2, E1; symmetry; apply app_assoc|].
    rewrite attempts_app, recovered_app, A1, R1. simpl. auto.
  - exists new1. split; [exact E1|]. rewrite A1, R1.
    split; [lia|]. split; [intros b Hb; discriminate | discriminate].
  - congruence.
Qed.

Lemma retries_bind_quiet {A B} fuel (m : M A) (k : A -> M B) :
  retries verb recoverable fuel m ->
  (forall a, quiet verb (k a)) ->
  retries verb recoverable fuel (bind m k).
Proof.
  intros Hm Hk w. destruct (Hm w) as [new1 [E1 [L1 [X1 O1]]]]. unfold bind.
  destruct (m w) as [[a|e|] w1]; simpl in *.
  - destruct (Hk a) as [Ha Hf]. destruct (Ha w1) as [new2 [E2 F2]].
    destruct (otherVerb_counts new2 F2) as [A2 R2]. exists (new1 ++ new2).
    split; [rewrite E2, E1; symmetry; apply app_assoc|].
    rewrite attempts_app, recovered_app, A2, R2, !Nat.add_0_r.
    split; [exact L1|].
    split; [intros b _; exact (X1 a eq_refl) | intros Ho; elim (Hf w1 Ho)].
  - exists new1. split; [exact E1|]. split; [exact L1|].
    split; [intros b Hb; discriminate | discriminate].
  - exists new1. split; [exact E1|]. split; [exact L1|].
    split; [intros b Hb; discriminate | intros _; exact (O1 eq_refl)].
Qed.

(** One attempt: a recoverable answer leaves [fuel] further rounds, any
    other answer ends the operation. *)
Lemma retries_attempt {A} fuel o (k : Response -> M A) :
  str_eqb (opt_method o) verb = true ->
  (forall r, recoverable (status r) = true -> retries verb recoverable fuel (k r)) ->
  (forall r, recoverable (status r) = false -> quiet verb (k r)) ->
  retries verb recoverable (S fuel) (bind (request server c o) k).
Proof.
  intros Hm Hrec Hend w.
  destruct (server (exchanges w) (requestOptions c o)) as [r|e] eqn:Hs.
  - rewrite (bind_returned _ _ _ _ _ (request_answer _ _ _ _ _ Hs)).
    set (x := (requestOptions c o, Answer r)).
    assert (Hx : isVerb verb x = true) by exact Hm.
    destruct (recoverable (status r)) eqn:Hr.
    + destruct (Hrec r Hr (sent w (requestOptions c o) (Answer r)))
        as [new [E [L [X O]]]].
      exists ([x] ++ new).
      split; [rewrite E; simpl; rewrite <- app_assoc; reflexivity|].
      rewrite attempts_app, recovered_app.
      rewrite (attempts_one x Hx).
      assert (recovered verb recoverable [x] = 1%nat) as ->
        by (unfold recovered, isRecoverable; simpl; rewrite Hx; simpl;
            rewrite Hr; reflexivity).
      split; [lia|]. split.
      * intros a Ha. rewrite (X a Ha). reflexivity.
      * intros Ho. destruct (O Ho). lia.
    + destruct (Hend r Hr) as [Ha Hf].
      destruct (Ha (sent w (requestOptions c o) (Answer r))) as [new [E F]].
      destruct (otherVerb_counts new F) as [A0 R0].
      exists ([x] ++ new).
      split; [rewrite E; simpl; rewrite <- app_assoc; reflexivity|].
      rewrite attempts_app, recovered_app, A0, R0.
      rewrite (attempts_one x Hx).
      assert (recovered verb recoverable [x] = 0%nat) as ->
        by (unfold recovered, isRecoverable; simpl; rewrite Hx; simpl;
            rewrite Hr; reflexivity).
      split; [lia|]. split; [intros a _; reflexivity | intros Ho; elim (Hf _ Ho)].
  - rewrite (bind_thrown _ _ _ _ _ (request_failure _ _ _ _ _ Hs)).
    set (x := (requestOptions c o, NetworkFailure e)).
    assert (Hx : isVerb verb x = true) by exact Hm.
    exists [x]. split; [reflexivity|].
    rewrite (attempts_one x Hx).
    split; [lia|]. split; [intros a Ha; discriminate | discriminate].
Qed.

End Retry.

Section RetryOperations.

Variable server : Server.
Variable c : WebDavClientInner.
Variable verb : jsstring.

Ltac quiet_step :=
  first
    [ apply quiet_ret | apply quiet_throw | apply quiet_orThrow
    | apply quiet_console_warn | apply quiet_handleResponseCode
    | apply quiet_bind; [| intros ? ]
    | match goal with
      | |- quiet _ (if ?b then _ else _) => destruct b
      end ].

Lemma quiet_createDirectory path :
  str_eqb (js "MKCOL") verb = false ->
  quiet verb (createDirectory server c path).
Proof.
  intros Hv. unfold createDirectory.
  apply quiet_bind; [apply quiet_orThrow | intros e]. apply quiet_request. exact Hv.
Qed.

Lemma quiet_ensureDirectories dirs : forall currentPath,
  str_eqb (js "MKCOL") verb = false ->
  quiet verb (ensureDirectories server c currentPath dirs).
Proof.
  induction dirs as [|dir rest IH]; intros currentPath Hv; cbn [ensureDirectories].
  - apply quiet_ret.
  - apply quiet_bind; [apply quiet_createDirectory; exact Hv | intros response].
    apply quiet_bind; [repeat quiet_step | intros _; apply IH; exact Hv].
Qed.

Lemma quiet_ensureDirectoryExists path :
  str_eqb (js "MKCOL") verb = false ->
  quiet verb (ensureDirectoryExists server c path).
Proof. apply quiet_ensureDirectories. Qed.

Lemma quiet_exists path :
  str_eqb (js "HEAD") verb = false ->
  quiet verb (exists_ server c path).
Proof.
  intros Hv. unfold exists_.
  apply quiet_bind; [apply quiet_orThrow | intros e].
  apply quiet_bind; [apply quiet_request; exact Hv | intros response].
  repeat quiet_step.
Qed.

End RetryOperations.

Lemma retries_putFileContents server c path data fuel :
  retries (js "PUT") is409 fuel (putFileContents server fuel c path data).
Proof.
  induction fuel as [|fuel IH]; cbn [putFileContents]; [apply retries_diverge|].
  apply retries_quiet_bind; [apply quiet_orThrow | intros e].
  apply retries_attempt; [reflexivity | |]; intros r Hr; unfold is409 in Hr; rewrite Hr.
  - apply retries_quiet_bind;
      [apply quiet_ensureDirectoryExists; reflexivity | intros _].
    apply retries_bind_quiet; [exact IH | intros _; apply quiet_ret].
  - apply quiet_bind; [apply quiet_handleResponseCode | intros _; apply quiet_ret].
Qed.

Lemma retries_moveFile server c oldPath newPath overwrite fuel :
  retries (js "MOVE") (includes [404; 409; 500]%Z) fuel
          (moveFile server fuel c oldPath newPath overwrite).
Proof.
  induction fuel as [|fuel IH]; cbn [moveFile]; [apply retries_diverge|].
  apply retries_quiet_bind; [apply quiet_orThrow | intros eo].
  apply retries_quiet_bind.
  { destruct (negb overwrite); [|apply quiet_ret].
    apply quiet_bind; [apply quiet_exists; reflexivity | intros found].
    destruct found; [apply quiet_throw | apply quiet_ret]. }
  intros _.
  apply retries_quiet_bind; [apply quiet_orThrow | intros en].
  apply retries_attempt; [reflexivity | |]; intros r Hr; rewrite Hr.
  - apply retries_quiet_bind;
      [apply quiet_ensureDirectoryExists; reflexivity | intros _].
    apply retries_bind_quiet; [exact IH | intros _; apply quiet_ret].
  - destruct (status r =? 412)%Z; [apply quiet_throw|].
    apply quiet_bind; [apply quiet_handleResponseCode | intros _; apply quiet_ret].
Qed.

(** One round of [putFileContents]: what the reply to the PUT leads to. *)
Lemma putFileContents_round server c fuel path data e w :
  encodePath path = Some e ->
  putFileContents server (S fuel) c path data w
  = match server (exchanges w) (putRequest c e data) with
    | Answer r =>
        (if (status r =? 409)%Z then
           ensureDirectoryExists server c (substring_to_last slash path) ;;
           putFileContents server fuel c path data ;;
           ret None
         else
           handleResponseCode r ;;
           ret (Some true))
          (sent w (putRequest c e data) (Answer r))
    | NetworkFailure err =>
        (Thrown err, sent w (putRequest c e data) (NetworkFailure err))
    end.
Proof.
  intros He. cbn [putFileContents]. rewrite He.
  rewrite (bind_returned _ _ w e w eq_refl).
  destruct (server (exchanges w) (putRequest c e data)) as [r | err] eqn:Hs.
  - rewrite (bind_returned _ _ _ _ _ (request_answer _ _ _ _ _ Hs)). reflexivity.
  - rewrite (bind_thrown _ _ _ _ _ (request_failure _ _ _ _ _ Hs)). reflexivity.
Qed.

(** One round of [moveFile], once the destination check is behind it. *)
Lemma moveFile_round server c fuel oldPath newPath overwrite eo en w w1 :
  encodePath oldPath = Some eo ->
  encodePath newPath = Some en ->
  checkPassed server c newPath overwrite w w1 ->
  moveFile server (S fuel) c oldPath newPath overwrite w
  = match server (exchanges w1) (moveRequest c eo en overwrite) with
    | Answer r =>
        (if includes [404; 409; 500]%Z (status r) then
           ensureDirectoryExists server c (substring_to_last slash newPath) ;;
           moveFile server fuel c oldPath newPath overwrite ;;
           ret tt
         else if (status r =? 412)%Z then
           throw (destinationExists newPath)
         else
           handleResponseCode r ;;
           ret tt)
          (sent w1 (moveRequest c eo en overwrite) (Answer r))
    | NetworkFailure err =>
        (Thrown err, sent w1 (moveRequest c eo en overwrite) (NetworkFailure err))
    end.
Proof.
  intros Ho Hn Hc.
  rewrite (moveFile_checked server c fuel oldPath newPath eo en overwrite w w1
             Ho Hn Hc).
  destruct (server (exchanges w1) (moveRequest c eo en overwrite)) as [r | err] eqn:Hs.
  - rewrite (bind_returned _ _ _ _ _ (request_answer _ _ _ _ _ Hs)). reflexivity.
  - rewrite (bind_thrown _ _ _ _ _ (request_failure _ _ _ _ _ Hs)). reflexivity.
Qed.

(** Against a server that answers every PUT with 409, with directory
    passes that return, no budget of nested calls is enough. *)
Lemma putFileContents_never_ends server c path data e :
  encodePath path = Some e ->
  alwaysRecoverable server (putRequest c e data) is409 ->
  alwaysReturns (ensureDirectoryExists server c (substring_to_last slash path)) ->
  forall fuel w, fst (putFileContents server fuel c path data w) = OutOfFuel.
Proof.
  intros He Hs Hd fuel. induction fuel as [|fuel IH]; intros w; [reflexivity|].
  rewrite (putFileContents_round server c fuel path data e w He).
  destruct (Hs (exchanges w)) as (r & Hr & H409). rewrite Hr.
  unfold is409 in H409. rewrite H409.
  destruct (Hd (sent w (putRequest c e data) (Answer r))) as (a & w' & Hrun).
  rewrite (bind_returned _ _ _ _ _ Hrun).
  specialize (IH w'). unfold bind.
  destruct (putFileContents server fuel c path data w') as [[v | err |] w''];
    cbn [fst] in IH; try discriminate. reflexivity.
Qed.

Lemma moveFile_never_ends server c oldPath newPath overwrite eo en :
  encodePath oldPath = Some eo ->
  encodePath newPath = Some en ->
  (forall w, exists w1, checkPassed server c newPath overwrite w w1) ->
  alwaysRecoverable server (moveRequest c eo en overwrite)
                    (includes [404; 409; 500]%Z) ->
  alwaysReturns (ensureDirectoryExists server c (substring_to_last slash newPath)) ->
  forall fuel w, fst (moveFile server fuel c oldPath newPath overwrite w) = OutOfFuel.
Proof.
  intros Ho Hn Hc Hs Hd fuel. induction fuel as [|fuel IH]; intros w; [reflexivity|].
  destruct (Hc w) as (w1 & Hw1).
  rewrite (moveFile_round server c fuel oldPath newPath overwrite eo en w w1
             Ho Hn Hw1).
  destruct (Hs (exchanges w1)) as (r & Hr & Hrec). rewrite Hr, Hrec.
  destruct (Hd (sent w1 (moveRequest c eo en overwrite) (Answer r)))
    as (a & w' & Hrun).
  rewrite (bind_returned _ _ _ _ _ Hrun).
  specialize (IH w'). unfold bind.
  destruct (moveFile server fuel c oldPath newPath overwrite w') as [[v | err |] w''];
    cbn [fst] in IH; try discriminate. reflexivity.
Qed.

(** C4 (as amended). The recovery is not limited to one retry.  Whatever
    the server, the path and the budget of nested calls:
    - a 409 answer to the PUT, and a 404, 409 or 500 answer to the MOVE, is
      followed by one directory pass and then by the whole operation again,
      with no count of the rounds; any other answer and a failed request end
      the operation without a further request;
    - so the verb is sent at most once more than the number of such answers
      received, exactly once more when the operation returns, and when a
      budget of [fuel] nested calls is used up each of the [fuel] attempts
      made was answered with such a status;
    - and against a server that answers every attempt with such a status,
      with directory passes that return and a destination check that
      passes, the operation does not end: with a budget of [fuel] nested
      calls it is still running after sending the verb [fuel] times. *)
Theorem retry_follows_recoverable_answers server c fuel :
  (forall path data,
     retries (js "PUT") is409 fuel (putFileContents server fuel c path data))
  /\ (forall oldPath newPath overwrite,
        retries (js "MOVE") (includes [404; 409; 500]%Z) fuel
                (moveFile server fuel c oldPath newPath overwrite))
  /\ (forall path data e w,
        encodePath path = Some e ->
        putFileContents server (S fuel) c path data w
        = match server (exchanges w) (putRequest c e data) with
          | Answer r =>
              (if (status r =? 409)%Z then
                 ensureDirectoryExists server c (substring_to_last slash path) ;;
                 putFileContents server fuel c path data ;;
                 ret None
               else
                 handleResponseCode r ;;
                 ret (Some true))
                (sent w (putRequest c e data) (Answer r))
          | NetworkFailure err =>
              (Thrown err, sent w (putRequest c e data) (NetworkFailure err))
          end)
  /\ (forall oldPath newPath overwrite eo en w w1,
        encodePath oldPath = Some eo ->
        encodePath newPath = Some en ->
        checkPassed server c newPath overwrite w w1 ->
        moveFile server (S fuel) c oldPath newPath overwrite w
        = match server (exchanges w1) (moveRequest c eo en overwrite) with
          | Answer r =>
              (if includes [404; 409; 500]%Z (status r) then
                 ensureDirectoryExists server c (substring_to_last slash newPath) ;;
                 moveFile server fuel c oldPath newPath overwrite ;;
                 ret tt
               else if (status r =? 412)%Z then
                 throw (destinationExists newPath)
               else
                 handleResponseCode r ;;
                 ret tt)
                (sent w1 (moveRequest c eo en overwrite) (Answer r))
          | NetworkFailure err =>
              (Thrown err,
               sent w1 (moveRequest c eo en overwrite) (NetworkFailure err))
          end)
  /\ (forall path data e w,
        encodePath path = Some e ->
        alwaysRecoverable server (putRequest c e data) is409 ->
        alwaysReturns
          (ensureDirectoryExists server c (substring_to_last slash path)) ->
        runsOut (js "PUT") fuel (putFileContents server fuel c path data) w)
  /\ (forall oldPath newPath overwrite eo en w,
        encodePath oldPath = Some eo ->
        encodePath newPath = Some en ->
        (forall w0, exists w1, checkPassed server c newPath overwrite w0 w1) ->
        alwaysRecoverable server (moveRequest c eo en overwrite)
                          (includes [404; 409; 500]%Z) ->
        alwaysReturns
          (ensureDirectoryExists server c (substring_to_last slash newPath)) ->
        runsOut (js "MOVE") fuel
                (moveFile server fuel c oldPath newPath overwrite) w).
Proof.
  split; [intros; apply retries_putFileContents|].
  split; [intros; apply retries_moveFile|].
  split; [intros; apply putFileContents_round; assumption|].
  split; [intros; apply moveFile_round; assumption|].
  split.
  - intros path data e w He Hs Hd.
    pose proof (putFileContents_never_ends server c path data e He Hs Hd fuel w)
      as Hout.
    destruct (retries_putFileContents server c path data fuel w)
      as (new & E & _ & _ & O).
    exists new. split; [exact Hout|]. split; [exact E|]. apply O. exact Hout.
  - intros oldPath newPath overwrite eo en w Ho Hn Hc Hs Hd.
    pose proof (moveFile_never_ends server c oldPath newPath overwrite eo en
                  Ho Hn Hc Hs Hd fuel w) as Hout.
    destruct (retries_moveFile server c oldPath newPath overwrite fuel w)
      as (new & E & _ & _ & O).
    exists new. split; [exact Hout|]. split; [exact E|]. apply O. exact Hout.
Qed.

Lemma retry_follows_recoverable_answers_witness :
  putFileContents (constantServer 409) 4 davClient (js "/notes/img.png")
                  (js "data") emptyWorld
  = (ensureDirectoryExists (constantServer 409) davClient (js "/notes") ;;
     putFileContents (constantServer 409) 3 davClient (js "/notes/img.png")
                     (js "data") ;;
     ret None)
      (sent emptyWorld (putRequest davClient (js "/notes/img.png") (js "data"))
            (statusReply 409))
  /\ moveFile (constantServer 409) 4 davClient (js "/a.png") (js "/b.png") true
              emptyWorld
     = (ensureDirectoryExists (constantServer 409) davClient [] ;;
        moveFile (constantServer 409) 3 davClient (js "/a.png") (js "/b.png") true ;;
        ret tt)
         (sent emptyWorld
               (moveRequest davClient (js "/a.png") (js "/b.png") true)
               (statusReply 409))
  /\ runsOut (js "PUT") 3
             (putFileContents (constantServer 409) 3 davClient
                              (js "/notes/img.png") (js "data")) emptyWorld
  /\ runsOut (js "MOVE") 3
             (moveFile (constantServer 409) 3 davClient (js "/a.png")
                       (js "/b.png") true) emptyWorld.
Proof.
  destruct (retry_follows_recoverable_answers (constantServer 409) davClient 3)
    as (_ & _ & Hput1 & Hmove1 & Hput & Hmove).
  split; [|split; [|split]].
  - rewrite (Hput1 (js "/notes/img.png") (js "data") (js "/notes/img.png")
                   emptyWorld eq_refl).
    reflexivity.
  - rewrite (Hmove1 (js "/a.png") (js "/b.png") true (js "/a.png") (js "/b.png")
                    emptyWorld emptyWorld eq_refl eq_refl eq_refl).
    reflexivity.
  - apply (Hput (js "/notes/img.png") (js "data") (js "/notes/img.png")).
    + reflexivity.
    + intros history. eexists. split; reflexivity.
    + intros w. eexists _, _. unfold ensureDirectoryExists.
      change (substring_to_last slash (js "/notes/img.png")) with (js "/notes").
      change (List.filter _ (split slash (js "/notes"))) with [js "notes"].
      cbn [ensureDirectories]. unfold createDirectory.
      change (encodePath ([] ++ js "/" ++ js "notes")) with (Some (js "/notes")).
      erewrite bind_returned;
        [|erewrite bind_returned; [|reflexivity]; apply request_answer; reflexivity].
      erewrite bind_returned; [|reflexivity].
      reflexivity.
  - apply (Hmove (js "/a.png") (js "/b.png") true (js "/a.png") (js "/b.png")).
    + reflexivity.
    + reflexivity.
    + intros w0. exists w0. reflexivity.
    + intros history. eexists. split; reflexivity.
    + intros w. exists tt, w. reflexivity.
Defined.

Lemma putFileContents_always_409 fuel : forall w,
  fst (putFileContents (constantServer 409) fuel davClient (js "/img.png")
                       (js "data") w) = OutOfFuel.
Proof.
  induction fuel as [|fuel IH]; intros w; [reflexivity|].
  cbn [putFileContents].
  change (encodePath (js "/img.png")) with (Some (js "/img.png")).
  rewrite (bind_returned _ _ w (js "/img.png") w eq_refl).
  erewrite bind_returned; [|apply request_answer; reflexivity].
  cbn [status Z.eqb Pos.eqb].
  change (ensureDirectoryExists (constantServer 409) davClient
            (substring_to_last slash (js "/img.png"))) with (@ret unit tt).
  erewrite bind_returned; [|reflexivity].
  unfold bind. specialize (IH (sent w (putRequest davClient (js "/img.png") (js "data"))
                                    (Answer (mkResponse 409 None [])))).
  unfold putRequest in IH.
  destruct (putFileContents _ _ _ _ _ _) as [[v|e|] w']; simpl in IH;
    try discriminate. reflexivity.
Qed.

(** C4 as stated fails: answered with 409 twice, the PUT goes out three
    times; and against a server that answers 409 to everything the
    operation is still running after any number of nested calls. *)
Lemma putFileContents_retries_twice :
  (let run := putFileContents (scriptedServer [409; 201; 409; 405; 201]%Z 500) 3
                davClient (js "/notes/img.png") (js "data") emptyWorld in
   fst run = Returned None
   /\ attempts (js "PUT") (exchanges (snd run)) = 3%nat)
  /\ (forall fuel,
        fst (putFileContents (constantServer 409) fuel davClient (js "/img.png")
                             (js "data") emptyWorld) = OutOfFuel).
Proof.
  split; [split; vm_compute; reflexivity|].
  intros fuel. apply putFileContents_always_409.
Qed.

(** *** The image loader and the blob cache *)

Ltac step := erewrite bind_returned; [| reflexivity ].

Ltac world_eq :=
  unfold blobs_set, blobs_delete, images_add, images_clear, setAttribute, set_src,
         element, set_elements, set_objectUrls, set_exchanges, set_blobs, set_images;
  cbn [exchanges warnings elements darkTheme objectUrls createdBlobs blobs images
       src attributes onload_revokes];
  rewrite ?lookup_insert_eq;
  cbn [default from_option id src attributes onload_revokes];
  rewrite ?insert_insert_eq.

Section Loader.

Variable server : Server.
Variable getToken : option jsstring -> jsstring -> jsstring.
Variable isWebdavUrl : jsstring -> bool.
Variable s : Settings.

Lemma shouldLoadImage_true el U w :
  loadable isWebdavUrl w el U -> shouldLoadImage isWebdavUrl el w = (Returned true, w).
Proof.
  intros (Hsrc & HU & Hweb & Hattr). unfold shouldLoadImage.
  step. step. unfold ret. rewrite Hsrc, Hweb.
  rewrite bool_decide_eq_false_2 by exact Hattr.
  unfold str_eqb. rewrite bool_decide_eq_false_2 by exact HU. reflexivity.
Qed.

Lemma loadImage_fetch el U pd r w :
  loadable isWebdavUrl w el U ->
  blobs w !! U = None ->
  atob (String_ (password s)) = Some pd ->
  server (exchanges w) (fetchRequest getToken s U pd) = Answer r ->
  (status r < 400)%Z ->
  loadImage server getToken isWebdavUrl s el true w
  = (Returned tt, afterFetch getToken s el U pd r w).
Proof.
  intros Hl Hblob Hpd Hs Hst. unfold loadImage.
  rewrite (bind_returned _ _ _ _ _ (shouldLoadImage_true el U w Hl)).
  destruct Hl as (Hsrc & _). cbn [negb].
  step. rewrite Hsrc. step. cbn [blobs]. rewrite Hblob.
  step. step. rewrite Hpd. step.
  erewrite bind_returned.
  2:{ unfold requestUrl. cbn [exchanges set_elements].
      fold (fetchRequest getToken s U pd).
      rewrite Hs. cbn [req_throw fetchRequest].
      rewrite (proj2 (Z.leb_gt 400 (status r)) Hst). reflexivity. }
  step. step. step. step.
  unfold afterFetch, assigned, objectUrl. world_eq. reflexivity.
Qed.

Lemma loadImage_cached el U b cache w :
  loadable isWebdavUrl w el U ->
  blobs w !! U = Some b ->
  loadImage server getToken isWebdavUrl s el cache w
  = (Returned tt, afterCacheHit el b w).
Proof.
  intros Hl Hblob. unfold loadImage.
  rewrite (bind_returned _ _ _ _ _ (shouldLoadImage_true el U w Hl)).
  destruct Hl as (Hsrc & _). cbn [negb].
  step. rewrite Hsrc. step. cbn [blobs]. rewrite Hblob.
  step. unfold afterCacheHit, assigned. world_eq. reflexivity.
Qed.

End Loader.

Lemma elem_of_snoc (l : list nat) x : x ∈ l ++ [x].
Proof. apply elem_of_app. right. apply list_elem_of_singleton. reflexivity. Qed.

Lemma not_elem_of_snoc (l : list nat) x y : x ∉ l -> y <> x -> x ∉ l ++ [y].
Proof.
  intros Hl Hne. apply not_elem_of_app. split; [exact Hl|].
  intros H%list_elem_of_singleton. congruence.
Qed.

(** C6. Two elements that show the same remote URL are loaded one after
    the other through the controller, the first fetch succeeding: exactly
    one request goes out, one object URL is created, the cache holds that
    one handle for the URL, and both elements end up showing it. *)
Theorem same_url_fetched_once server getToken isWebdavUrl s el1 el2 U pd r w :
  loadable isWebdavUrl w el1 U ->
  loadable isWebdavUrl w el2 U ->
  el1 ∉ images w ->
  el2 ∉ images w ->
  blobs w !! U = None ->
  atob (String_ (password s)) = Some pd ->
  server (exchanges w) (fetchRequest getToken s U pd) = Answer r ->
  (status r < 400)%Z ->
  exists w',
    (extension_loadImage server getToken isWebdavUrl s el1 ;;
     extension_loadImage server getToken isWebdavUrl s el2) w
    = (Returned tt, w')
    /\ exchanges w' = exchanges w ++ [(fetchRequest getToken s U pd, Answer r)]
    /\ createdBlobs w' = S (createdBlobs w)
    /\ blobs w' = <[ U := objectUrl (createdBlobs w) ]> (blobs w)
    /\ src (element w' el1) = objectUrl (createdBlobs w)
    /\ src (element w' el2) = objectUrl (createdBlobs w)
    /\ el1 ∈ images w' /\ el2 ∈ images w'.
Proof.
  intros L1 L2 I1 I2 Hblob Hpd Hs Hst.
  set (b := objectUrl (createdBlobs w)).
  set (w1 := set_images (afterFetch getToken s el1 U pd r w) (images w ++ [el1])).
  assert (H1 : extension_loadImage server getToken isWebdavUrl s el1 w
               = (Returned tt, w1)).
  { unfold extension_loadImage. step.
    rewrite bool_decide_eq_false_2 by exact I1.
    rewrite (bind_returned _ _ _ _ _
               (loadImage_fetch server getToken isWebdavUrl s el1 U pd r w
                                L1 Hblob Hpd Hs Hst)).
    unfold images_add. cbn [images afterFetch].
    rewrite bool_decide_eq_false_2 by exact I1. reflexivity. }
  rewrite (bind_returned _ _ _ _ _ H1).
  destruct (decide (el1 = el2)) as [<-|Hne].
  - exists w1. split.
    + unfold extension_loadImage. step.
      rewrite bool_decide_eq_true_2; [reflexivity|].
      subst w1. cbn [images set_images]. apply elem_of_snoc.
    + subst w1. cbn. unfold element. cbn. rewrite lookup_insert_eq. cbn.
      repeat split; try reflexivity; apply elem_of_snoc.
  - assert (L2' : loadable isWebdavUrl w1 el2 U).
    { destruct L2 as (Hsrc & HU & Hweb & Hattr).
      assert (E : element w1 el2 = element w el2).
      { subst w1. unfold element. cbn. rewrite lookup_insert_ne by exact Hne.
        reflexivity. }
      unfold loadable. rewrite E. auto. }
    assert (I2' : el2 ∉ images w1).
    { subst w1. cbn [images set_images]. apply not_elem_of_snoc; assumption. }
    assert (B1 : blobs w1 !! U = Some b).
    { subst w1. cbn. apply lookup_insert_eq. }
    exists (set_images (afterCacheHit el2 b w1) (images w1 ++ [el2])). split.
    + unfold extension_loadImage. step.
      rewrite bool_decide_eq_false_2 by exact I2'.
      rewrite (bind_returned _ _ _ _ _
                 (loadImage_cached server getToken isWebdavUrl s el2 U b true w1
                                   L2' B1)).
      unfold images_add. cbn [images afterCacheHit set_elements].
      rewrite bool_decide_eq_false_2 by exact I2'. reflexivity.
    + subst w1. cbn. unfold element. cbn.
      rewrite lookup_insert_eq. rewrite lookup_insert_ne by (intros E; apply Hne; auto).
      rewrite lookup_insert_eq. cbn.
      repeat split; try reflexivity;
        [apply elem_of_app; left; apply elem_of_snoc | apply elem_of_snoc].
Qed.

Lemma same_url_fetched_once_witness :
  exists w',
    (extension_loadImage (constantServer 200) specGetToken (specIsWebdavUrl davSettings)
                         davSettings 0 ;;
     extension_loadImage (constantServer 200) specGetToken (specIsWebdavUrl davSettings)
                         davSettings 1) twoImages
    = (Returned tt, w')
    /\ length (exchanges w') = 1%nat
    /\ blobs w' !! imageUrl = Some (js "blob:0")
    /\ src (element w' 0) = js "blob:0"
    /\ src (element w' 1) = js "blob:0".
Proof.
  destruct (same_url_fetched_once (constantServer 200) specGetToken
              (specIsWebdavUrl davSettings) davSettings 0 1 imageUrl (js "pass")
              (mkResponse 200 None []) twoImages)
    as (w' & Hrun & Hex & _ & Hb & Hs0 & Hs1 & _).
  - repeat split; [discriminate | vm_compute; discriminate].
  - repeat split; [discriminate | vm_compute; discriminate].
  - apply not_elem_of_nil.
  - apply not_elem_of_nil.
  - reflexivity.
  - reflexivity.
  - reflexivity.
  - simpl; lia.
  - exists w'. split; [exact Hrun|]. split; [rewrite Hex; reflexivity|].
    split; [rewrite Hb; apply lookup_insert_eq|]. split; assumption.
Defined.

(** *** Teardown *)

(** Nothing is released for an element whose current source does not key
    the cache. *)
Lemma revokeImage_miss el w :
  blobs w !! src (element w el) = None -> revokeImage el w = (Returned tt, w).
Proof.
  intros H. unfold revokeImage. step. step. cbn [blobs]. rewrite H. reflexivity.
Qed.

(** Whatever the server and the document: an element that was loaded by a
    fetch keeps its cache entry and its object URL through the teardown,
    because its source no longer is the key of the entry. *)
Lemma destroy_after_fetch server getToken isWebdavUrl s el U pd r w :
  loadable isWebdavUrl w el U ->
  images w = [] ->
  blobs w !! U = None ->
  blobs w !! objectUrl (createdBlobs w) = None ->
  objectUrl (createdBlobs w) <> U ->
  atob (String_ (password s)) = Some pd ->
  server (exchanges w) (fetchRequest getToken s U pd) = Answer r ->
  (status r < 400)%Z ->
  exists w',
    (extension_loadImage server getToken isWebdavUrl s el ;; extension_destroy) w
    = (Returned tt, w')
    /\ images w' = []
    /\ blobs w' !! U = Some (objectUrl (createdBlobs w))
    /\ objectUrls w' = objectUrls w ++ [objectUrl (createdBlobs w)].
Proof.
  intros Hl Himg Hblob Hfresh Hne Hpd Hs Hst.
  set (b := objectUrl (createdBlobs w)) in *.
  set (w1 := set_images (afterFetch getToken s el U pd r w) [el]).
  assert (H1 : extension_loadImage server getToken isWebdavUrl s el w
               = (Returned tt, w1)).
  { unfold extension_loadImage. step. rewrite Himg.
    rewrite bool_decide_eq_false_2 by apply not_elem_of_nil.
    rewrite (bind_returned _ _ _ _ _
               (loadImage_fetch server getToken isWebdavUrl s el U pd r w
                                Hl Hblob Hpd Hs Hst)).
    unfold images_add. cbn [images afterFetch]. rewrite Himg.
    rewrite bool_decide_eq_false_2 by apply not_elem_of_nil. reflexivity. }
  rewrite (bind_returned _ _ _ _ _ H1).
  assert (Hmiss : blobs w1 !! src (element w1 el) = None).
  { subst w1. unfold element. cbn. rewrite lookup_insert_eq. cbn.
    fold b. rewrite lookup_insert_ne by congruence. exact Hfresh. }
  exists (set_images w1 []). split.
  - unfold extension_destroy.
    erewrite bind_returned.
    2:{ change (images w1) with [el]. cbn [forEach].
        rewrite (bind_returned _ _ _ _ _ (revokeImage_miss el w1 Hmiss)).
        reflexivity. }
    reflexivity.
  - subst w1. cbn. repeat split. apply lookup_insert_eq.
Qed.

(** C7. One element is loaded through the controller and the view is then
    torn down.  At teardown the element is tracked and its blob is cached
    and live; afterwards the tracking set is empty, but the cache entry is
    still there and the object URL has not been revoked: [revokeImage]
    looks the element up by its current source, which is the blob URL, not
    the remote URL that keys the cache. *)
Theorem destroy_keeps_blob :
  let load := extension_loadImage (constantServer 200) specGetToken
                (specIsWebdavUrl davSettings) davSettings 0 oneImage in
  let teardown := extension_destroy (snd load) in
  (fst load = Returned tt
   /\ images (snd load) = [0%nat]
   /\ src (element (snd load) 0) = js "blob:0"
   /\ blobs (snd load) !! imageUrl = Some (js "blob:0")
   /\ objectUrls (snd load) = [js "blob:0"])
  /\ (fst teardown = Returned tt
      /\ images (snd teardown) = []
      /\ blobs (snd teardown) !! imageUrl = Some (js "blob:0")
      /\ objectUrls (snd teardown) = [js "blob:0"]).
Proof. repeat split; vm_compute; reflexivity. Qed.


(* ===================================================================== *)
(** ** The path codec *)
(* ===================================================================== *)

(** Induction that peels off one or two code units, as [Encode] does. *)
Lemma jsstring_ind2 (P : jsstring -> Prop) :
  P [] ->
  (forall c, P [c]) ->
  (forall c d s, P s -> P (d :: s) -> P (c :: d :: s)) ->
  forall s, P s.
Proof.
  intros Hnil Hone Hstep s.
  assert (H : P s /\ forall c, P (c :: s)).
  { induction s as [|d s [IH1 IH2]]; [split; [exact Hnil | exact Hone]|].
    split; [apply IH2|]. intros c. apply Hstep; [exact IH1 | apply IH2]. }
  exact (proj1 H).
Qed.

Section EncodeFacts.

Variable unescaped : N -> bool.
Hypothesis unescaped_not_trail :
  forall c, unescaped c = true -> isTrailSurrogate c = false.

Lemma Encode_cons c rest :
  Encode unescaped (c :: rest) =
  if unescaped c then option_map (cons c) (Encode unescaped rest)
  else if isTrailSurrogate c then None
  else if isLeadSurrogate c then
    match rest with
    | d :: rest' =>
        if isTrailSurrogate d then
          option_map (app (pctAll (utf8 (surrogatePair c d)))) (Encode unescaped rest')
        else None
    | [] => None
    end
  else option_map (app (pctAll (utf8 c))) (Encode unescaped rest).
Proof. reflexivity. Qed.

Lemma Encode_stable s : stable unescaped s = true -> Encode unescaped s = Some s.
Proof.
  induction s as [|c s IH]; [reflexivity|]. cbn [stable forallb].
  intros [Hc Hs]%andb_prop. rewrite Encode_cons, Hc, (IH Hs). reflexivity.
Qed.

Lemma Encode_app_stable_l a b :
  stable unescaped a = true ->
  Encode unescaped (a ++ b) = option_map (app a) (Encode unescaped b).
Proof.
  induction a as [|c a IH].
  - intros _. cbn [app]. destruct (Encode unescaped b); reflexivity.
  - cbn [stable forallb]. intros [Hc Ha]%andb_prop.
    cbn [app]. rewrite Encode_cons, Hc, (IH Ha).
    destruct (Encode unescaped b); reflexivity.
Qed.

Lemma Encode_app_stable_r q :
  stable unescaped q = true ->
  forall p, Encode unescaped (p ++ q)
            = option_map (fun e => e ++ q) (Encode unescaped p).
Proof.
  intros Hq. induction p as [|c|c d p IH1 IH2] using jsstring_ind2.
  - cbn [app Encode option_map]. apply Encode_stable. exact Hq.
  - cbn [app]. rewrite !Encode_cons. cbn [Encode option_map].
    rewrite (Encode_stable q Hq). cbn [option_map].
    destruct (unescaped c); [reflexivity|].
    destruct (isTrailSurrogate c); [reflexivity|].
    destruct (isLeadSurrogate c); [|rewrite app_nil_r; reflexivity].
    destruct q as [|d q]; [reflexivity|].
    cbn [stable forallb] in Hq. apply andb_prop in Hq as [Hd _].
    rewrite (unescaped_not_trail d Hd). reflexivity.
  - change ((c :: d :: p) ++ q) with (c :: (d :: p) ++ q).
    rewrite (Encode_cons c (d :: p)), (Encode_cons c ((d :: p) ++ q)), IH2.
    destruct (unescaped c).
    { destruct (Encode unescaped (d :: p)); reflexivity. }
    destruct (isTrailSurrogate c); [reflexivity|].
    destruct (isLeadSurrogate c).
    + cbn [app]. destruct (isTrailSurrogate d); [|reflexivity].
      rewrite IH1. destruct (Encode unescaped p); [|reflexivity].
      cbn [option_map]. rewrite <- app_assoc. reflexivity.
    + destruct (Encode unescaped (d :: p)); [|reflexivity].
      cbn [option_map]. rewrite <- app_assoc. reflexivity.
Qed.

(** An escape sequence holds no question mark. *)
Lemma question_not_in_pctAll bs : member question (pctAll bs) = false.
Proof.
  induction bs as [|b bs IH]; [reflexivity|].
  unfold pctAll in *. cbn [map concat]. unfold member in *.
  rewrite existsb_app, IH, orb_false_r. unfold pct. cbn [existsb].
  assert (Hex : forall d, (question =? hexDigit d) = false).
  { intros d. apply N.eqb_neq. unfold hexDigit, question.
    destruct (N.ltb_spec d 10); lia. }
  rewrite !Hex. reflexivity.
Qed.

Lemma member_app c a b : member c (a ++ b) = member c a || member c b.
Proof. apply existsb_app. Qed.

Lemma question_not_in_Encode : forall s e,
  member question s = false ->
  Encode unescaped s = Some e ->
  member question e = false.
Proof.
  induction s as [|c|c d s IH1 IH2] using jsstring_ind2; intros e Hm He.
  - injection He as <-. reflexivity.
  - rewrite Encode_cons in He. cbn [Encode option_map] in He.
    destruct (unescaped c); [injection He as <-; exact Hm|].
    destruct (isTrailSurrogate c); [discriminate|].
    destruct (isLeadSurrogate c); [discriminate|].
    injection He as <-. rewrite member_app, question_not_in_pctAll. reflexivity.
  - rewrite Encode_cons in He.
    assert (Hm' : member question (d :: s) = false).
    { unfold member in *. cbn [existsb] in *. apply orb_false_elim in Hm as [_ Hm].
      exact Hm. }
    assert (Hm'' : member question s = false).
    { unfold member in *. cbn [existsb] in *. apply orb_false_elim in Hm' as [_ Hm'].
      exact Hm'. }
    assert (Hc : (question =? c) = false).
    { unfold member in Hm. cbn [existsb] in Hm. apply orb_false_elim in Hm as [Hm _].
      exact Hm. }
    destruct (unescaped c).
    { destruct (Encode unescaped (d :: s)) as [r|] eqn:Er; [|discriminate].
      injection He as <-. unfold member. cbn [existsb]. rewrite Hc.
      apply (IH2 r Hm' eq_refl). }
    destruct (isTrailSurrogate c); [discriminate|].
    destruct (isLeadSurrogate c).
    + destruct (isTrailSurrogate d); [|discriminate].
      destruct (Encode unescaped s) as [r|] eqn:Er; [|discriminate].
      injection He as <-. rewrite member_app, question_not_in_pctAll.
      apply (IH1 r Hm'' eq_refl).
    + destruct (Encode unescaped (d :: s)) as [r|] eqn:Er; [|discriminate].
      injection He as <-. rewrite member_app, question_not_in_pctAll.
      apply (IH2 r Hm' eq_refl).
Qed.

End EncodeFacts.

Lemma uriUnescapedFull_not_trail c :
  uriUnescapedFull c = true -> isTrailSurrogate c = false.
Proof.
  intros H. unfold isTrailSurrogate, in_range.
  destruct (N.leb_spec 56320 c) as [Hc|]; [|reflexivity].
  exfalso. revert H.
  unfold uriUnescapedFull, uriReserved, uriUnescaped, uriMark, isAlnum, member,
    in_range.
  cbn [existsb].
  repeat match goal with
         | |- context [N.eqb c ?k] =>
             rewrite (proj2 (N.eqb_neq c k)) by lia
         | |- context [N.leb c ?k] =>
             rewrite (proj2 (N.leb_gt c k)) by lia
         end.
  rewrite !andb_false_r. discriminate.
Qed.

(** *** Removing a pattern *)

Lemma replace_first_empty_unfold pat s :
  replace_first_empty pat s =
  if startsWith pat s then drop (length pat) s
  else match s with
       | [] => []
       | c :: s' => c :: replace_first_empty pat s'
       end.
Proof. destruct s; reflexivity. Qed.

Lemma startsWith_app p s : startsWith p (p ++ s) = true.
Proof.
  induction p as [|c p IH]; [reflexivity|].
  cbn [app startsWith]. rewrite N.eqb_refl, IH. reflexivity.
Qed.

Lemma replace_first_empty_prefix p s : replace_first_empty p (p ++ s) = s.
Proof.
  rewrite replace_first_empty_unfold, startsWith_app.
  apply drop_app_length.
Qed.

Lemma replace_first_empty_suffix q : forall e,
  q = [] \/ (startsWith [question] q = true /\ member question e = false) ->
  replace_first_empty q (e ++ q) = e.
Proof.
  intros e [->|[Hq He]].
  - rewrite app_nil_r. destruct e; reflexivity.
  - induction e as [|c e IH].
    + cbn [app]. rewrite <- (app_nil_r q) at 2. apply replace_first_empty_prefix.
    + unfold member in He. cbn [existsb] in He. apply orb_false_elim in He as [Hc He].
      cbn [app]. rewrite replace_first_empty_unfold.
      destruct q as [|x q]; [discriminate|].
      cbn [startsWith] in Hq |- *. apply andb_prop in Hq as [Hx _].
      apply N.eqb_eq in Hx. subst x. rewrite Hc.
      cbn [andb]. f_equal. apply IH. exact He.
Qed.

Lemma tokenQuery_shape s q :
  tokenQuery s = inr q -> q = [] \/ startsWith [question] q = true.
Proof.
  unfold tokenQuery. destruct (0 <? length (String_ (token s)))%nat.
  - destruct (atob (String_ (token s))); [|discriminate].
    intros [= <-]. right. reflexivity.
  - intros [= <-]. left. reflexivity.
Qed.

(** C1 (as amended). When [encodeURI] leaves the base URL and the token
    query string unchanged, and the path holds no question mark if a token
    is configured, [getUrl] followed by [getPath] yields the path as
    [encodeURI] escapes it, nothing being decoded on the way back; so the
    original path is recovered when [encodeURI] does not change it. *)
Theorem getPath_getUrl_encoded s path q e :
  stable uriUnescapedFull (url s) = true ->
  tokenQuery s = inr q ->
  stable uriUnescapedFull q = true ->
  q = [] \/ member question path = false ->
  encodeURI path = Some e ->
  getUrl s path = inr (url s ++ e ++ q)
  /\ getPath s (url s ++ e ++ q) = inr e
  /\ (stable uriUnescapedFull path = true -> e = path).
Proof.
  intros Hurl Hq Hqs Hpath He. split; [|split].
  - unfold getUrl, encodeURI. rewrite Hq.
    rewrite (Encode_app_stable_l _ _ _ Hurl).
    rewrite (Encode_app_stable_r _ uriUnescapedFull_not_trail _ Hqs).
    unfold encodeURI in He. rewrite He. reflexivity.
  - unfold getPath. rewrite Hq, replace_first_empty_prefix.
    rewrite replace_first_empty_suffix; [reflexivity|].
    destruct Hpath as [->|Hpath]; [left; reflexivity|].
    destruct (tokenQuery_shape s q Hq) as [->|Hs]; [left; reflexivity|].
    right. split; [exact Hs|].
    apply (question_not_in_Encode uriUnescapedFull path e Hpath He).
  - intros Hp. unfold encodeURI in He.
    rewrite (Encode_stable _ _ Hp) in He. congruence.
Qed.

Lemma getPath_getUrl_encoded_witness :
  getUrl tokenSettings (js "/notes/img.png")
  = inr (js "https://dav.example.com/remote/notes/img.png?token=secret")
  /\ getPath tokenSettings
             (js "https://dav.example.com/remote/notes/img.png?token=secret")
     = inr (js "/notes/img.png").
Proof.
  destruct (getPath_getUrl_encoded tokenSettings (js "/notes/img.png")
              (js "?token=secret") (js "/notes/img.png"))
    as (Hu & Hp & _).
  - reflexivity.
  - reflexivity.
  - reflexivity.
  - right. reflexivity.
  - reflexivity.
  - split; [exact Hu | exact Hp].
Defined.

(** C1 as stated fails: a path with a space comes back with the space
    escaped. *)
Lemma getPath_getUrl_space :
  getUrl davSettings (js "/my img.png")
  = inr (js "https://dav.example.com/remote/my%20img.png")
  /\ getPath davSettings (js "https://dav.example.com/remote/my%20img.png")
     = inr (js "/my%20img.png")
  /\ js "/my%20img.png" <> js "/my img.png".
Proof. repeat split; discriminate. Qed.

(** *** Decoding what was encoded *)

Lemma split64 x : exists q r, x / 64 = q /\ x mod 64 = r /\ x = 64 * q + r /\ r < 64.
Proof.
  exists (x / 64), (x mod 64). repeat split.
  - apply N.div_mod'.
  - apply N.mod_lt. discriminate.
Qed.

Lemma split16 x : exists q r, x / 16 = q /\ x mod 16 = r /\ x = 16 * q + r /\ r < 16.
Proof.
  exists (x / 16), (x mod 16). repeat split.
  - apply N.div_mod'.
  - apply N.mod_lt. discriminate.
Qed.

Ltac split64 x :=
  let q := fresh "q" in
  let r := fresh "r" in
  let Hq := fresh "Hq" in
  let Hr := fresh "Hr" in
  destruct (split64 x) as (q & r & Hq & Hr & ? & ?);
  rewrite ?Hq, ?Hr in *; clear Hq Hr.

(** Decide the comparisons of the goal by linear arithmetic. *)
Ltac compare_all :=
  repeat match goal with
         | |- context [N.leb ?a ?b] =>
             first [ rewrite (proj2 (N.leb_le a b)) by lia
                   | rewrite (proj2 (N.leb_gt a b)) by lia ]
         | |- context [N.ltb ?a ?b] =>
             first [ rewrite (proj2 (N.ltb_lt a b)) by lia
                   | rewrite (proj2 (N.ltb_ge a b)) by lia ]
         | |- context [N.eqb ?a ?b] =>
             first [ rewrite (proj2 (N.eqb_eq a b)) by lia
                   | rewrite (proj2 (N.eqb_neq a b)) by lia ]
         end;
  cbn [andb orb negb].

Lemma unhex_hexDigit d : d < 16 -> unhex (hexDigit d) = Some d.
Proof.
  intros Hd. unfold hexDigit, unhex, in_range.
  destruct (N.ltb_spec d 10); compare_all; f_equal; lia.
Qed.

Lemma unescapeTokens_pct b rest :
  b < 256 ->
  unescapeTokens (pct b ++ rest) = option_map (cons (Oct b)) (unescapeTokens rest).
Proof.
  intros Hb. unfold pct. cbn [app unescapeTokens].
  change (percent =? percent) with true. cbn iota.
  destruct (split16 b) as (q & r & Hq & Hr & E & Hlt). rewrite Hq, Hr.
  rewrite !unhex_hexDigit by lia. rewrite <- E.
  destruct (unescapeTokens rest); reflexivity.
Qed.

Lemma unescapeTokens_pctAll bs rest :
  Forall (fun b => b < 256) bs ->
  unescapeTokens (pctAll bs ++ rest)
  = option_map (app (map Oct bs)) (unescapeTokens rest).
Proof.
  induction 1 as [|b bs Hb _ IH].
  - cbn. destruct (unescapeTokens rest); reflexivity.
  - unfold pctAll in *. cbn [map concat]. rewrite <- app_assoc.
    rewrite (unescapeTokens_pct b _ Hb), IH.
    destruct (unescapeTokens rest); reflexivity.
Qed.

Lemma unescapeTokens_literal c rest :
  c <> percent ->
  unescapeTokens (c :: rest) = option_map (cons (Lit c)) (unescapeTokens rest).
Proof.
  intros Hc. cbn [unescapeTokens]. rewrite (proj2 (N.eqb_neq c percent) Hc).
  destruct (unescapeTokens rest); reflexivity.
Qed.

Lemma utf8_octets cp : cp < 1114112 -> Forall (fun b => b < 256) (utf8 cp).
Proof.
  intros Hcp. unfold utf8.
  destruct (N.ltb_spec cp 128); [repeat constructor; lia|].
  destruct (N.ltb_spec cp 2048).
  { split64 cp. repeat constructor; lia. }
  destruct (N.ltb_spec cp 65536).
  { split64 cp. split64 q. repeat constructor; lia. }
  split64 cp. split64 q. split64 q0. repeat constructor; lia.
Qed.

Lemma utf8Tokens_utf8 cp ts :
  isScalar cp ->
  utf8Tokens (map Oct (utf8 cp) ++ ts) = option_map (app (utf16 cp)) (utf8Tokens ts).
Proof.
  intros [Hcp Hsur]. unfold utf8.
  destruct (N.ltb_spec cp 128).
  { cbn [map app utf8Tokens]. unfold utf16. compare_all.
    destruct (utf8Tokens ts); reflexivity. }
  destruct (N.ltb_spec cp 2048).
  { split64 cp. cbn [map app utf8Tokens]. unfold in_range, isContinuation, in_range.
    compare_all.
    replace ((192 + q - 192) * 64 + (128 + r - 128)) with cp by lia.
    destruct (utf8Tokens ts); reflexivity. }
  destruct (N.ltb_spec cp 65536).
  { split64 cp. split64 q. cbn [map app utf8Tokens].
    cbv zeta.
    replace ((224 + q0 - 224) * 4096 + (128 + r0 - 128) * 64 + (128 + r - 128))
      with cp by lia.
    rewrite Hsur. unfold in_range, isContinuation, in_range. compare_all.
    destruct (utf8Tokens ts); reflexivity. }
  split64 cp. split64 q. split64 q0. cbn [map app utf8Tokens]. cbv zeta.
  replace ((240 + q1 - 240) * 262144 + (128 + r1 - 128) * 4096
           + (128 + r0 - 128) * 64 + (128 + r - 128)) with cp by lia.
  unfold in_range, isContinuation, in_range. compare_all.
  destruct (utf8Tokens ts); reflexivity.
Qed.

Lemma utf16_unit c : c < 65536 -> utf16 c = [c].
Proof. intros H. unfold utf16. compare_all. reflexivity. Qed.

Lemma surrogatePair_scalar c d :
  isLeadSurrogate c = true -> isTrailSurrogate d = true ->
  isScalar (surrogatePair c d) /\ utf16 (surrogatePair c d) = [c; d].
Proof.
  unfold isLeadSurrogate, isTrailSurrogate, in_range.
  intros [Hc1 Hc2]%andb_prop [Hd1 Hd2]%andb_prop.
  apply N.leb_le in Hc1, Hc2, Hd1, Hd2.
  assert (Hge : 65536 <= surrogatePair c d < 1114112) by (unfold surrogatePair; lia).
  split.
  - split; [lia|]. unfold in_range. compare_all. reflexivity.
  - unfold utf16. compare_all.
    assert (E : surrogatePair c d - 65536 = (d - 56320) + (c - 55296) * 1024)
      by (unfold surrogatePair; lia).
    rewrite E, N.div_add by discriminate. rewrite N.Div0.mod_add.
    rewrite N.div_small by lia. rewrite N.mod_small by lia.
    f_equal; [lia | f_equal; lia].
Qed.

Lemma uriUnescaped_ascii c :
  uriUnescaped c = true -> c <> percent /\ c <> slash /\ c < 128.
Proof.
  unfold uriUnescaped, isAlnum, uriMark, member, in_range, percent, slash.
  cbn [existsb]. intros H.
  repeat match type of H with
         | (_ || _) = true => apply orb_prop in H as [H|H]
         | (_ && _) = true => apply andb_prop in H as [? H]
         end;
  repeat match goal with
         | H : (_ <=? _) = true |- _ => apply N.leb_le in H
         | H : (_ =? _) = true |- _ => apply N.eqb_eq in H
         end; try discriminate; lia.
Qed.

Lemma decodes_decodeURIComponent e s : decodes e s -> decodeURIComponent e = Some s.
Proof. intros (ts & H1 & H2). unfold decodeURIComponent. rewrite H1. exact H2. Qed.

Lemma decodes_literal c e s :
  uriUnescaped c = true -> decodes e s -> decodes (c :: e) (c :: s).
Proof.
  intros Hc (ts & H1 & H2). destruct (uriUnescaped_ascii c Hc) as (Hp & _ & _).
  exists (Lit c :: ts). split.
  - rewrite (unescapeTokens_literal c e Hp), H1. reflexivity.
  - cbn [utf8Tokens]. rewrite H2. reflexivity.
Qed.

Lemma decodes_escaped cp e s :
  isScalar cp -> decodes e s -> decodes (pctAll (utf8 cp) ++ e) (utf16 cp ++ s).
Proof.
  intros Hcp (ts & H1 & H2). exists (map Oct (utf8 cp) ++ ts). split.
  - rewrite (unescapeTokens_pctAll _ _ (utf8_octets cp (proj1 Hcp))), H1. reflexivity.
  - rewrite (utf8Tokens_utf8 cp ts Hcp), H2. reflexivity.
Qed.

Lemma Encode_decodes : forall s e,
  is_utf16 s = true ->
  Encode uriUnescaped s = Some e ->
  decodes e s.
Proof.
  assert (Hstep : forall c rest e,
            is_code_unit c = true ->
            (forall r, Encode uriUnescaped rest = Some r -> decodes r rest) ->
            (forall d rest' r, rest = d :: rest' ->
                               Encode uriUnescaped rest' = Some r -> decodes r rest') ->
            Encode uriUnescaped (c :: rest) = Some e ->
            decodes e (c :: rest)).
  { intros c rest e Hc IHrest IHtail He. rewrite Encode_cons in He.
    unfold is_code_unit in Hc. apply N.ltb_lt in Hc.
    destruct (uriUnescaped c) eqn:Hu.
    { destruct (Encode uriUnescaped rest) as [r|]; [|discriminate].
      injection He as <-. apply decodes_literal; auto. }
    destruct (isTrailSurrogate c) eqn:Ht; [discriminate|].
    destruct (isLeadSurrogate c) eqn:Hl.
    - destruct rest as [|d rest']; [discriminate|].
      destruct (isTrailSurrogate d) eqn:Htd; [|discriminate].
      destruct (Encode uriUnescaped rest') as [r|] eqn:Er; [|discriminate].
      injection He as <-.
      destruct (surrogatePair_scalar c d Hl Htd) as [Hs H16].
      change (c :: d :: rest') with ([c; d] ++ rest'). rewrite <- H16.
      apply decodes_escaped; [exact Hs | eapply IHtail; eauto].
    - destruct (Encode uriUnescaped rest) as [r|]; [|discriminate].
      injection He as <-.
      change (c :: rest) with ([c] ++ rest). rewrite <- (utf16_unit c Hc).
      apply decodes_escaped; [|auto].
      split; [lia|].
      unfold isTrailSurrogate, isLeadSurrogate, in_range in *.
      destruct (N.leb_spec 55296 c); [|reflexivity].
      destruct (N.leb_spec c 57343); [|reflexivity]. exfalso.
      destruct (N.leb_spec c 56319).
      + revert Hl. compare_all. discriminate.
      + revert Ht. compare_all. discriminate. }
  induction s as [|c|c d s IH1 IH2] using jsstring_ind2; intros e Hs He.
  - injection He as <-. exists []. split; reflexivity.
  - cbn [is_utf16 forallb] in Hs. apply andb_prop in Hs as [Hc _].
    apply (Hstep c [] e Hc); [| discriminate | exact He].
    intros r [= <-]. exists []. split; reflexivity.
  - cbn [is_utf16 forallb] in Hs. apply andb_prop in Hs as [Hc Hs].
    apply (Hstep c (d :: s) e Hc); [| | exact He].
    + intros r Hr. apply IH2; [exact Hs | exact Hr].
    + intros d' rest' r [= <- <-] Hr. cbn [forallb] in Hs.
      apply andb_prop in Hs as [_ Hs]. apply IH1; [exact Hs | exact Hr].
Qed.

(** What [encodeURIComponent] puts out holds no slash. *)
Lemma slash_not_in_pctAll bs : member slash (pctAll bs) = false.
Proof.
  induction bs as [|b bs IH]; [reflexivity|].
  unfold pctAll in *. cbn [map concat]. unfold member in *.
  rewrite existsb_app, IH, orb_false_r. unfold pct. cbn [existsb].
  assert (Hex : forall d, (slash =? hexDigit d) = false).
  { intros d. apply N.eqb_neq. unfold hexDigit, slash.
    destruct (N.ltb_spec d 10); lia. }
  rewrite !Hex. reflexivity.
Qed.

Lemma slash_not_in_encodeURIComponent : forall s e,
  encodeURIComponent s = Some e -> member slash e = false.
Proof.
  unfold encodeURIComponent.
  assert (Hstep : forall c rest e,
            (forall r, Encode uriUnescaped rest = Some r -> member slash r = false) ->
            (forall d rest' r, rest = d :: rest' ->
                               Encode uriUnescaped rest' = Some r ->
                               member slash r = false) ->
            Encode uriUnescaped (c :: rest) = Some e ->
            member slash e = false).
  { intros c rest e IHrest IHtail He. rewrite Encode_cons in He.
    destruct (uriUnescaped c) eqn:Hu.
    { destruct (Encode uriUnescaped rest) as [r|]; [|discriminate].
      injection He as <-. destruct (uriUnescaped_ascii c Hu) as (_ & Hsl & _).
      unfold member. cbn [existsb].
      rewrite (proj2 (N.eqb_neq slash c)) by congruence. apply IHrest. reflexivity. }
    destruct (isTrailSurrogate c); [discriminate|].
    destruct (isLeadSurrogate c).
    - destruct rest as [|d rest']; [discriminate|].
      destruct (isTrailSurrogate d); [|discriminate].
      destruct (Encode uriUnescaped rest') as [r|] eqn:Er; [|discriminate].
      injection He as <-. rewrite member_app, slash_not_in_pctAll.
      eapply IHtail; eauto.
    - destruct (Encode uriUnescaped rest) as [r|]; [|discriminate].
      injection He as <-. rewrite member_app, slash_not_in_pctAll.
      apply IHrest. reflexivity. }
  induction s as [|c|c d s IH1 IH2] using jsstring_ind2; intros e He.
  - injection He as <-. reflexivity.
  - apply (Hstep c [] e); [| discriminate | exact He]. intros r [= <-]. reflexivity.
  - apply (Hstep c (d :: s) e); [| | exact He].
    + intros r Hr. apply IH2. exact Hr.
    + intros d' rest' r [= <- <-] Hr. apply IH1. exact Hr.
Qed.

(** *** Splitting and joining *)

Lemma split_not_nil sep s : split sep s <> [].
Proof.
  destruct s as [|c s]; [discriminate|]. cbn [split].
  destruct (c =? sep); [discriminate|]. destruct (split sep s); discriminate.
Qed.

Lemma join_cons sep seg segs :
  segs <> [] -> join sep (seg :: segs) = seg ++ sep ++ join sep segs.
Proof. destruct segs; [congruence | reflexivity]. Qed.

Lemma join_split s : join [slash] (split slash s) = s.
Proof.
  induction s as [|c s IH]; [reflexivity|]. cbn [split].
  destruct (c =? slash) eqn:Hc.
  - apply N.eqb_eq in Hc. subst c.
    rewrite join_cons by apply split_not_nil. rewrite IH. reflexivity.
  - pose proof (split_not_nil slash s) as Hne.
    destruct (split slash s) as [|seg segs]; [congruence|].
    destruct segs as [|seg' segs].
    + cbn [join] in *. rewrite IH. reflexivity.
    + rewrite join_cons in IH |- * by discriminate. rewrite <- IH. reflexivity.
Qed.

Lemma split_no_slash seg : member slash seg = false -> split slash seg = [seg].
Proof.
  induction seg as [|c seg IH]; [reflexivity|].
  unfold member. cbn [existsb]. intros [Hc Hs]%orb_false_elim.
  cbn [split]. rewrite N.eqb_sym, Hc. rewrite (IH Hs). reflexivity.
Qed.

Lemma split_app_slash seg rest :
  member slash seg = false ->
  split slash (seg ++ slash :: rest) = seg :: split slash rest.
Proof.
  induction seg as [|c seg IH].
  - intros _. cbn [app split]. rewrite N.eqb_refl. reflexivity.
  - unfold member. cbn [existsb]. intros [Hc Hs]%orb_false_elim.
    cbn [app split]. rewrite N.eqb_sym, Hc. rewrite (IH Hs). reflexivity.
Qed.

Lemma split_join segs :
  segs <> [] ->
  Forall (fun seg => member slash seg = false) segs ->
  split slash (join [slash] segs) = segs.
Proof.
  intros Hne H. induction H as [|seg segs Hseg Hsegs IH]; [congruence|].
  destruct segs as [|seg' segs].
  - cbn [join]. apply split_no_slash. exact Hseg.
  - rewrite join_cons by discriminate. cbn [app].
    rewrite (split_app_slash _ _ Hseg). rewrite IH by discriminate. reflexivity.
Qed.

Lemma is_utf16_split s :
  is_utf16 s = true -> Forall (fun seg => is_utf16 seg = true) (split slash s).
Proof.
  induction s as [|c s IH]; [intros _; repeat constructor|].
  cbn [is_utf16 forallb]. intros [Hc Hs]%andb_prop. specialize (IH Hs).
  cbn [split]. destruct (c =? slash).
  - constructor; [reflexivity | exact IH].
  - pose proof (split_not_nil slash s) as Hne.
    destruct (split slash s) as [|seg segs]; [congruence|].
    inversion IH as [|? ? Hseg Hsegs]; subst. constructor; [|exact Hsegs].
    cbn [is_utf16 forallb]. rewrite Hc. exact Hseg.
Qed.

(** *** encodePath *)

Lemma decode_segments segs rs :
  Forall2 (fun seg r => encodeURIComponent seg = Some r) segs rs ->
  Forall (fun seg => is_utf16 seg = true) segs ->
  Forall2 (fun r seg => decodeURIComponent r = Some seg) rs segs.
Proof.
  induction 1 as [|seg r segs rs Hr _ IH]; intros Hu; [constructor|].
  inversion Hu as [|? ? Hseg Hsegs]; subst. constructor; [|apply IH; exact Hsegs].
  apply decodes_decodeURIComponent. apply Encode_decodes; assumption.
Qed.

(** C9. For a path that [encodePath] accepts, the segments of the result
    are the [encodeURIComponent] images of the segments of the path, so
    the slashes of the result are exactly the separators, and decoding the
    result segment by segment gives the path back. *)
Theorem encodePath_decodes path e :
  is_utf16 path = true ->
  encodePath path = Some e ->
  mapM encodeURIComponent (split slash path) = Some (split slash e)
  /\ mapM decodeURIComponent (split slash e) = Some (split slash path)
  /\ decodePath e = Some path.
Proof.
  intros Hwf He. unfold encodePath in He.
  destruct (mapM encodeURIComponent (split slash path)) as [segs|] eqn:Hm;
    [|discriminate].
  injection He as <-.
  apply mapM_Some_1 in Hm.
  assert (Hnoslash : Forall (fun seg => member slash seg = false) segs).
  { apply (Forall2_Forall_r _ _ _ _ Hm). apply Forall_forall. intros seg _ r Hr.
    apply (slash_not_in_encodeURIComponent seg r Hr). }
  assert (Hne : segs <> []).
  { intros ->. apply Forall2_length in Hm. pose proof (split_not_nil slash path).
    destruct (split slash path); [congruence | discriminate]. }
  assert (Hsplit : split slash (join (js "/") segs) = segs)
    by (apply (split_join segs Hne Hnoslash)).
  rewrite Hsplit.
  assert (Hdec : mapM decodeURIComponent segs = Some (split slash path)).
  { apply mapM_Some_2.
    apply (decode_segments _ _ Hm (is_utf16_split path Hwf)). }
  split; [reflexivity|]. split; [exact Hdec|].
  unfold decodePath. rewrite Hsplit, Hdec. cbn [option_map].
  f_equal. apply join_split.
Qed.

Lemma encodePath_decodes_witness :
  decodePath (js "/notes/a%23b%20c/%C3%A9.png") = Some reservedPath.
Proof.
  refine (proj2 (proj2 (encodePath_decodes reservedPath
                          (js "/notes/a%23b%20c/%C3%A9.png") _ _))).
  - reflexivity.
  - reflexivity.
Defined.

(* ===================================================================== *)
(** ** Further properties of the protocol client *)
(* ===================================================================== *)

Example trim_ex :
  trim (js "  https://dav.example.com/ ") = js "https://dav.example.com/"
  /\ trim (js " 	 ") = js ""
  /\ url (onUrlChange davSettings (js " https://dav.example.com/dav/ "))
     = js "https://dav.example.com/dav"
  /\ onIncludeExtensionsChange (js "jpg, png ,,gif ,") = [js "jpg"; js "png"; js "gif"]
  /\ onIncludeExtensionsChange (js "") = [].
Proof. repeat split; reflexivity. Qed.

(** *** Paths that cannot be encoded *)

(** A path with a lone surrogate makes every operation throw the URIError
    of [encodeURIComponent] before anything is sent. *)
Theorem malformed_path_sends_nothing server c fuel path other data method headers
        body overwrite w :
  encodePath path = None ->
  putFileContents server (S fuel) c path data w = (Thrown URIError, w)
  /\ getFileContents server c path w = (Thrown URIError, w)
  /\ deleteFile server c path w = (Thrown URIError, w)
  /\ exists_ server c path w = (Thrown URIError, w)
  /\ createDirectory server c path w = (Thrown URIError, w)
  /\ customRequest server c path method headers body w = (Thrown URIError, w)
  /\ moveFile server (S fuel) c path other overwrite w = (Thrown URIError, w)
  /\ moveFile server (S fuel) c other path overwrite w = (Thrown URIError, w).
Proof.
  intros H. repeat split.
  - cbn [putFileContents]. rewrite H. reflexivity.
  - unfold getFileContents. rewrite H. reflexivity.
  - unfold deleteFile. rewrite H. reflexivity.
  - unfold exists_. rewrite H. reflexivity.
  - unfold createDirectory. rewrite H. reflexivity.
  - unfold customRequest. rewrite H. reflexivity.
  - cbn [moveFile]. rewrite H. reflexivity.
  - cbn [moveFile]. destruct (encodePath other) as [eo|]; [|reflexivity].
    rewrite (bind_returned _ _ w eo w eq_refl).
    destruct overwrite; cbn [negb].
    + rewrite (bind_returned _ _ w tt w eq_refl). rewrite H. reflexivity.
    + erewrite (bind_thrown (bind _ _)); [reflexivity|].
      erewrite bind_thrown; [reflexivity|].
      unfold exists_. rewrite H. reflexivity.
Qed.

Lemma malformed_path_sends_nothing_witness :
  putFileContents (constantServer 201) 1 davClient malformed (js "data") emptyWorld
  = (Thrown URIError, emptyWorld)
  /\ exists_ (constantServer 200) davClient malformed emptyWorld
     = (Thrown URIError, emptyWorld).
Proof.
  pose proof (malformed_path_sends_nothing (constantServer 201) davClient 0 malformed
                (js "/a") (js "data") (js "GET") None None false emptyWorld eq_refl)
    as (Hput & _).
  pose proof (malformed_path_sends_nothing (constantServer 200) davClient 0 malformed
                (js "/a") (js "data") (js "GET") None None false emptyWorld eq_refl)
    as (_ & _ & _ & Hex & _).
  split; [exact Hput | exact Hex].
Defined.

(** *** ensureDirectoryExists *)

Section EnsureDirectories.

Variable server : Server.
Variable c : WebDavClientInner.

Lemma take_S_cons {A} (x : A) n l : take (S n) (x :: l) = x :: take n l.
Proof. reflexivity. Qed.

(** The MKCOL request [createDirectory] sends. *)
Lemma createDirectory_request path e w :
  encodePath path = Some e ->
  createDirectory server c path w
  = request server c (mkOptions (buildUrl c e) (js "MKCOL") None None) w.
Proof. intros He. unfold createDirectory. rewrite He. reflexivity. Qed.

Lemma ensureDirectories_requests dirs : forall currentPath w,
  exists new,
    exchanges (snd (ensureDirectories server c currentPath dirs w))
    = exchanges w ++ new
    /\ map verbAndUrl new
       = take (length new) (map (mkcolFor c) (cumulative currentPath dirs))
    /\ forallb tolerated (removelast new) = true
    /\ fst (ensureDirectories server c currentPath dirs w) <> OutOfFuel
    /\ (fst (ensureDirectories server c currentPath dirs w) = Returned tt ->
        forallb tolerated new = true /\ length new = length dirs).
Proof.
  induction dirs as [|dir rest IH]; intros currentPath w.
  { exists []. cbn. rewrite app_nil_r. repeat split; discriminate. }
  cbn [ensureDirectories cumulative map].
  set (cur := currentPath ++ js "/" ++ dir).
  destruct (encodePath cur) as [e|] eqn:He.
  2:{ exists []. unfold createDirectory. rewrite He. cbn. rewrite app_nil_r.
      repeat split; discriminate. }
  set (o := mkOptions (buildUrl c e) (js "MKCOL") None None).
  assert (Hshape : forall reply,
             verbAndUrl (requestOptions c o, reply) = mkcolFor c cur).
  { intros reply. unfold verbAndUrl, mkcolFor. rewrite He. reflexivity. }
  destruct (server (exchanges w) (requestOptions c o)) as [r|err] eqn:Hs.
  2:{ exists [(requestOptions c o, NetworkFailure err)].
      rewrite (bind_thrown _ _ w err (sent w (requestOptions c o) (NetworkFailure err))).
      2:{ rewrite (createDirectory_request cur e w He).
          apply request_failure. exact Hs. }
      cbn [fst snd length take map removelast forallb]. rewrite Hshape.
      repeat split; discriminate. }
  rewrite (bind_returned _ _ w r (sent w (requestOptions c o) (Answer r))).
  2:{ rewrite (createDirectory_request cur e w He). apply request_answer. exact Hs. }
  set (x := (requestOptions c o, Answer r)).
  (* the answer is tolerated, or the error ends the walk *)
  assert (Hcont : forall w1,
            exchanges w1 = exchanges w ++ [x] ->
            tolerated x = true ->
            exists new,
              exchanges (snd (ensureDirectories server c cur rest w1))
              = exchanges w ++ new
              /\ map verbAndUrl new
                 = take (length new)
                        (mkcolFor c cur :: map (mkcolFor c) (cumulative cur rest))
              /\ forallb tolerated (removelast new) = true
              /\ fst (ensureDirectories server c cur rest w1) <> OutOfFuel
              /\ (fst (ensureDirectories server c cur rest w1) = Returned tt ->
                  forallb tolerated new = true /\ length new = S (length rest))).
  { intros w1 Hw1 Htol. destruct (IH cur w1) as (new & E & Hm & Hr & Hf & Hok).
    exists (x :: new). split; [rewrite E, Hw1, <- app_assoc; reflexivity|].
    split; [cbn [length map]; rewrite take_S_cons, Hm; f_equal; apply Hshape|].
    split.
    { destruct new as [|y new]; [reflexivity|].
      change (removelast (x :: y :: new)) with (x :: removelast (y :: new)).
      cbn [forallb]. rewrite Htol, Hr. reflexivity. }
    split; [exact Hf|]. intros Hret. destruct (Hok Hret) as [Ha Hl].
    cbn [forallb length]. rewrite Htol, Ha, Hl. auto. }
  destruct (includes [405; 409]%Z (status r)) eqn:Hinc.
  - erewrite bind_returned; [|reflexivity].
    apply Hcont; [reflexivity|]. unfold tolerated, x. cbn [snd]. rewrite Hinc.
    reflexivity.
  - unfold handleResponseCode.
    destruct (Z.leb_spec 400 (status r)) as [Hge|Hlt].
    + exists [x].
      erewrite bind_thrown; [|reflexivity].
      cbn [fst snd length take map removelast forallb]. unfold x at 2. rewrite Hshape.
      repeat split; discriminate.
    + erewrite bind_returned; [|reflexivity].
      apply Hcont; [reflexivity|]. unfold tolerated, x. cbn [snd]. rewrite Hinc.
      rewrite (proj2 (Z.ltb_lt (status r) 400) Hlt). reflexivity.
Qed.

End EnsureDirectories.

(** [ensureDirectoryExists] sends nothing but MKCOL requests, one for each
    path built from the directories so far and in that order, for as long
    as the answers are tolerated (405, 409, or below 400): after any other
    answer, a network failure or a path that cannot be encoded nothing more
    is sent.  It always comes to an end, and when it returns, every
    directory was asked for and every answer was tolerated. *)
Theorem ensureDirectoryExists_walk server c path w :
  exists new,
    exchanges (snd (ensureDirectoryExists server c path w)) = exchanges w ++ new
    /\ map verbAndUrl new
       = take (length new) (map (mkcolFor c) (cumulative [] (directoriesOf path)))
    /\ forallb tolerated (removelast new) = true
    /\ fst (ensureDirectoryExists server c path w) <> OutOfFuel
    /\ (fst (ensureDirectoryExists server c path w) = Returned tt ->
        forallb tolerated new = true
        /\ length new = length (directoriesOf path)).
Proof.
  unfold ensureDirectoryExists. fold (directoriesOf path).
  apply ensureDirectories_requests.
Qed.

Lemma split_app_sep sep a b :
  split sep (a ++ sep :: b) = split sep a ++ split sep b.
Proof.
  induction a as [|x a IH]; cbn [app split].
  - rewrite N.eqb_refl. reflexivity.
  - rewrite IH. destruct (x =? sep); [reflexivity|].
    pose proof (split_not_nil sep a) as Hne.
    destruct (split sep a) as [|seg segs]; [congruence | reflexivity].
Qed.

Lemma directoriesOf_app_slash a b :
  directoriesOf (a ++ slash :: b) = directoriesOf a ++ directoriesOf b.
Proof. unfold directoriesOf. rewrite split_app_sep. apply List.filter_app. Qed.

(** Leading, trailing and doubled slashes make no difference to
    [ensureDirectoryExists], and for the empty path it sends nothing. *)
Theorem ensureDirectoryExists_slashes server c a b :
  ensureDirectoryExists server c (slash :: b) = ensureDirectoryExists server c b
  /\ ensureDirectoryExists server c (a ++ [slash]) = ensureDirectoryExists server c a
  /\ ensureDirectoryExists server c (a ++ slash :: slash :: b)
     = ensureDirectoryExists server c (a ++ slash :: b)
  /\ (forall w, ensureDirectoryExists server c [] w = (Returned tt, w)).
Proof.
  assert (H : forall p q, directoriesOf p = directoriesOf q ->
                          ensureDirectoryExists server c p
                          = ensureDirectoryExists server c q).
  { intros p q E. unfold ensureDirectoryExists. fold (directoriesOf p).
    fold (directoriesOf q). rewrite E. reflexivity. }
  split; [|split; [|split]].
  - apply H. apply (directoriesOf_app_slash [] b).
  - apply H. rewrite directoriesOf_app_slash. apply app_nil_r.
  - apply H. rewrite !directoriesOf_app_slash. reflexivity.
  - reflexivity.
Qed.

Example ensureDirectoryExists_ex :
  let run := ensureDirectoryExists (scriptedServer [201; 405; 403]%Z 201) davClient
               (js "/a b//c/d/e/") emptyWorld in
  fst run = Thrown (Error (js "403 Unknown error"))
  /\ map summary (exchanges (snd run))
     = [ (js "MKCOL", js "https://dav.example.com/remote/a%20b", Some 201%Z);
         (js "MKCOL", js "https://dav.example.com/remote/a%20b/c", Some 405%Z);
         (js "MKCOL", js "https://dav.example.com/remote/a%20b/c/d", Some 403%Z) ]
  /\ warnings (snd run)
     = [ js "Directory already exists or cannot be created: /a b/c" ].
Proof. repeat split; vm_compute; reflexivity. Qed.

(** *** uploadFile without a retry *)

Lemma putFileContents_answer server fuel c path e data w r :
  encodePath path = Some e ->
  server (exchanges w) (putRequest c e data) = Answer r ->
  status r <> 409%Z ->
  putFileContents server (S fuel) c path data w
  = (if (400 <=? status r)%Z then
       Thrown (Error (Z_to_js (status r) ++ js " "
                      ++ default (js "Unknown error") (text r)))
     else Returned (Some true),
     sent w (putRequest c e data) (Answer r)).
Proof.
  intros He Hr H409. cbn [putFileContents]. rewrite He.
  rewrite (bind_returned _ _ w e w eq_refl).
  rewrite (bind_returned _ _ _ _ _ (request_answer _ _ _ _ _ Hr)).
  rewrite (proj2 (Z.eqb_neq (status r) 409) H409).
  unfold handleResponseCode, putRequest.
  destruct (400 <=? status r)%Z; reflexivity.
Qed.

(** When the PUT is answered with a status other than 409, [uploadFile]
    sends nothing else: below 400 it returns the file name with
    [getUrl(path)] (or throws what [getUrl] throws), from 400 on it throws
    the error that carries the status and the text of the answer. *)
Theorem uploadFile_single_put server fuel wc file path e w r :
  encodePath path = Some e ->
  server (exchanges w) (putRequest (client wc) e (file_arrayBuffer file)) = Answer r ->
  status r <> 409%Z ->
  uploadFile server (S fuel) wc file path w
  = (if (400 <=? status r)%Z then
       Thrown (Error (Z_to_js (status r) ++ js " "
                      ++ default (js "Unknown error") (text r)))
     else match getUrl (settings wc) path with
          | inr u => Returned (mkFileInfo (file_name file) u)
          | inl err => Thrown err
          end,
     sent w (putRequest (client wc) e (file_arrayBuffer file)) (Answer r)).
Proof.
  intros He Hr H409. unfold uploadFile.
  pose proof (putFileContents_answer server fuel (client wc) path e
                (file_arrayBuffer file) w r He Hr H409) as Hput.
  destruct (400 <=? status r)%Z.
  - rewrite (bind_thrown _ _ _ _ _ Hput). reflexivity.
  - rewrite (bind_returned _ _ _ _ _ Hput). cbn [truthy default negb].
    destruct (getUrl (settings wc) path) as [err|u]; reflexivity.
Qed.

Lemma uploadFile_single_put_witness :
  fst (uploadFile (constantServer 507) 1 davWebDavClient imgFile (js "/notes/img.png")
                  emptyWorld)
  = Thrown (Error (js "507 Unknown error")).
Proof.
  rewrite (uploadFile_single_put (constantServer 507) 0 davWebDavClient imgFile
             (js "/notes/img.png") (js "/notes/img.png") emptyWorld
             (mkResponse 507 None []) eq_refl eq_refl);
    [reflexivity | discriminate].
Defined.

(** *** moveFile without overwrite: no MOVE without a check *)

Section GuardedMoves.

Variable server : Server.
Variable c : WebDavClientInner.

Lemma guardedMoves_app_other dest a l :
  Forall (otherVerb (js "MOVE")) a ->
  (forall b, guardedMoves dest b l = true) ->
  forall b, guardedMoves dest b (a ++ l) = true.
Proof.
  intros Ha Hl. induction Ha as [|x a Hx _ IH]; intros b; [apply Hl|].
  cbn [app guardedMoves]. unfold isMove. red in Hx. rewrite Hx. apply IH.
Qed.

Lemma guardedMoves_other dest a :
  Forall (otherVerb (js "MOVE")) a -> forall b, guardedMoves dest b a = true.
Proof.
  intros Ha b. rewrite <- (app_nil_r a).
  apply guardedMoves_app_other; [exact Ha | reflexivity].
Qed.

(** What the existence check leaves behind: nothing, or one HEAD; and it
    says false only after a HEAD to the URL of the path that was answered
    with a status other than 200. *)
Lemma exists_exchanges path w :
  exists new,
    exchanges (snd (exists_ server c path w)) = exchanges w ++ new
    /\ Forall (otherVerb (js "MOVE")) new
    /\ fst (exists_ server c path w) <> OutOfFuel
    /\ (fst (exists_ server c path w) = Returned false ->
        exists h, new = [h] /\ passedHead (destinationUrl c path) h = true).
Proof.
  destruct (encodePath path) as [e|] eqn:He.
  2:{ exists []. unfold exists_. rewrite He. cbn. rewrite app_nil_r.
      repeat split; try discriminate. constructor. }
  destruct (server (exchanges w) (headRequest c e)) as [r|err] eqn:Hs.
  - rewrite (exists_answer server c path e w r He Hs).
    exists [(headRequest c e, Answer r)]. cbn [fst snd].
    split; [reflexivity|]. split; [repeat constructor|].
    destruct (Z.eqb_spec (status r) 200) as [E|N].
    { repeat split; discriminate. }
    assert (Hp : passedHead (destinationUrl c path) (headRequest c e, Answer r)
                 = true).
    { unfold passedHead, destinationUrl. rewrite He. cbn [snd option_map].
      rewrite (proj2 (Z.eqb_neq _ _) N).
      rewrite bool_decide_eq_true_2 by reflexivity. reflexivity. }
    destruct (status r =? 404)%Z; [split; [discriminate | eauto]|].
    destruct (400 <=? status r)%Z; split; try discriminate; eauto.
  - exists [(headRequest c e, NetworkFailure err)].
    unfold exists_. rewrite He. rewrite (bind_returned _ _ w e w eq_refl).
    rewrite (bind_thrown _ _ _ _ _ (request_failure _ _ _ _ _ Hs)).
    cbn [fst snd]. split; [reflexivity|]. split; [repeat constructor|].
    split; discriminate.
Qed.

Lemma moveFile_guarded fuel oldPath newPath : forall w,
  exists new,
    exchanges (snd (moveFile server fuel c oldPath newPath false w))
    = exchanges w ++ new
    /\ forall b, guardedMoves (destinationUrl c newPath) b new = true.
Proof.
  induction fuel as [|fuel IH]; intros w.
  { exists []. cbn. rewrite app_nil_r. split; reflexivity. }
  destruct (encodePath oldPath) as [eo|] eqn:Ho.
  2:{ exists []. cbn [moveFile]. rewrite Ho. cbn. rewrite app_nil_r.
      split; reflexivity. }
  destruct (exists_exchanges newPath w) as (newh & Eh & Fh & Hfuel & Hfalse).
  destruct (exists_ server c newPath w) as [out w1] eqn:Hex. cbn [fst snd] in *.
  assert (Hstop : forall err,
            moveFile server (S fuel) c oldPath newPath false w = (Thrown err, w1) ->
            exists new,
              exchanges (snd (moveFile server (S fuel) c oldPath newPath false w))
              = exchanges w ++ new
              /\ forall b, guardedMoves (destinationUrl c newPath) b new = true).
  { intros err Hm. rewrite Hm. exists newh. split; [exact Eh|].
    apply guardedMoves_other. exact Fh. }
  destruct out as [[|]|err|].
  - (* the destination exists *)
    apply (Hstop (destinationExists newPath)).
    cbn [moveFile]. rewrite Ho. rewrite (bind_returned _ _ w eo w eq_refl).
    cbn [negb]. erewrite (bind_thrown (bind _ _)); [reflexivity|].
    rewrite (bind_returned _ _ _ _ _ Hex). reflexivity.
  - (* the check passed: the MOVE goes out *)
    destruct (Hfalse eq_refl) as (h & -> & Hh).
    destruct (encodePath newPath) as [en|] eqn:Hn.
    2:{ exfalso. unfold exists_ in Hex. rewrite Hn in Hex. discriminate. }
    rewrite (moveFile_checked server c fuel oldPath newPath eo en false w w1 Ho Hn Hex).
    fold (moveRequest c eo en false).
    set (o := mkOptions (buildUrl c eo) (js "MOVE")
                (Some (<[ js "Overwrite" := js "F" ]>
                         {[ js "Destination" := buildUrl c en ]})) None).
    assert (Hguard : forall reply rest,
               (forall b, guardedMoves (destinationUrl c newPath) b rest = true) ->
               forall b,
                 guardedMoves (destinationUrl c newPath) b
                              (h :: (requestOptions c o, reply) :: rest) = true).
    { intros reply rest Hrest b. cbn [guardedMoves].
      assert (Hnm : isMove h = false).
      { inversion Fh as [|? ? Hx _]. exact Hx. }
      rewrite Hnm, Hh. cbn [andb]. change (isMove (requestOptions c o, reply)) with true.
      cbn iota. apply Hrest. }
    destruct (server (exchanges w1) (requestOptions c o)) as [r|err] eqn:Hs.
    2:{ rewrite (bind_thrown _ _ _ _ _ (request_failure _ _ _ _ _ Hs)).
        exists [h; (requestOptions c o, NetworkFailure err)].
        cbn [snd sent exchanges set_exchanges].
        split; [rewrite Eh, <- app_assoc; reflexivity|].
        apply Hguard. reflexivity. }
    rewrite (bind_returned _ _ _ _ _ (request_answer _ _ _ _ _ Hs)).
    set (w2 := sent w1 (requestOptions c o) (Answer r)).
    assert (E2 : exchanges w2 = exchanges w ++ [h; (requestOptions c o, Answer r)]).
    { subst w2. cbn. rewrite Eh, <- app_assoc. reflexivity. }
    destruct (includes [404; 409; 500]%Z (status r)).
    + destruct (quiet_ensureDirectoryExists server c (js "MOVE")
                  (substring_to_last slash newPath) eq_refl) as [Hq _].
      destruct (Hq w2) as (newe & Ee & Fe).
      unfold bind at 1.
      destruct (ensureDirectoryExists server c (substring_to_last slash newPath) w2)
        as [[[]|err|] w3]; cbn [snd] in Ee.
      * destruct (IH w3) as (newi & Ei & Gi). unfold bind at 1.
        exists ([h; (requestOptions c o, Answer r)] ++ newe ++ newi). split.
        -- destruct (moveFile server fuel c oldPath newPath false w3)
             as [[[]|err|] w4]; unfold ret; cbn [snd] in *;
             rewrite Ei, Ee, E2, <- !app_assoc; reflexivity.
        -- intros b. cbn [app]. apply Hguard.
           apply guardedMoves_app_other; assumption.
      * exists ([h; (requestOptions c o, Answer r)] ++ newe). split.
        -- cbn [snd]. rewrite Ee, E2, <- !app_assoc. reflexivity.
        -- intros b. cbn [app]. apply Hguard. apply guardedMoves_other. exact Fe.
      * exists ([h; (requestOptions c o, Answer r)] ++ newe). split.
        -- cbn [snd]. rewrite Ee, E2, <- !app_assoc. reflexivity.
        -- intros b. cbn [app]. apply Hguard. apply guardedMoves_other. exact Fe.
    + exists [h; (requestOptions c o, Answer r)]. split.
      * destruct (status r =? 412)%Z; [exact E2|].
        unfold handleResponseCode. destruct (400 <=? status r)%Z; exact E2.
      * apply Hguard. reflexivity.
  - (* the check threw *)
    apply (Hstop err).
    cbn [moveFile]. rewrite Ho. rewrite (bind_returned _ _ w eo w eq_refl).
    cbn [negb]. erewrite (bind_thrown (bind _ _)); [reflexivity|].
    rewrite (bind_thrown _ _ _ _ _ Hex). reflexivity.
  - congruence.
Qed.

End GuardedMoves.

(** With [overwrite] false, every MOVE that [moveFile] sends, in the first
    round or in a later one, comes right after a HEAD that went to the URL
    of the encoded new path and was answered with a status other than 200;
    [renameFile] is such a call.  When the new path cannot be encoded there
    is no MOVE at all. *)
Theorem renameFile_never_moves_unchecked server fuel wc oldPath newPath w :
  exists new,
    exchanges (snd (renameFile server fuel wc oldPath newPath w)) = exchanges w ++ new
    /\ guardedMoves (destinationUrl (client wc) newPath) false new = true.
Proof.
  unfold renameFile.
  destruct (moveFile_guarded server (client wc) fuel oldPath newPath w)
    as (new & E & G).
  exists new. split; [exact E | apply G].
Qed.

(** The guard is about the destination: a HEAD to the old path before the
    MOVE does not count, one to the new path does. *)
Example guardedMoves_ex :
  let move := (moveRequest davClient (js "/a.png") (js "/b.png") false,
               statusReply 201) in
  guardedMoves (destinationUrl davClient (js "/b.png")) false
               [(headRequest davClient (js "/a.png"), statusReply 404); move]
  = false
  /\ guardedMoves (destinationUrl davClient (js "/b.png")) false
                  [(headRequest davClient (js "/b.png"), statusReply 404); move]
     = true
  /\ guardedMoves (destinationUrl davClient (js "/b.png")) false
                  [(headRequest davClient (js "/b.png"), statusReply 200); move]
     = false.
Proof. repeat split; vm_compute; reflexivity. Qed.

(** *** The headers of the MOVE *)

Lemma appends_impl (P Q : Request * Reply -> Prop) {A} (m : M A) :
  (forall x, P x -> Q x) -> appends P m -> appends Q m.
Proof.
  intros Himp Hm w. destruct (Hm w) as (new & E & F). exists new.
  split; [exact E|]. eapply Forall_impl; eauto.
Qed.

Lemma moveRequest_movesTo c eo en overwrite reply :
  movesTo c eo en overwrite (moveRequest c eo en overwrite, reply).
Proof.
  intros _. unfold moveRequest, requestOptions, spread_over_auth.
  cbn [fst req_url req_headers opt_url opt_headers default from_option id].
  split; [reflexivity|]. split.
  - apply lookup_union_Some_l. rewrite lookup_insert_ne by (vm_compute; discriminate).
    apply lookup_singleton_eq.
  - apply lookup_union_Some_l. apply lookup_insert_eq.
Qed.

Lemma appends_bind_ret (P : Request * Reply -> Prop) {A B} (a : A) (k : A -> M B) :
  appends P (k a) -> appends P (bind (ret a) k).
Proof. intros H w. exact (H w). Qed.

(** Every MOVE that [moveFile] sends, in whatever round, goes to the URL of
    the encoded old path, names the full URL of the encoded new path as
    Destination and says T or F in Overwrite as [overwrite] is set or not. *)
Theorem moveFile_headers server c fuel oldPath newPath eo en overwrite :
  encodePath oldPath = Some eo ->
  encodePath newPath = Some en ->
  appends (movesTo c eo en overwrite)
          (moveFile server fuel c oldPath newPath overwrite).
Proof.
  intros Ho Hn.
  assert (Hother : forall A (m : M A),
             quiet (js "MOVE") m -> appends (movesTo c eo en overwrite) m).
  { intros A m [Hq _]. apply (appends_impl (otherVerb (js "MOVE"))); [|exact Hq].
    intros x Hx Hm. red in Hx. unfold isMove in Hm. congruence. }
  induction fuel as [|fuel IH]; cbn [moveFile]; [apply appends_diverge|].
  rewrite Ho, Hn. apply appends_bind_ret.
  apply appends_bind.
  { destruct (negb overwrite); [|apply appends_ret].
    apply appends_bind; [apply Hother, quiet_exists; reflexivity | intros found].
    destruct found; [apply appends_throw | apply appends_ret]. }
  intros _. apply appends_bind_ret.
  apply appends_bind.
  { apply appends_requestUrl. intros reply.
    apply (moveRequest_movesTo c eo en overwrite reply). }
  intros response.
  destruct (includes _ _).
  - apply appends_bind;
      [apply Hother, quiet_ensureDirectoryExists; reflexivity | intros _].
    apply appends_bind; [apply IH | intros _; apply appends_ret].
  - repeat appends_step.
Qed.

Lemma moveFile_headers_witness :
  appends (movesTo davClient (js "/a%20b.png") (js "/notes/c.png") true)
          (moveFile (constantServer 409) 3 davClient (js "/a b.png")
                    (js "/notes/c.png") true).
Proof.
  apply (moveFile_headers (constantServer 409) davClient 3 (js "/a b.png")
           (js "/notes/c.png") (js "/a%20b.png") (js "/notes/c.png") true).
  - reflexivity.
  - reflexivity.
Defined.

(* ===================================================================== *)
(** ** The settings tab and the credentials *)
(* ===================================================================== *)

(** *** [atob] undoes [btoa] *)

Lemma list_ind3 {A} (P : list A -> Prop) :
  P [] ->
  (forall a, P [a]) ->
  (forall a b, P [a; b]) ->
  (forall a b c l, P l -> P (a :: b :: c :: l)) ->
  forall l, P l.
Proof.
  intros H0 H1 H2 H3 l.
  assert (H : P l /\ (forall a, P (a :: l)) /\ (forall a b, P (a :: b :: l))).
  { induction l as [|x l (IH0 & IH1 & IH2)]; [auto|].
    split; [apply IH1|]. split; [intros a; apply IH2|].
    intros a b. apply H3. exact IH0. }
  exact (proj1 H).
Qed.

Lemma div_mod_unique x k q r : r < k -> x = k * q + r -> x / k = q /\ x mod k = r.
Proof.
  intros Hr Hx. split.
  - symmetry. apply (N.div_unique x k q r); assumption.
  - symmetry. apply (N.mod_unique x k q r); assumption.
Qed.

Lemma base64Chars_sextets bs :
  base64Chars bs = map base64Char (sextets bs) ++ padding bs.
Proof.
  induction bs as [|a|a b|a b c l IH] using list_ind3; try reflexivity.
  cbn [base64Chars sextets padding map app]. cbv zeta. rewrite IH. reflexivity.
Qed.

Lemma base64Char_range v :
  base64Value (base64Char v) = Some (N.min v 63)
  /\ isAsciiWhitespace (base64Char v) = false
  /\ (equals =? base64Char v) = false.
Proof.
  unfold base64Char, base64Value, isAsciiWhitespace, member, in_range, equals.
  cbn [existsb].
  destruct (N.ltb_spec v 26); [compare_all; repeat split; f_equal; lia|].
  destruct (N.ltb_spec v 52); [compare_all; repeat split; f_equal; lia|].
  destruct (N.ltb_spec v 62); [compare_all; repeat split; f_equal; lia|].
  destruct (N.eqb_spec v 62); [compare_all; repeat split; f_equal; lia|].
  compare_all. repeat split; f_equal; lia.
Qed.

Lemma base64Values_chars vs :
  Forall (fun v => v < 64) vs -> base64Values (map base64Char vs) = Some vs.
Proof.
  induction 1 as [|v vs Hv _ IH]; [reflexivity|].
  cbn [map base64Values]. rewrite (proj1 (base64Char_range v)), IH.
  rewrite N.min_l by lia. reflexivity.
Qed.

Lemma sextets_bound bs :
  Forall (fun b => b < 256) bs -> Forall (fun v => v < 64) (sextets bs).
Proof.
  induction bs as [|a|a b|a b c l IH] using list_ind3; intros H.
  - constructor.
  - inversion H as [|? ? Ha _]; subst. cbn [sextets]. cbv zeta.
    repeat constructor; [apply N.Div0.div_lt_upper_bound; lia | apply N.mod_lt; discriminate].
  - inversion H as [|? ? Ha H']; subst. inversion H' as [|? ? Hb _]; subst.
    cbn [sextets]. cbv zeta.
    repeat constructor;
      [apply N.Div0.div_lt_upper_bound; lia | apply N.mod_lt; discriminate
       | apply N.mod_lt; discriminate].
  - inversion H as [|? ? Ha H']; subst. inversion H' as [|? ? Hb H'']; subst.
    inversion H'' as [|? ? Hc Hl]; subst.
    cbn [sextets]. cbv zeta.
    repeat constructor; try (apply N.mod_lt; discriminate);
      [apply N.Div0.div_lt_upper_bound; lia | apply IH; exact Hl].
Qed.

Lemma sextets_recompose n :
  (n / 262144) * 262144 + ((n / 4096) mod 64) * 4096 + ((n / 64) mod 64) * 64
  + n mod 64 = n
  /\ (n / 4096) * 4096 + ((n / 64) mod 64) * 64 + n mod 64 = n
  /\ (n / 64) * 64 + n mod 64 = n.
Proof.
  change 262144 with (64 * (64 * 64)). change 4096 with (64 * 64).
  rewrite <- !N.Div0.div_div.
  split64 n. split64 q. split64 q0. lia.
Qed.

Lemma base64Octets_sextets bs :
  Forall (fun b => b < 256) bs -> base64Octets (sextets bs) = bs.
Proof.
  induction bs as [|a|a b|a b c l IH] using list_ind3; intros H.
  - reflexivity.
  - inversion H as [|? ? Ha _]; subst. cbn [sextets base64Octets]. cbv zeta.
    rewrite (proj2 (proj2 (sextets_recompose (a * 16)))).
    f_equal. apply (div_mod_unique (a * 16) 16 a 0); lia.
  - inversion H as [|? ? Ha H']; subst. inversion H' as [|? ? Hb _]; subst.
    cbn [sextets base64Octets]. cbv zeta.
    rewrite (proj1 (proj2 (sextets_recompose ((a * 256 + b) * 4)))).
    destruct (div_mod_unique ((a * 256 + b) * 4) 4 (a * 256 + b) 0) as [-> _]; [lia..|].
    destruct (div_mod_unique (a * 256 + b) 256 a b) as [-> ->]; [lia..|].
    reflexivity.
  - inversion H as [|? ? Ha H']; subst. inversion H' as [|? ? Hb H'']; subst.
    inversion H'' as [|? ? Hc Hl]; subst.
    cbn [sextets base64Octets]. cbv zeta.
    rewrite (proj1 (sextets_recompose (a * 65536 + b * 256 + c))).
    destruct (div_mod_unique (a * 65536 + b * 256 + c) 65536 a (b * 256 + c))
      as [-> _]; [lia..|].
    destruct (div_mod_unique (a * 65536 + b * 256 + c) 256 (a * 256 + b) c)
      as [-> ->]; [lia..|].
    destruct (div_mod_unique (a * 256 + b) 256 a b) as [_ ->]; [lia..|].
    rewrite (IH Hl). reflexivity.
Qed.

Lemma sextets_length bs :
  (exists k, length (sextets bs ++ padding bs) = (k * 4)%nat)
  /\ (exists j, length (sextets bs) = (j * 4)%nat
                \/ length (sextets bs) = (2 + j * 4)%nat
                \/ length (sextets bs) = (3 + j * 4)%nat).
Proof.
  induction bs as [|a|a b|a b c l IH] using list_ind3.
  - split; exists 0%nat; auto.
  - split; [exists 1%nat | exists 0%nat]; auto.
  - split; [exists 1%nat | exists 0%nat]; auto.
  - destruct IH as ((k & E) & (j & Hj)).
    cbn [sextets padding length app]. cbv zeta. cbn [length]. rewrite E.
    split; [exists (S k) | exists (S j)]; lia.
Qed.

Lemma no_equals_at_end vs p :
  startsWith (equals :: p) (rev (map base64Char vs)) = false.
Proof.
  rewrite <- map_rev. destruct (rev vs) as [|v tl]; [reflexivity|].
  cbn [map startsWith]. rewrite (proj2 (proj2 (base64Char_range v))). reflexivity.
Qed.

Lemma stripPadding_chars bs :
  stripPadding (map base64Char (sextets bs) ++ padding bs)
  = map base64Char (sextets bs).
Proof.
  unfold stripPadding.
  destruct (sextets_length bs) as ((k & E) & _).
  rewrite length_app, length_map, <- length_app, E, Nat.Div0.mod_mul.
  cbn [Nat.eqb]. unfold endsWith. rewrite !rev_app_distr.
  set (body := map base64Char (sextets bs)).
  assert (Hpad : padding bs = [] \/ padding bs = [equals]
                 \/ padding bs = [equals; equals]).
  { clear E. induction bs as [|a|a b|a b c l IH] using list_ind3; cbn [padding];
      auto. }
  destruct Hpad as [-> | [-> | ->]]; cbn [rev app].
  - unfold body. rewrite !no_equals_at_end. apply app_nil_r.
  - change (startsWith [equals; equals] (equals :: rev body))
      with ((equals =? equals) && startsWith [equals] (rev body)).
    change (startsWith [equals] (equals :: rev body)) with (equals =? equals).
    unfold body. rewrite no_equals_at_end, N.eqb_refl. cbn [andb].
    apply removelast_last.
  - change (startsWith [equals; equals] (equals :: equals :: rev body)) with true.
    cbn iota.
    change (body ++ [equals; equals]) with (body ++ [equals] ++ [equals]).
    rewrite app_assoc, removelast_last. apply removelast_last.
Qed.

Lemma padding_not_whitespace bs :
  forallb (fun c => negb (isAsciiWhitespace c)) (padding bs) = true.
Proof.
  induction bs as [|a|a b|a b c l IH] using list_ind3; try reflexivity.
  cbn [padding]. exact IH.
Qed.

(** What [btoa] writes, [atob] reads back. *)
Lemma atob_btoa v encoded :
  btoa v = Some encoded -> atob encoded = Some v.
Proof.
  unfold btoa. destruct (forallb (fun c => c <? 256) v) eqn:Hv; [|discriminate].
  intros [= <-].
  assert (Hb : Forall (fun b => b < 256) v).
  { apply Forall_forall. intros b Hin. apply N.ltb_lt.
    apply (proj1 (forallb_forall _ _) Hv). apply list_elem_of_In. exact Hin. }
  unfold atob. rewrite base64Chars_sextets.
  assert (Hf : List.filter (fun c => negb (isAsciiWhitespace c))
                 (map base64Char (sextets v) ++ padding v)
               = map base64Char (sextets v) ++ padding v).
  { apply forallb_filter_id. rewrite forallb_app. apply andb_true_intro. split.
    - apply forallb_forall. intros c [x [<- _]]%in_map_iff.
      rewrite (proj1 (proj2 (base64Char_range x))). reflexivity.
    - apply padding_not_whitespace. }
  rewrite Hf, stripPadding_chars, length_map.
  destruct (sextets_length v) as (_ & (k & Hk)).
  assert (Hmod : (length (sextets v) mod 4 =? 1)%nat = false).
  { apply Nat.eqb_neq. destruct Hk as [-> | [-> | ->]].
    - rewrite Nat.Div0.mod_mul. discriminate.
    - rewrite Nat.Div0.mod_add. discriminate.
    - rewrite Nat.Div0.mod_add. discriminate. }
  rewrite Hmod, (base64Values_chars _ (sextets_bound v Hb)).
  rewrite (base64Octets_sextets v Hb). reflexivity.
Qed.

Lemma base64Chars_nil bs : base64Chars bs = [] -> bs = [].
Proof. destruct bs as [|a [|b [|c l]]]; [reflexivity | discriminate..]. Qed.

Lemma btoa_latin1 v : isLatin1 v = true -> btoa v = Some (base64Chars v).
Proof. intros H. unfold btoa. unfold isLatin1 in H. rewrite H. reflexivity. Qed.

(** *** From the fields of the settings tab to the wire *)

(** The password typed into the settings tab, when [btoa] accepts it, is
    stored so that [atob(String(password))] gives it back; the client built
    from the settings then sends it through [getToken] in a Basic header,
    and sends an empty Authorization header when the password or the user
    name is empty. *)
Theorem typed_password_reaches_header getToken s value :
  isLatin1 value = true ->
  exists s',
    onPasswordChange s value = inr s'
    /\ atob (String_ (password s')) = Some value
    /\ forall w,
         newWebDavClient getToken s' w
         = (Returned
              (mkClient s'
                 (mkInner (if endsWith (js "/") (url s) then slice_0_m1 (url s)
                           else url s)
                          (if truthy_string (username s)
                              && negb (str_eqb value [])
                           then js "Basic " ++ getToken (username s) value
                           else js ""))),
            w).
Proof.
  intros Hl. unfold onPasswordChange.
  pose proof (btoa_latin1 value Hl) as Hb. rewrite Hb.
  set (encoded := base64Chars value) in *.
  eexists. split; [reflexivity|]. cbn [password String_ default from_option id].
  pose proof (atob_btoa value encoded Hb) as Ha.
  split; [exact Ha|]. intros w.
  unfold newWebDavClient, newWebDavClientInner. cbn [url username password].
  assert (Ht : truthy_string (Some encoded) = negb (str_eqb value [])).
  { subst encoded. unfold str_eqb. destruct value as [|x value].
    - reflexivity.
    - rewrite bool_decide_eq_false_2 by discriminate.
      destruct (base64Chars (x :: value)) eqn:E; [|reflexivity].
      apply base64Chars_nil in E. discriminate. }
  rewrite Ht.
  destruct (truthy_string (username s) && negb (str_eqb value [])).
  - cbn [String_ default from_option id]. rewrite Ha. reflexivity.
  - reflexivity.
Qed.

Lemma typed_password_reaches_header_witness :
  exists s',
    onPasswordChange davSettings (js "p@ss word") = inr s'
    /\ fst (newWebDavClient specGetToken s' emptyWorld)
       = Returned (mkClient s' (mkInner (js "https://dav.example.com/remote")
                                        (js "Basic dXNlcjpwQHNzIHdvcmQ="))).
Proof.
  destruct (typed_password_reaches_header specGetToken davSettings (js "p@ss word")
              eq_refl) as (s' & Hs & _ & Hc).
  exists s'. split; [exact Hs|]. rewrite (Hc emptyWorld). reflexivity.
Defined.

(** The token typed into the settings tab, when [btoa] accepts it, comes
    back as the query string of [getUrl] and [getPath]; an empty token
    gives no query string. *)
Theorem typed_token_is_the_query s value :
  isLatin1 value = true ->
  exists s',
    onTokenChange s value = inr s'
    /\ tokenQuery s' = inr (match value with
                            | [] => []
                            | _ :: _ => js "?token=" ++ value
                            end).
Proof.
  intros Hl. unfold onTokenChange.
  pose proof (btoa_latin1 value Hl) as Hb. rewrite Hb.
  eexists. split; [reflexivity|].
  unfold tokenQuery. cbn [token String_ default from_option id].
  pose proof (atob_btoa value _ Hb) as Ha.
  destruct value as [|x value]; [reflexivity|].
  destruct (base64Chars (x :: value)) as [|y l] eqn:E.
  { apply base64Chars_nil in E. discriminate. }
  cbn [length Nat.ltb Nat.leb]. rewrite Ha. reflexivity.
Qed.

Lemma typed_token_is_the_query_witness :
  exists s',
    onTokenChange davSettings (js "secret") = inr s'
    /\ tokenQuery s' = inr (js "?token=secret").
Proof.
  destruct (typed_token_is_the_query davSettings (js "secret") eq_refl)
    as (s' & Hs & Hq).
  exists s'. split; [exact Hs | exact Hq].
Defined.

(** *** The Include extensions field *)

Lemma trimStart_idem s : trimStart (trimStart s) = trimStart s.
Proof.
  induction s as [|c s IH]; [reflexivity|]. cbn [trimStart].
  destruct (isWhiteSpace c) eqn:Hc; [exact IH|]. cbn [trimStart]. rewrite Hc.
  reflexivity.
Qed.

Lemma trimStart_snoc l c :
  isWhiteSpace c = false -> trimStart (l ++ [c]) = trimStart l ++ [c].
Proof.
  intros Hc. induction l as [|x l IH]; cbn [app trimStart].
  - rewrite Hc. reflexivity.
  - destruct (isWhiteSpace x); [exact IH | reflexivity].
Qed.

Lemma trimEnd_idem s : trimEnd (trimEnd s) = trimEnd s.
Proof. unfold trimEnd. rewrite rev_involutive, trimStart_idem. reflexivity. Qed.

Lemma trimStart_trimEnd s :
  trimStart s = s -> trimStart (trimEnd s) = trimEnd s.
Proof.
  destruct s as [|c s]; [reflexivity|]. cbn [trimStart].
  destruct (isWhiteSpace c) eqn:Hc.
  - intros H. exfalso.
    assert (Hlen : forall t, (length (trimStart t) <= length t)%nat).
    { induction t as [|x t IHt]; [reflexivity|]. cbn [trimStart].
      destruct (isWhiteSpace x); cbn [length]; lia. }
    specialize (Hlen s). rewrite H in Hlen. cbn [length] in Hlen. lia.
  - intros _. unfold trimEnd. cbn [rev]. rewrite (trimStart_snoc _ c Hc).
    rewrite rev_app_distr. cbn [rev app trimStart]. rewrite Hc. reflexivity.
Qed.

Lemma trim_idem s : trim (trim s) = trim s.
Proof.
  unfold trim. rewrite (trimStart_trimEnd (trimStart s) (trimStart_idem s)).
  apply trimEnd_idem.
Qed.

Lemma member_trimStart c s : member c (trimStart s) = true -> member c s = true.
Proof.
  induction s as [|x s IH]; [discriminate|]. cbn [trimStart].
  destruct (isWhiteSpace x); [|auto]. intros H. unfold member in *.
  cbn [existsb]. rewrite (IH H). apply orb_true_r.
Qed.

Lemma member_rev c s : member c (rev s) = member c s.
Proof.
  unfold member. induction s as [|x s IH]; [reflexivity|].
  cbn [rev existsb]. rewrite existsb_app, IH. cbn [existsb].
  rewrite orb_false_r. apply orb_comm.
Qed.

Lemma member_trim c s : member c s = false -> member c (trim s) = false.
Proof.
  intros H. destruct (member c (trim s)) eqn:E; [|reflexivity].
  unfold trim, trimEnd in E. rewrite member_rev in E.
  apply member_trimStart in E. rewrite member_rev in E.
  apply member_trimStart in E. congruence.
Qed.

Lemma split_segments_free sep s :
  Forall (fun seg => member sep seg = false) (split sep s).
Proof.
  induction s as [|c s IH]; [repeat constructor|]. cbn [split].
  destruct (c =? sep) eqn:Hc; [constructor; [reflexivity | exact IH]|].
  pose proof (split_not_nil sep s) as Hne.
  destruct (split sep s) as [|seg segs]; [congruence|].
  inversion IH as [|? ? Hseg Hsegs]; subst. constructor; [|exact Hsegs].
  unfold member in *. cbn [existsb]. rewrite N.eqb_sym, Hc. exact Hseg.
Qed.

Lemma split_join_sep sep segs :
  segs <> [] ->
  Forall (fun seg => member sep seg = false) segs ->
  split sep (join [sep] segs) = segs.
Proof.
  intros Hne H. induction H as [|seg segs Hseg Hsegs IH]; [congruence|].
  assert (Hone : forall t, member sep t = false -> split sep t = [t]).
  { induction t as [|x t IHt]; [reflexivity|].
    unfold member. cbn [existsb]. intros [Hx Ht]%orb_false_elim.
    cbn [split]. rewrite N.eqb_sym, Hx. rewrite (IHt Ht). reflexivity. }
  destruct segs as [|seg' segs]; [cbn [join]; apply Hone; exact Hseg|].
  rewrite join_cons by discriminate. cbn [app].
  rewrite split_app_sep, (Hone seg Hseg), IH by discriminate. reflexivity.
Qed.

(** Whatever is typed into the Include extensions field, the list that is
    stored holds only entries that are not empty, have no white space
    around them and no comma; and a list of such entries, shown in the
    field joined by commas, is stored again as it was. *)
Theorem includeExtensions_clean_and_stable value exts :
  Forall cleanExtension (onIncludeExtensionsChange value)
  /\ (Forall cleanExtension exts ->
      onIncludeExtensionsChange (displayIncludeExtensions exts) = exts).
Proof.
  split.
  - unfold onIncludeExtensionsChange. apply Forall_forall. intros ext Hin.
    apply list_elem_of_In, filter_In in Hin as [Hin Hne].
    apply in_map_iff in Hin as (seg & <- & Hseg).
    split; [|split].
    + intros E. rewrite E in Hne. discriminate.
    + apply trim_idem.
    + apply member_trim.
      pose proof (split_segments_free comma value) as Hfree.
      rewrite Forall_forall in Hfree. apply Hfree, list_elem_of_In. exact Hseg.
  - intros Hclean. unfold onIncludeExtensionsChange, displayIncludeExtensions.
    destruct exts as [|ext exts]; [reflexivity|].
    change (js ",") with [comma].
    rewrite split_join_sep; [|discriminate|].
    2:{ eapply Forall_impl; [exact Hclean|]. intros e (_ & _ & H). exact H. }
    assert (Hmap : map trim (ext :: exts) = ext :: exts).
    { clear -Hclean. induction Hclean as [|e l (_ & He & _) _ IH]; [reflexivity|].
      cbn [map]. rewrite He, IH. reflexivity. }
    rewrite Hmap. apply forallb_filter_id. apply forallb_forall.
    intros e He. rewrite Forall_forall in Hclean.
    destruct (Hclean e (proj2 (list_elem_of_In _ _) He)) as (Hne & _).
    unfold str_eqb. rewrite bool_decide_eq_false_2 by exact Hne. reflexivity.
Qed.

Lemma includeExtensions_clean_and_stable_witness :
  onIncludeExtensionsChange (displayIncludeExtensions [js "jpg"; js "png"; js "webp"])
  = [js "jpg"; js "png"; js "webp"].
Proof.
  apply (proj2 (includeExtensions_clean_and_stable [] [js "jpg"; js "png"; js "webp"])).
  repeat constructor; discriminate.
Defined.

(** *** The configured URL and its trailing slash *)

Lemma endsWith_app p a : endsWith p (a ++ p) = true.
Proof. unfold endsWith. rewrite rev_app_distr. apply startsWith_app. Qed.

(** One trailing slash on the URL makes no difference to the client that
    is built from it. *)
Theorem newWebDavClientInner_trailing_slash getToken u username password :
  endsWith (js "/") u = false ->
  newWebDavClientInner getToken (u ++ js "/") username password
  = newWebDavClientInner getToken u username password.
Proof.
  intros Hu. unfold newWebDavClientInner.
  rewrite endsWith_app, Hu. unfold slice_0_m1.
  change (js "/") with [slash]. rewrite removelast_last. reflexivity.
Qed.

Lemma newWebDavClientInner_trailing_slash_witness :
  newWebDavClientInner specGetToken (js "https://dav.example.com/remote/")
                       (Some (js "user")) (Some (js "cGFzcw==")) emptyWorld
  = (Returned davClient, emptyWorld).
Proof.
  change (js "https://dav.example.com/remote/")
    with (js "https://dav.example.com/remote" ++ js "/").
  rewrite (newWebDavClientInner_trailing_slash specGetToken
             (js "https://dav.example.com/remote") (Some (js "user"))
             (Some (js "cGFzcw==")) eq_refl).
  reflexivity.
Defined.

(** A URL typed with white space around it and with or without one
    trailing slash is stored bare, and the client built from the stored
    settings, when the stored password lets it be built, has the stored
    URL as its base: the URL in the settings and the base of the client
    are the same string. *)
Theorem typed_url_is_the_base getToken s value u tail w :
  trim value = u ++ tail ->
  tail = [] \/ tail = js "/" ->
  endsWith (js "/") u = false ->
  url (onUrlChange s value) = u
  /\ ((exists wc,
         newWebDavClient getToken (onUrlChange s value) w = (Returned wc, w)
         /\ baseUrl (client wc) = u
         /\ url (settings wc) = u)
      \/ newWebDavClient getToken (onUrlChange s value) w
         = (Thrown InvalidCharacterError, w)).
Proof.
  intros Ht Htail Hu.
  assert (E : url (onUrlChange s value) = u).
  { unfold onUrlChange. cbn [url]. rewrite Ht.
    destruct Htail as [-> | ->].
    - rewrite app_nil_r, Hu. reflexivity.
    - rewrite endsWith_app. unfold slice_0_m1. change (js "/") with [slash].
      apply removelast_last. }
  split; [exact E|].
  unfold newWebDavClient, newWebDavClientInner. rewrite E, Hu.
  destruct (truthy_string _ && truthy_string _).
  - destruct (atob _) as [pd|].
    + left. eexists. split; [reflexivity|]. split; [reflexivity | exact E].
    + right. reflexivity.
  - left. eexists. split; [reflexivity|]. split; [reflexivity | exact E].
Qed.

Lemma typed_url_is_the_base_witness :
  url (onUrlChange davSettings (js "  https://dav.example.com/remote/ "))
  = js "https://dav.example.com/remote".
Proof.
  refine (proj1 (typed_url_is_the_base specGetToken davSettings
                   (js "  https://dav.example.com/remote/ ")
                   (js "https://dav.example.com/remote") (js "/") emptyWorld _ _ _)).
  - reflexivity.
  - right. reflexivity.
  - reflexivity.
Defined.

(* ===================================================================== *)
(** ** Further properties of the path codec *)
(* ===================================================================== *)

Lemma split_forallb (f : N -> bool) sep s :
  forallb f s = true -> Forall (fun seg => forallb f seg = true) (split sep s).
Proof.
  induction s as [|c s IH]; [intros _; repeat constructor|].
  cbn [forallb]. intros [Hc Hs]%andb_prop. specialize (IH Hs).
  cbn [split]. destruct (c =? sep).
  - constructor; [reflexivity | exact IH].
  - pose proof (split_not_nil sep s) as Hne.
    destruct (split sep s) as [|seg segs]; [congruence|].
    inversion IH as [|? ? Hseg Hsegs]; subst. constructor; [|exact Hsegs].
    cbn [forallb]. rewrite Hc. exact Hseg.
Qed.

Lemma join_forallb (f : N -> bool) sep segs :
  f sep = true ->
  Forall (fun seg => forallb f seg = true) segs ->
  forallb f (join [sep] segs) = true.
Proof.
  intros Hsep H. induction H as [|seg segs Hseg Hsegs IH]; [reflexivity|].
  destruct segs as [|seg' segs]; [exact Hseg|].
  rewrite join_cons by discriminate. rewrite forallb_app, Hseg. cbn [app forallb andb].
  rewrite Hsep. exact IH.
Qed.

(** *** Plain paths *)

Lemma plain_segment seg :
  forallb plainUnit seg = true -> member slash seg = false ->
  stable uriUnescaped seg = true.
Proof.
  induction seg as [|c seg IH]; [reflexivity|].
  cbn [forallb]. intros [Hc Hs]%andb_prop. unfold member. cbn [existsb].
  intros [Hsl Hm]%orb_false_elim. unfold stable. cbn [forallb].
  unfold plainUnit in Hc. rewrite N.eqb_sym, Hsl, orb_false_r in Hc. rewrite Hc.
  apply IH; assumption.
Qed.

Lemma encodePath_plain_lemma path :
  forallb plainUnit path = true -> encodePath path = Some path.
Proof.
  intros Hp. unfold encodePath.
  assert (Hm : mapM encodeURIComponent (split slash path) = Some (split slash path)).
  { apply mapM_Some_2.
    pose proof (split_forallb plainUnit slash path Hp) as Hf.
    pose proof (split_segments_free slash path) as Hs.
    induction (split slash path) as [|seg segs IH]; [constructor|].
    inversion Hf as [|? ? Hf1 Hf2]; inversion Hs as [|? ? Hs1 Hs2]; subst.
    constructor; [|apply IH; assumption].
    apply Encode_stable. apply plain_segment; assumption. }
  rewrite Hm. cbn [option_map]. f_equal. apply join_split.
Qed.

(** A path made of letters, digits, the marks [-_.!~*'()] and slashes is
    its own wire form. *)
Theorem encodePath_plain path :
  forallb plainUnit path = true -> encodePath path = Some path.
Proof. apply encodePath_plain_lemma. Qed.

Lemma encodePath_plain_witness :
  encodePath (js "/notes/2024-01-02_img(1).png") = Some (js "/notes/2024-01-02_img(1).png").
Proof. apply encodePath_plain. reflexivity. Defined.

(** *** The wire form *)

Lemma hexDigit_alnum d : d < 16 -> isAlnum (hexDigit d) = true.
Proof.
  intros Hd. unfold hexDigit, isAlnum, in_range.
  destruct (N.ltb_spec d 10); compare_all; reflexivity.
Qed.

Lemma pctAll_wire bs :
  Forall (fun b => b < 256) bs -> forallb wireUnit (pctAll bs) = true.
Proof.
  induction 1 as [|b bs Hb _ IH]; [reflexivity|].
  unfold pctAll in *. cbn [map concat]. rewrite forallb_app, IH, andb_true_r.
  unfold pct. cbn [forallb]. unfold wireUnit at 1. rewrite N.eqb_refl, orb_true_r.
  destruct (split16 b) as (q & r & -> & -> & E & Hr).
  unfold wireUnit, plainUnit, uriUnescaped.
  rewrite !hexDigit_alnum by lia. reflexivity.
Qed.

Lemma Encode_wire : forall s e,
  is_utf16 s = true ->
  Encode uriUnescaped s = Some e ->
  forallb wireUnit e = true.
Proof.
  assert (Hstep : forall c rest e,
            is_code_unit c = true ->
            (forall r, Encode uriUnescaped rest = Some r -> forallb wireUnit r = true) ->
            (forall d rest' r, rest = d :: rest' ->
                               Encode uriUnescaped rest' = Some r ->
                               forallb wireUnit r = true) ->
            Encode uriUnescaped (c :: rest) = Some e ->
            forallb wireUnit e = true).
  { intros c rest e Hc IHrest IHtail He. rewrite Encode_cons in He.
    unfold is_code_unit in Hc. apply N.ltb_lt in Hc.
    destruct (uriUnescaped c) eqn:Hu.
    { destruct (Encode uriUnescaped rest) as [r|]; [|discriminate].
      injection He as <-. cbn [forallb]. unfold wireUnit at 1, plainUnit.
      rewrite Hu. cbn [orb andb]. apply IHrest. reflexivity. }
    destruct (isTrailSurrogate c); [discriminate|].
    destruct (isLeadSurrogate c) eqn:Hl.
    - destruct rest as [|d rest']; [discriminate|].
      destruct (isTrailSurrogate d) eqn:Htd; [|discriminate].
      destruct (Encode uriUnescaped rest') as [r|] eqn:Er; [|discriminate].
      injection He as <-. rewrite forallb_app.
      destruct (surrogatePair_scalar c d Hl Htd) as [[Hs _] _].
      rewrite (pctAll_wire _ (utf8_octets _ Hs)). eapply IHtail; eauto.
    - destruct (Encode uriUnescaped rest) as [r|]; [|discriminate].
      injection He as <-. rewrite forallb_app.
      rewrite (pctAll_wire _ (utf8_octets c ltac:(lia))). apply IHrest. reflexivity. }
  induction s as [|c|c d s IH1 IH2] using jsstring_ind2; intros e Hs He.
  - injection He as <-. reflexivity.
  - cbn [is_utf16 forallb] in Hs. apply andb_prop in Hs as [Hc _].
    apply (Hstep c [] e Hc); [| discriminate | exact He].
    intros r [= <-]. reflexivity.
  - cbn [is_utf16 forallb] in Hs. apply andb_prop in Hs as [Hc Hs].
    apply (Hstep c (d :: s) e Hc); [| | exact He].
    + intros r Hr. apply IH2; [exact Hs | exact Hr].
    + intros d' rest' r [= <- <-] Hr. cbn [forallb] in Hs.
      apply andb_prop in Hs as [_ Hs]. apply IH1; [exact Hs | exact Hr].
Qed.

Lemma wireUnit_ascii c : wireUnit c = true -> c < 128.
Proof.
  unfold wireUnit, plainUnit. intros H.
  apply orb_prop in H as [H|H]; [apply orb_prop in H as [H|H]|].
  - apply uriUnescaped_ascii in H. lia.
  - apply N.eqb_eq in H. subst. reflexivity.
  - apply N.eqb_eq in H. subst. reflexivity.
Qed.

(** What [encodePath] puts out is made of the unescaped characters, the
    percent sign and the slash only; it is plain ASCII, whatever the path
    holds. *)
Theorem encodePath_wire path e :
  is_utf16 path = true ->
  encodePath path = Some e ->
  forallb wireUnit e = true /\ Forall (fun c => c < 128) e.
Proof.
  intros Hwf He.
  assert (Hw : forallb wireUnit e = true).
  { unfold encodePath in He.
    destruct (mapM encodeURIComponent (split slash path)) as [segs|] eqn:Hm;
      [|discriminate].
    injection He as <-. apply mapM_Some_1 in Hm.
    change (js "/") with [slash]. apply join_forallb; [reflexivity|].
    pose proof (is_utf16_split path Hwf) as Hu.
    induction Hm as [|seg r segs rs Hr _ IH]; [constructor|].
    inversion Hu as [|? ? Hseg Hsegs]; subst.
    constructor; [|apply IH; exact Hsegs].
    apply (Encode_wire seg r Hseg Hr). }
  split; [exact Hw|]. apply Forall_forall. intros c Hc.
  apply wireUnit_ascii. apply (proj1 (forallb_forall _ _) Hw).
  apply list_elem_of_In. exact Hc.
Qed.

Lemma encodePath_wire_witness :
  Forall (fun c => c < 128) (js "/notes/a%23b%20c/%C3%A9.png").
Proof.
  apply (proj2 (encodePath_wire reservedPath (js "/notes/a%23b%20c/%C3%A9.png")
                  eq_refl eq_refl)).
Defined.

(** *** Which paths can be encoded *)

Lemma Encode_no_surrogate unescaped s :
  forallb (fun c => negb (isSurrogate c)) s = true ->
  exists e, Encode unescaped s = Some e.
Proof.
  induction s as [|c s IH]; [exists []; reflexivity|].
  cbn [forallb]. intros [Hc Hs]%andb_prop. destruct (IH Hs) as [r Hr].
  rewrite Encode_cons, Hr.
  apply negb_true_iff in Hc. unfold isSurrogate, in_range in Hc.
  assert (Ht : isTrailSurrogate c = false).
  { unfold isTrailSurrogate, in_range.
    destruct (N.leb_spec 56320 c); [|reflexivity].
    destruct (N.leb_spec c 57343); [|reflexivity].
    exfalso. revert Hc. compare_all. discriminate. }
  assert (Hl : isLeadSurrogate c = false).
  { unfold isLeadSurrogate, in_range.
    destruct (N.leb_spec 55296 c); [|reflexivity].
    destruct (N.leb_spec c 56319); [|reflexivity].
    exfalso. revert Hc. compare_all. discriminate. }
  rewrite Ht, Hl. destruct (unescaped c); eexists; reflexivity.
Qed.

(** A path without surrogates is always encoded: the URIError can only
    come from a surrogate. *)
Theorem encodePath_without_surrogates path :
  forallb (fun c => negb (isSurrogate c)) path = true ->
  exists e, encodePath path = Some e.
Proof.
  intros Hp. unfold encodePath.
  assert (Hs : is_Some (mapM encodeURIComponent (split slash path))).
  { apply mapM_is_Some_2.
    pose proof (split_forallb _ slash path Hp) as Hf.
    eapply Forall_impl; [exact Hf|]. intros seg Hseg.
    destruct (Encode_no_surrogate uriUnescaped seg Hseg) as [e He].
    exists e. exact He. }
  destruct Hs as [segs ->]. eexists. reflexivity.
Qed.

Lemma encodePath_without_surrogates_witness :
  exists e, encodePath reservedPath = Some e.
Proof. apply encodePath_without_surrogates. reflexivity. Defined.

(** *** Different paths, different wire forms *)

Lemma decodePath_encodePath path e :
  is_utf16 path = true -> encodePath path = Some e -> decodePath e = Some path.
Proof.
  intros Hwf He. unfold encodePath in He.
  destruct (mapM encodeURIComponent (split slash path)) as [segs|] eqn:Hm;
    [|discriminate].
  injection He as <-. apply mapM_Some_1 in Hm.
  assert (Hnoslash : Forall (fun seg => member slash seg = false) segs).
  { apply (Forall2_Forall_r _ _ _ _ Hm). apply Forall_forall. intros seg _ r Hr.
    apply (slash_not_in_encodeURIComponent seg r Hr). }
  assert (Hne : segs <> []).
  { intros ->. apply Forall2_length in Hm. pose proof (split_not_nil slash path).
    destruct (split slash path); [congruence | discriminate]. }
  unfold decodePath. change (js "/") with [slash].
  rewrite (split_join segs Hne Hnoslash).
  rewrite (mapM_Some_2 _ _ _ (decode_segments _ _ Hm (is_utf16_split path Hwf))).
  cbn [option_map]. f_equal. apply join_split.
Qed.

(** Two paths with the same wire form are the same path. *)
Theorem encodePath_injective p q e :
  is_utf16 p = true ->
  is_utf16 q = true ->
  encodePath p = Some e ->
  encodePath q = Some e ->
  p = q.
Proof.
  intros Hp Hq Ep Eq.
  pose proof (decodePath_encodePath p e Hp Ep) as Dp.
  pose proof (decodePath_encodePath q e Hq Eq) as Dq.
  congruence.
Qed.

Lemma encodePath_injective_witness :
  reservedPath
  = [47; 110; 111; 116; 101; 115; 47; 97; 35; 98; 32; 99; 47; 233; 46; 112; 110; 103].
Proof.
  apply (encodePath_injective reservedPath _ (js "/notes/a%23b%20c/%C3%A9.png"));
    reflexivity.
Defined.

(** *** A token that cannot be decoded *)

Lemma tokenQuery_undecodable s :
  atob (String_ (token s)) = None -> tokenQuery s = inl InvalidCharacterError.
Proof.
  intros Ha. unfold tokenQuery.
  destruct (String_ (token s)) as [|x t] eqn:E; [discriminate|].
  cbn [length Nat.ltb Nat.leb]. rewrite Ha. reflexivity.
Qed.

(** When the stored token is not base64, and so when it is undefined, which
    [String] turns into the nine letters of that word, [getUrl] and
    [getPath] throw for every argument: deleting and downloading by URL end
    before any request, and an upload throws after its PUT was accepted. *)
Theorem undecodable_token_blocks server TFile getAvailablePath createBinary wc :
  atob (String_ (token (settings wc))) = None ->
  (forall path, getUrl (settings wc) path = inl InvalidCharacterError)
  /\ (forall u, getPath (settings wc) u = inl InvalidCharacterError)
  /\ (forall u w,
        WebDavClient_deleteFile server wc u w = (Thrown InvalidCharacterError, w))
  /\ (forall u sourcePath w,
        downloadFile server TFile getAvailablePath createBinary wc u sourcePath w
        = (Thrown InvalidCharacterError, w))
  /\ (forall fuel file path e w r,
        encodePath path = Some e ->
        server (exchanges w) (putRequest (client wc) e (file_arrayBuffer file))
        = Answer r ->
        (status r < 400)%Z ->
        uploadFile server (S fuel) wc file path w
        = (Thrown InvalidCharacterError,
           sent w (putRequest (client wc) e (file_arrayBuffer file)) (Answer r))).
Proof.
  intros Ha. pose proof (tokenQuery_undecodable _ Ha) as Hq.
  assert (Hu : forall path, getUrl (settings wc) path = inl InvalidCharacterError).
  { intros path. unfold getUrl. rewrite Hq. reflexivity. }
  assert (Hp : forall u, getPath (settings wc) u = inl InvalidCharacterError).
  { intros u. unfold getPath. rewrite Hq. reflexivity. }
  split; [exact Hu|]. split; [exact Hp|]. split; [|split].
  - intros u w. unfold WebDavClient_deleteFile. rewrite Hp. reflexivity.
  - intros u sourcePath w. unfold downloadFile. rewrite Hp. reflexivity.
  - intros fuel file path e w r He Hr Hst. unfold uploadFile.
    assert (H409 : status r <> 409%Z) by lia.
    pose proof (putFileContents_answer server fuel (client wc) path e
                  (file_arrayBuffer file) w r He Hr H409) as Hput.
    rewrite (proj2 (Z.leb_gt 400 (status r)) Hst) in Hput.
    rewrite (bind_returned _ _ _ _ _ Hput). cbn [truthy default negb].
    rewrite Hu. reflexivity.
Qed.

Lemma undecodable_token_blocks_witness :
  getUrl tokenlessSettings (js "/notes/img.png") = inl InvalidCharacterError
  /\ fst (uploadFile (constantServer 201) 1 (mkClient tokenlessSettings davClient)
                     imgFile (js "/notes/img.png") emptyWorld)
     = Thrown InvalidCharacterError.
Proof.
  destruct (undecodable_token_blocks (constantServer 201) unit
              (fun _ _ => ret []) (fun _ _ => ret tt)
              (mkClient tokenlessSettings davClient) eq_refl)
    as (Hu & _ & _ & _ & Hup).
  split; [apply Hu|].
  rewrite (Hup 0%nat imgFile (js "/notes/img.png") (js "/notes/img.png") emptyWorld
               (mkResponse 201 None []) eq_refl eq_refl);
    [reflexivity | simpl; lia].
Defined.

(** *** From the upload to the URL and back to the resource *)

Lemma plainUnit_unescapedFull c : plainUnit c = true -> uriUnescapedFull c = true.
Proof.
  unfold plainUnit, uriUnescapedFull. intros H. apply orb_prop in H as [H|H].
  - rewrite H, orb_true_r. reflexivity.
  - apply N.eqb_eq in H. subst. reflexivity.
Qed.

Lemma plain_stable path :
  forallb plainUnit path = true ->
  stable uriUnescapedFull path = true /\ member question path = false.
Proof.
  induction path as [|c path IH]; [intros _; split; reflexivity|].
  cbn [forallb]. intros [Hc Hp]%andb_prop. destruct (IH Hp) as [Hs Hm].
  unfold stable, member in *. cbn [forallb existsb].
  rewrite (plainUnit_unescapedFull c Hc), Hs, Hm. split; [reflexivity|].
  rewrite orb_false_r. apply N.eqb_neq. intros <-. discriminate.
Qed.

Lemma deleteFile_exchange server c path e w :
  encodePath path = Some e ->
  exchanges (snd (deleteFile server c path w))
  = exchanges w ++ [(deleteRequest c e, server (exchanges w) (deleteRequest c e))].
Proof.
  intros He. unfold deleteFile. rewrite He.
  rewrite (bind_returned _ _ w e w eq_refl).
  destruct (server (exchanges w) (deleteRequest c e)) as [r|err] eqn:Hs.
  - rewrite (bind_returned _ _ _ _ _ (request_answer _ _ _ _ _ Hs)).
    unfold handleResponseCode. destruct (400 <=? status r)%Z; reflexivity.
  - rewrite (bind_thrown _ _ _ _ _ (request_failure _ _ _ _ _ Hs)). reflexivity.
Qed.

(** For a path of plain characters that starts with a slash, and settings
    whose URL and token query [encodeURI] leaves alone, the URL that an
    upload returns is the URL its PUT went to followed by the token query,
    and deleting by that URL sends one DELETE to the URL the PUT went to. *)
Theorem delete_reaches_uploaded_resource server wc path q data w :
  forallb plainUnit path = true ->
  startsWith (js "/") path = true ->
  stable uriUnescapedFull (url (settings wc)) = true ->
  baseUrl (client wc) = url (settings wc) ->
  tokenQuery (settings wc) = inr q ->
  stable uriUnescapedFull q = true ->
  getUrl (settings wc) path
  = inr (req_url (putRequest (client wc) path data) ++ q)
  /\ exchanges (snd (WebDavClient_deleteFile server wc
                       (req_url (putRequest (client wc) path data) ++ q) w))
     = exchanges w ++ [(deleteRequest (client wc) path,
                        server (exchanges w) (deleteRequest (client wc) path))]
  /\ req_url (deleteRequest (client wc) path)
     = req_url (putRequest (client wc) path data).
Proof.
  intros Hplain Hslash Hurl Hbase Hq Hqs.
  destruct (plain_stable path Hplain) as [Hps Hnq].
  assert (Hput : req_url (putRequest (client wc) path data)
                 = url (settings wc) ++ path).
  { unfold putRequest, requestOptions, buildUrl. cbn [req_url opt_url].
    rewrite Hslash, Hbase. reflexivity. }
  rewrite Hput. split; [|split].
  - unfold getUrl, encodeURI. rewrite Hq.
    rewrite (Encode_app_stable_l _ _ _ Hurl).
    rewrite (Encode_app_stable_r _ uriUnescapedFull_not_trail _ Hqs).
    rewrite (Encode_stable _ _ Hps). cbn [option_map]. rewrite <- app_assoc.
    reflexivity.
  - unfold WebDavClient_deleteFile, getPath. rewrite Hq, <- app_assoc.
    rewrite replace_first_empty_prefix.
    rewrite replace_first_empty_suffix.
    2:{ destruct (tokenQuery_shape _ _ Hq) as [->|Hs]; [left; reflexivity|].
        right. split; assumption. }
    rewrite (bind_returned _ _ w path w eq_refl).
    apply deleteFile_exchange. apply encodePath_plain_lemma. exact Hplain.
  - unfold deleteRequest, requestOptions, buildUrl. cbn [req_url opt_url].
    rewrite Hslash, Hbase. reflexivity.
Qed.

Lemma delete_reaches_uploaded_resource_witness :
  getUrl tokenSettings (js "/notes/img.png")
  = inr (js "https://dav.example.com/remote/notes/img.png?token=secret")
  /\ map summary
       (exchanges (snd (WebDavClient_deleteFile (constantServer 204)
                          (mkClient tokenSettings davClient)
                          (js "https://dav.example.com/remote/notes/img.png?token=secret")
                          emptyWorld)))
     = [ (js "DELETE", js "https://dav.example.com/remote/notes/img.png", Some 204%Z) ].
Proof.
  destruct (delete_reaches_uploaded_resource (constantServer 204)
              (mkClient tokenSettings davClient) (js "/notes/img.png")
              (js "?token=secret") (js "data") emptyWorld
              eq_refl eq_refl eq_refl eq_refl eq_refl eq_refl) as (Hu & Hd & _).
  split; [exact Hu|]. cbv zeta in Hd.
  change (req_url (putRequest (client (mkClient tokenSettings davClient))
                              (js "/notes/img.png") (js "data")) ++ js "?token=secret")
    with (js "https://dav.example.com/remote/notes/img.png?token=secret") in Hd.
  rewrite Hd. reflexivity.
Defined.

(** *** URLs of other servers *)

Lemma replace_first_empty_absent pat s :
  occurs pat s = false -> replace_first_empty pat s = s.
Proof.
  induction s as [|c s IH]; cbn [occurs]; intros [Hs Ho]%orb_false_elim.
  - rewrite replace_first_empty_unfold, Hs. reflexivity.
  - rewrite replace_first_empty_unfold, Hs, (IH Ho). reflexivity.
Qed.

(** [getPath] does not check where a URL points: one in which neither the
    configured URL nor the token query occurs comes back as it is. *)
Theorem getPath_foreign_url s u q :
  tokenQuery s = inr q ->
  occurs (url s) u = false ->
  q = [] \/ occurs q u = false ->
  getPath s u = inr u.
Proof.
  intros Hq Hu Hqu. unfold getPath. rewrite Hq.
  rewrite (replace_first_empty_absent _ _ Hu). f_equal.
  destruct Hqu as [-> | Hqu]; [destruct u; reflexivity|].
  apply replace_first_empty_absent. exact Hqu.
Qed.

Lemma getPath_foreign_url_witness :
  getPath tokenSettings (js "https://other.example.org/a.png?token=abc")
  = inr (js "https://other.example.org/a.png?token=abc").
Proof.
  apply (getPath_foreign_url tokenSettings _ (js "?token=secret")).
  - reflexivity.
  - reflexivity.
  - right. reflexivity.
Defined.

(* ===================================================================== *)
(** ** downloadFile *)
(* ===================================================================== *)

Lemma join_ends_with_last sep segs :
  segs <> [] -> exists pre, join sep segs = pre ++ List.last segs [].
Proof.
  induction segs as [|seg segs IH]; [congruence|]. intros _.
  destruct segs as [|seg' segs]; [exists []; reflexivity|].
  destruct IH as [pre Hpre]; [discriminate|].
  rewrite join_cons by discriminate. rewrite Hpre.
  exists (seg ++ sep ++ pre). rewrite <- !app_assoc. reflexivity.
Qed.

Lemma last_in {A} (l : list A) d : l <> [] -> In (List.last l d) l.
Proof.
  induction l as [|x l IH]; [congruence|]. intros _.
  destruct l as [|y l]; [left; reflexivity|]. right. apply IH. discriminate.
Qed.

(** [downloadFile] asks the server first.  A status from 400 on makes it
    throw the error with that status, and neither the file manager nor
    the vault is called; otherwise it asks for an available path under the
    name that follows the last slash of the path, a name without a slash
    with which the path ends, and writes the body of the answer there. *)
Theorem downloadFile_outcomes server TFile getAvailablePath createBinary wc u
        sourcePath path e w r :
  getPath (settings wc) u = inr path ->
  encodePath path = Some e ->
  server (exchanges w) (getRequest (client wc) e) = Answer r ->
  let fileName := pop (split slash path) in
  downloadFile server TFile getAvailablePath createBinary wc u sourcePath w
  = (if (400 <=? status r)%Z then
       throw (Error (Z_to_js (status r) ++ js " "
                     ++ default (js "Unknown error") (text r)))
     else
       let* filePath := getAvailablePath fileName sourcePath in
       createBinary filePath (arrayBuffer r))
      (sent w (getRequest (client wc) e) (Answer r))
  /\ member slash fileName = false
  /\ endsWith fileName path = true.
Proof.
  intros Hp He Hs fileName. split; [|split].
  - unfold downloadFile. rewrite Hp.
    rewrite (bind_returned _ _ w path w eq_refl).
    assert (Hget : getFileContents server (client wc) path w
                   = (if (400 <=? status r)%Z then
                        Thrown (Error (Z_to_js (status r) ++ js " "
                                       ++ default (js "Unknown error") (text r)))
                      else Returned (arrayBuffer r),
                      sent w (getRequest (client wc) e) (Answer r))).
    { unfold getFileContents. rewrite He.
      rewrite (bind_returned _ _ w e w eq_refl).
      rewrite (bind_returned _ _ _ _ _ (request_answer _ _ _ _ _ Hs)).
      unfold handleResponseCode, getRequest.
      destruct (400 <=? status r)%Z; reflexivity. }
    destruct (400 <=? status r)%Z.
    + rewrite (bind_thrown _ _ _ _ _ Hget). reflexivity.
    + rewrite (bind_returned _ _ _ _ _ Hget). reflexivity.
  - pose proof (split_segments_free slash path) as Hfree.
    rewrite Forall_forall in Hfree. apply Hfree. apply list_elem_of_In.
    apply last_in. apply split_not_nil.
  - destruct (join_ends_with_last [slash] (split slash path) (split_not_nil _ _))
      as [pre Hpre].
    rewrite join_split in Hpre. unfold fileName, pop. rewrite Hpre at 2.
    apply endsWith_app.
Qed.

Lemma downloadFile_outcomes_witness :
  downloadFile (constantServer 404) unit (fun _ _ => ret []) (fun _ _ => ret tt)
               davWebDavClient (js "https://dav.example.com/remote/notes/img.png")
               None emptyWorld
  = (Thrown (Error (js "404 Unknown error")),
     sent emptyWorld (getRequest davClient (js "/notes/img.png"))
          (Answer (mkResponse 404 None []))).
Proof.
  destruct (downloadFile_outcomes (constantServer 404) unit (fun _ _ => ret [])
              (fun _ _ => ret tt) davWebDavClient
              (js "https://dav.example.com/remote/notes/img.png") None
              (js "/notes/img.png") (js "/notes/img.png") emptyWorld
              (mkResponse 404 None []) eq_refl eq_refl eq_refl) as (H & _).
  rewrite H. reflexivity.
Defined.

(* ===================================================================== *)
(** ** The image loader: what it leaves alone and how it fails *)
(* ===================================================================== *)

Section LoaderPaths.

Variable server : Server.
Variable getToken : option jsstring -> jsstring -> jsstring.
Variable isWebdavUrl : jsstring -> bool.
Variable s : Settings.

Lemma shouldLoadImage_value el w :
  shouldLoadImage isWebdavUrl el w
  = (Returned
       (negb (bool_decide (attributes (element w el) !! js "webdav-loaded"
                           = Some (js "true")))
        && negb (str_eqb (src (element w el)) [])
        && isWebdavUrl (src (element w el))), w).
Proof. unfold shouldLoadImage. step. step. reflexivity. Qed.

Lemma shouldLoadImage_false el w :
  unloadable isWebdavUrl w el -> shouldLoadImage isWebdavUrl el w = (Returned false, w).
Proof.
  intros H. rewrite shouldLoadImage_value. do 2 f_equal.
  destruct H as [H | [H | H]].
  - rewrite bool_decide_eq_true_2 by exact H. reflexivity.
  - rewrite H. change (str_eqb [] []) with true.
    apply andb_false_intro1. apply andb_false_intro2. reflexivity.
  - rewrite H. apply andb_false_r.
Qed.

Lemma loadImage_skip el cache w :
  unloadable isWebdavUrl w el ->
  loadImage server getToken isWebdavUrl s el cache w = (Returned tt, w).
Proof.
  intros H. unfold loadImage.
  rewrite (bind_returned _ _ _ _ _ (shouldLoadImage_false el w H)). reflexivity.
Qed.

(** The world up to the request of a load that has to fetch. *)
Lemma loadImage_until_request el U cache w :
  loadable isWebdavUrl w el U ->
  blobs w !! U = None ->
  loadImage server getToken isWebdavUrl s el cache w
  = (let* passwordDecoded :=
       orThrow InvalidCharacterError (atob (String_ (password s))) in
     let token := getToken (username s) passwordDecoded in
     let* resp :=
       requestUrl server (mkRequest U (js "GET")
                            {[ Authorization := js "Basic " ++ token ]} None true) in
     let blob := arrayBuffer resp in
     let* created := createObjectURL blob in
     set_src el created ;;
     setAttribute el (js "loaded") (js "true") ;;
     if cache then
       let* current := get_src el in
       blobs_set U current
     else set_onload_revoke el) (waiting w el).
Proof.
  intros Hl Hblob. unfold loadImage.
  rewrite (bind_returned _ _ _ _ _ (shouldLoadImage_true isWebdavUrl el U w Hl)).
  destruct Hl as (Hsrc & _). cbn [negb].
  step. rewrite Hsrc. step. cbn [blobs]. rewrite Hblob.
  step. step. reflexivity.
Qed.

End LoaderPaths.

(** *** Parts of the world an operation keeps *)

Lemma keeps_bind {X A B} (part : World -> X) (m : M A) (k : A -> M B) :
  keeps part m -> (forall a, keeps part (k a)) -> keeps part (bind m k).
Proof.
  intros Hm Hk w. unfold bind. specialize (Hm w).
  destruct (m w) as [[a | e |] w']; cbn [snd] in *;
    [rewrite (Hk a w') | |]; exact Hm.
Qed.

Lemma keeps_requestUrl {X} (part : World -> X) server p :
  (forall w x, part (set_exchanges w x) = part w) ->
  keeps part (requestUrl server p).
Proof.
  intros H w. unfold requestUrl.
  destruct (server (exchanges w) p) as [r | e]; [destruct (_ && _)|]; apply H.
Qed.

Ltac keeps_prim := intros ?w; reflexivity.
Ltac keeps_step := apply keeps_bind; [| intros ?].

(** A load that is told not to cache leaves the cache as it is, however
    the load ends: skipped, served from the cache, failed or fetched. *)
Theorem loadImage_uncached_keeps_cache server getToken isWebdavUrl s el :
  keeps blobs (loadImage server getToken isWebdavUrl s el false).
Proof.
  unfold loadImage. keeps_step.
  { intros w. rewrite shouldLoadImage_value. reflexivity. }
  destruct a; cbn [negb]; [|keeps_prim].
  keeps_step; [keeps_prim|]. keeps_step; [keeps_prim|].
  destruct a0 as [blobUrl |].
  - keeps_step; keeps_prim.
  - keeps_step; [keeps_prim|]. keeps_step; [keeps_prim|]. keeps_step.
    { destruct (atob (String_ (password s))); keeps_prim. }
    keeps_step.
    { apply keeps_requestUrl. reflexivity. }
    keeps_step; [keeps_prim|]. keeps_step; [keeps_prim|].
    keeps_step; keeps_prim.
Qed.

(** *** Elements the loader does not touch *)

(** An element that is marked [webdav-loaded], has no source, or whose
    source is not a WebDAV URL is left alone in either mode: no request, no
    object URL, no change of the element or of the cache. *)
Theorem loadImage_skips_unloadable server getToken isWebdavUrl s el cache w :
  unloadable isWebdavUrl w el ->
  loadImage server getToken isWebdavUrl s el cache w = (Returned tt, w).
Proof. apply loadImage_skip. Qed.

Lemma loadImage_skips_unloadable_witness :
  loadImage (constantServer 200) specGetToken (specIsWebdavUrl davSettings)
            davSettings 0 true
            (set_elements emptyWorld
               {[ 0%nat := mkElement (js "https://other.example.org/a.png") ∅ false ]})
  = (Returned tt,
     set_elements emptyWorld
       {[ 0%nat := mkElement (js "https://other.example.org/a.png") ∅ false ]}).
Proof.
  apply loadImage_skips_unloadable. right. right. reflexivity.
Defined.

(** *** Loads that fail *)

Section LoaderFailures.

Variable server : Server.
Variable getToken : option jsstring -> jsstring -> jsstring.
Variable isWebdavUrl : jsstring -> bool.
Variable s : Settings.

Lemma loadImage_bad_password el U cache w :
  loadable isWebdavUrl w el U ->
  blobs w !! U = None ->
  atob (String_ (password s)) = None ->
  loadImage server getToken isWebdavUrl s el cache w
  = (Thrown InvalidCharacterError, waiting w el).
Proof.
  intros Hl Hblob Hpd.
  rewrite (loadImage_until_request server getToken isWebdavUrl s el U cache w Hl Hblob).
  rewrite Hpd. reflexivity.
Qed.

Lemma loadImage_refused el U pd reply cache w :
  loadable isWebdavUrl w el U ->
  blobs w !! U = None ->
  atob (String_ (password s)) = Some pd ->
  server (exchanges w) (fetchRequest getToken s U pd) = reply ->
  refused reply ->
  loadImage server getToken isWebdavUrl s el cache w
  = (Thrown (refusal reply), sent (waiting w el) (fetchRequest getToken s U pd) reply).
Proof.
  intros Hl Hblob Hpd Hs Hr.
  rewrite (loadImage_until_request server getToken isWebdavUrl s el U cache w Hl Hblob).
  rewrite Hpd. step.
  erewrite bind_thrown; [reflexivity|].
  unfold requestUrl. fold (fetchRequest getToken s U pd).
  change (exchanges (waiting w el)) with (exchanges w). rewrite Hs.
  destruct reply as [r | e]; [|reflexivity].
  cbn [req_throw fetchRequest refused] in *.
  rewrite (proj2 (Z.leb_le 400 (status r)) Hr). reflexivity.
Qed.

End LoaderFailures.

(** A fetch that the server refuses, with a status from 400 on or by not
    answering, makes the load throw after that one request.  The element
    is left showing the loading animation in place of its URL, nothing is
    cached, no object URL is created, and the controller, which the error
    passes through, does not come to track the element. *)
Theorem loadImage_failed_fetch server getToken isWebdavUrl s el U pd reply cache w :
  loadable isWebdavUrl w el U ->
  blobs w !! U = None ->
  atob (String_ (password s)) = Some pd ->
  server (exchanges w) (fetchRequest getToken s U pd) = reply ->
  refused reply ->
  el ∉ images w ->
  let w' := sent (waiting w el) (fetchRequest getToken s U pd) reply in
  loadImage server getToken isWebdavUrl s el cache w = (Thrown (refusal reply), w')
  /\ extension_loadImage server getToken isWebdavUrl s el w
     = (Thrown (refusal reply), w')
  /\ src (element w' el) = loadingImage w
  /\ attributes (element w' el) = attributes (element w el)
  /\ blobs w' = blobs w
  /\ objectUrls w' = objectUrls w
  /\ images w' = images w.
Proof.
  intros Hl Hblob Hpd Hs Hr Hi w'.
  split; [|split; [|split; [|split; [|split; [|split]]]]]; try reflexivity.
  - exact (loadImage_refused server getToken isWebdavUrl s el U pd reply cache w
             Hl Hblob Hpd Hs Hr).
  - unfold extension_loadImage. step.
    rewrite bool_decide_eq_false_2 by exact Hi.
    erewrite bind_thrown; [reflexivity|].
    exact (loadImage_refused server getToken isWebdavUrl s el U pd reply true w
             Hl Hblob Hpd Hs Hr).
  - subst w'. unfold element, sent, waiting. cbn. rewrite lookup_insert_eq. reflexivity.
  - subst w'. unfold element at 1. unfold sent, waiting. cbn.
    rewrite lookup_insert_eq. reflexivity.
Qed.

Lemma loadImage_failed_fetch_witness :
  fst (loadImage (constantServer 404) specGetToken (specIsWebdavUrl davSettings)
                 davSettings 0 true oneImage)
  = Thrown (Error (js "Request failed, status 404")).
Proof.
  destruct (loadImage_failed_fetch (constantServer 404) specGetToken
              (specIsWebdavUrl davSettings) davSettings 0 imageUrl (js "pass")
              (statusReply 404) true oneImage) as (H & _).
  - repeat split; [discriminate | vm_compute; discriminate].
  - reflexivity.
  - reflexivity.
  - reflexivity.
  - cbn. lia.
  - apply not_elem_of_nil.
  - rewrite H. reflexivity.
Defined.

(** A stored password that is not base64 stops the load before the
    request: the load throws InvalidCharacterError, nothing is sent, and
    the element is left showing the loading animation.  A password that
    was never stored is such a one, being decoded as the text
    [undefined]. *)
Theorem loadImage_undecodable_password server getToken isWebdavUrl s el U cache w :
  loadable isWebdavUrl w el U ->
  blobs w !! U = None ->
  atob (String_ (password s)) = None ->
  loadImage server getToken isWebdavUrl s el cache w
  = (Thrown InvalidCharacterError, waiting w el)
  /\ exchanges (waiting w el) = exchanges w
  /\ src (element (waiting w el) el) = loadingImage w.
Proof.
  intros Hl Hblob Hpd. split; [|split].
  - exact (loadImage_bad_password server getToken isWebdavUrl s el U cache w
             Hl Hblob Hpd).
  - reflexivity.
  - unfold element, waiting. cbn. rewrite lookup_insert_eq. reflexivity.
Qed.

Lemma loadImage_undecodable_password_witness :
  loadImage (constantServer 200) specGetToken (specIsWebdavUrl passwordlessSettings)
            passwordlessSettings 0 true oneImage
  = (Thrown InvalidCharacterError, waiting oneImage 0).
Proof.
  destruct (loadImage_undecodable_password (constantServer 200) specGetToken
              (specIsWebdavUrl passwordlessSettings) passwordlessSettings 0
              imageUrl true oneImage) as (H & _).
  - repeat split; [discriminate | vm_compute; discriminate].
  - reflexivity.
  - reflexivity.
  - exact H.
Defined.

(* ===================================================================== *)
(** ** Releasing blobs *)
(* ===================================================================== *)

Lemma elem_of_revoked u b (urls : list jsstring) :
  u ∈ List.filter (fun v => negb (str_eqb v b)) urls <-> u ∈ urls /\ u <> b.
Proof.
  rewrite !list_elem_of_In, filter_In. unfold str_eqb.
  split; intros [H1 H2]; (split; [exact H1|]).
  - intros ->. rewrite bool_decide_eq_true_2 in H2 by reflexivity. discriminate.
  - rewrite bool_decide_eq_false_2 by exact H2. reflexivity.
Qed.

Lemma element_same w w' el : elements w' = elements w -> element w' el = element w el.
Proof. intros H. unfold element. rewrite H. reflexivity. Qed.

(** What one call of [revokeImage] does to the world. *)
Lemma revokeImage_effect el w :
  exists w',
    revokeImage el w = (Returned tt, w')
    /\ blobs w' = delete (src (element w el)) (blobs w)
    /\ (forall u, u ∈ objectUrls w'
                  <-> u ∈ objectUrls w /\ blobs w !! src (element w el) <> Some u)
    /\ elements w' = elements w
    /\ exchanges w' = exchanges w
    /\ images w' = images w.
Proof.
  destruct (blobs w !! src (element w el)) as [b |] eqn:Hb.
  - eexists. split.
    { unfold revokeImage. step. step. cbn [blobs]. rewrite Hb. step. reflexivity. }
    cbn. split; [reflexivity|]. split; [|auto].
    intros u. rewrite elem_of_revoked.
    split; intros [H1 H2]; (split; [exact H1|]); congruence.
  - exists w. split; [apply revokeImage_miss; exact Hb|].
    split; [symmetry; apply delete_id; exact Hb|]. split; [|auto].
    intros u. split; [intros H; split; [exact H | discriminate] | intros [H _]; exact H].
Qed.

(** [revokeImage] looks the element up by the source it shows now.  It
    always returns; the entry under that source, if there is one, is
    deleted and its object URL revoked; every other entry and object URL,
    the document and the record of exchanges stay as they are; and a second
    call changes nothing more. *)
Theorem revokeImage_releases_one_entry el w :
  exists w',
    revokeImage el w = (Returned tt, w')
    /\ blobs w' = delete (src (element w el)) (blobs w)
    /\ (forall u, u ∈ objectUrls w'
                  <-> u ∈ objectUrls w /\ blobs w !! src (element w el) <> Some u)
    /\ elements w' = elements w
    /\ exchanges w' = exchanges w
    /\ revokeImage el w' = (Returned tt, w').
Proof.
  destruct (revokeImage_effect el w) as (w' & Hrun & Hb & Hu & He & Hx & _).
  exists w'. split; [exact Hrun|]. split; [exact Hb|]. split; [exact Hu|].
  split; [exact He|]. split; [exact Hx|].
  apply revokeImage_miss. rewrite (element_same w w' el He), Hb.
  apply lookup_delete_eq.
Qed.

(** The controller's loop over the tracked elements. *)
Lemma forEach_revokeImage els : forall w,
  exists w',
    forEach revokeImage els w = (Returned tt, w')
    /\ elements w' = elements w
    /\ exchanges w' = exchanges w
    /\ images w' = images w
    /\ (forall k, blobs w' !! k = None \/ blobs w' !! k = blobs w !! k)
    /\ (forall el, el ∈ els -> blobs w' !! src (element w el) = None)
    /\ (forall k, (forall el, el ∈ els -> src (element w el) <> k) ->
                  blobs w' !! k = blobs w !! k)
    /\ (forall u, u ∈ objectUrls w'
                  <-> u ∈ objectUrls w
                      /\ forall el, el ∈ els -> blobs w !! src (element w el) <> Some u).
Proof.
  induction els as [|e0 rest IH]; intros w.
  - exists w. split; [reflexivity|]. do 3 (split; [reflexivity|]).
    split; [right; reflexivity|].
    split; [intros el H; apply elem_of_nil in H; contradiction|].
    split; [reflexivity|].
    intros u. split; [intros H; split; [exact H|] | intros [H _]; exact H].
    intros el Hel. apply elem_of_nil in Hel. contradiction.
  - destruct (revokeImage_effect e0 w) as (w1 & Hrun & Hb1 & Hu1 & He1 & Hx1 & Hi1).
    destruct (IH w1) as (w' & Hrest & He & Hx & Hi & Hshrink & Hgone & Hkept & Hu).
    assert (Hel : forall el, element w1 el = element w el)
      by (intros el; apply element_same; exact He1).
    exists w'. split.
    { cbn [forEach]. rewrite (bind_returned _ _ _ _ _ Hrun). exact Hrest. }
    split; [congruence|]. split; [congruence|]. split; [congruence|].
    assert (Hshrink' : forall k, blobs w' !! k = None \/ blobs w' !! k = blobs w !! k).
    { intros k. destruct (Hshrink k) as [H | H]; [left; exact H|].
      rewrite H, Hb1. destruct (decide (src (element w e0) = k)) as [<- | Hne].
      - left. apply lookup_delete_eq.
      - right. apply lookup_delete_ne. exact Hne. }
    split; [exact Hshrink'|]. split; [|split].
    + intros el [-> | Hin]%elem_of_cons.
      * destruct (Hshrink (src (element w e0))) as [H | H]; [exact H|].
        rewrite H, Hb1. apply lookup_delete_eq.
      * rewrite <- Hel. apply Hgone. exact Hin.
    + intros k Hk. rewrite Hkept.
      * rewrite Hb1. apply lookup_delete_ne. apply Hk. apply elem_of_cons. left.
        reflexivity.
      * intros el Hin. rewrite Hel. apply Hk. apply elem_of_cons. right. exact Hin.
    + intros u. rewrite Hu, Hu1. split.
      * intros ((Hin & H0) & Hr). split; [exact Hin|].
        intros el [-> | Hel']%elem_of_cons; [exact H0|].
        destruct (decide (src (element w e0) = src (element w el))) as [E | Hne].
        -- rewrite <- E. exact H0.
        -- specialize (Hr el Hel'). rewrite Hel, Hb1 in Hr.
           rewrite lookup_delete_ne in Hr by exact Hne. exact Hr.
      * intros (Hin & Hr). split; [split; [exact Hin|]|].
        -- apply Hr. apply elem_of_cons. left. reflexivity.
        -- intros el Hel'. rewrite Hel, Hb1.
           destruct (decide (src (element w e0) = src (element w el))) as [E | Hne].
           ++ rewrite E, lookup_delete_eq. discriminate.
           ++ rewrite lookup_delete_ne by exact Hne. apply Hr. apply elem_of_cons.
              right. exact Hel'.
Qed.

(** Tearing a view down always returns and forgets every tracked
    element, without a request and without touching the document.  The
    cache loses exactly the entries filed under the source that a tracked
    element shows at that moment, and exactly their object URLs are
    revoked; an entry under any other key stays. *)
Theorem extension_destroy_releases_shown w :
  exists w',
    extension_destroy w = (Returned tt, w')
    /\ images w' = []
    /\ exchanges w' = exchanges w
    /\ elements w' = elements w
    /\ (forall el, el ∈ images w -> blobs w' !! src (element w el) = None)
    /\ (forall k, (forall el, el ∈ images w -> src (element w el) <> k) ->
                  blobs w' !! k = blobs w !! k)
    /\ (forall u, u ∈ objectUrls w'
                  <-> u ∈ objectUrls w
                      /\ forall el, el ∈ images w ->
                                    blobs w !! src (element w el) <> Some u).
Proof.
  destruct (forEach_revokeImage (images w) w)
    as (w1 & Hrun & He & Hx & Hi & _ & Hgone & Hkept & Hu).
  exists (set_images w1 []). split.
  { unfold extension_destroy, bind. rewrite Hrun. reflexivity. }
  cbn. auto 10.
Qed.

(** The loop of the loader's [destroy] over a cache [m]. *)
Lemma revoke_all (m : gmap jsstring jsstring) : forall w,
  exists urls,
    map_fold (fun _ blobUrl (rest : M unit) => revokeObjectURL blobUrl ;; rest)
             (ret tt) m w
    = (Returned tt, set_objectUrls w urls (createdBlobs w))
    /\ forall u, u ∈ urls <-> u ∈ objectUrls w /\ forall k, m !! k <> Some u.
Proof.
  apply (map_fold_weak_ind
           (fun (r : M unit) (m : gmap jsstring jsstring) =>
              forall w, exists urls,
                r w = (Returned tt, set_objectUrls w urls (createdBlobs w))
                /\ forall u, u ∈ urls <-> u ∈ objectUrls w /\ forall k, m !! k <> Some u)).
  - intros w. exists (objectUrls w). split; [destruct w; reflexivity|].
    intros u. split; [intros H; split; [exact H|] | intros [H _]; exact H].
    intros k. rewrite lookup_empty. discriminate.
  - intros i x m' r Hi IH w.
    destruct (IH (set_objectUrls w
                    (List.filter (fun v => negb (str_eqb v x)) (objectUrls w))
                    (createdBlobs w))) as (urls & Hrun & Hu).
    exists urls. split.
    { erewrite bind_returned; [|reflexivity]. rewrite Hrun. reflexivity. }
    intros u. rewrite Hu. cbn [objectUrls set_objectUrls]. rewrite elem_of_revoked.
    split.
    + intros ((Hin & Hne) & Hm). split; [exact Hin|]. intros k.
      destruct (decide (i = k)) as [<- | Hik].
      * rewrite lookup_insert_eq. congruence.
      * rewrite lookup_insert_ne by exact Hik. apply Hm.
    + intros (Hin & Hm). split; [split; [exact Hin|]|].
      * intros ->. apply (Hm i). apply lookup_insert_eq.
      * intros k. destruct (decide (i = k)) as [<- | Hik].
        -- rewrite Hi. discriminate.
        -- specialize (Hm k). rewrite lookup_insert_ne in Hm by exact Hik. exact Hm.
Qed.

(** The loader's [destroy] always returns with an empty cache, and the
    object URLs still live afterwards are exactly those that were live and
    were not the value of a cache entry.  The document, the tracked
    elements and the record of exchanges stay as they are. *)
Theorem loader_destroy_releases_all w :
  exists w',
    loader_destroy w = (Returned tt, w')
    /\ blobs w' = ∅
    /\ (forall u, u ∈ objectUrls w'
                  <-> u ∈ objectUrls w /\ forall k, blobs w !! k <> Some u)
    /\ elements w' = elements w
    /\ images w' = images w
    /\ exchanges w' = exchanges w.
Proof.
  destruct (revoke_all (blobs w) w) as (urls & Hrun & Hu).
  exists (set_blobs (set_objectUrls w urls (createdBlobs w)) ∅). split.
  { unfold loader_destroy, bind at 1. rewrite Hrun. reflexivity. }
  cbn. auto 10.
Qed.

(* ===================================================================== *)
(** ** Loading an element a second time *)
(* ===================================================================== *)

(** A first load that fetches leaves the element showing the new object
    URL and marked [loaded]; it files the URL in the cache when told to
    cache and installs the revoking [onload] handler otherwise.  The mark
    it writes is not the one [shouldLoadImage] reads, so what keeps a
    second load from touching the element is that the object URL is not a
    WebDAV URL: then the second load, in either mode, changes nothing. *)
Theorem loadImage_again_skips server getToken isWebdavUrl s el U pd r cache cache' w :
  loadable isWebdavUrl w el U ->
  blobs w !! U = None ->
  atob (String_ (password s)) = Some pd ->
  server (exchanges w) (fetchRequest getToken s U pd) = Answer r ->
  (status r < 400)%Z ->
  isWebdavUrl (objectUrl (createdBlobs w)) = false ->
  exists w1,
    loadImage server getToken isWebdavUrl s el cache w = (Returned tt, w1)
    /\ src (element w1 el) = objectUrl (createdBlobs w)
    /\ attributes (element w1 el)
       = <[ js "loaded" := js "true" ]> (attributes (element w el))
    /\ onload_revokes (element w1 el)
       = (if cache then onload_revokes (element w el) else true)
    /\ blobs w1
       = (if cache then <[ U := objectUrl (createdBlobs w) ]> (blobs w) else blobs w)
    /\ objectUrls w1 = objectUrls w ++ [objectUrl (createdBlobs w)]
    /\ loadImage server getToken isWebdavUrl s el cache' w1 = (Returned tt, w1).
Proof.
  intros Hl Hblob Hpd Hs Hst Hweb.
  rewrite (loadImage_until_request server getToken isWebdavUrl s el U cache w Hl Hblob).
  rewrite Hpd. step.
  erewrite bind_returned.
  2:{ unfold requestUrl. fold (fetchRequest getToken s U pd).
      change (exchanges (waiting w el)) with (exchanges w).
      rewrite Hs. cbn [req_throw fetchRequest].
      rewrite (proj2 (Z.leb_gt 400 (status r)) Hst). reflexivity. }
  step. step. step.
  assert (Hskip : forall w1,
             src (element w1 el) = objectUrl (createdBlobs w) ->
             loadImage server getToken isWebdavUrl s el cache' w1 = (Returned tt, w1)).
  { intros w1 Hsrc. apply loadImage_skip. right. right. rewrite Hsrc. exact Hweb. }
  destruct cache.
  - step. eexists. split; [reflexivity|].
    unfold element. cbn. rewrite !lookup_insert_eq. cbn.
    do 5 (split; [reflexivity|]).
    apply Hskip. unfold element. cbn. rewrite lookup_insert_eq. reflexivity.
  - eexists. split; [reflexivity|].
    unfold element. cbn. rewrite !lookup_insert_eq. cbn.
    do 5 (split; [reflexivity|]).
    apply Hskip. unfold element. cbn. rewrite lookup_insert_eq. reflexivity.
Qed.

Lemma loadImage_again_skips_witness :
  exists w1,
    loadImage (constantServer 200) specGetToken (specIsWebdavUrl davSettings)
              davSettings 0 false oneImage = (Returned tt, w1)
    /\ src (element w1 0) = js "blob:0"
    /\ blobs w1 = ∅
    /\ loadImage (constantServer 200) specGetToken (specIsWebdavUrl davSettings)
                 davSettings 0 true w1 = (Returned tt, w1).
Proof.
  destruct (loadImage_again_skips (constantServer 200) specGetToken
              (specIsWebdavUrl davSettings) davSettings 0 imageUrl (js "pass")
              (mkResponse 200 None []) false true oneImage)
    as (w1 & Hrun & Hsrc & _ & _ & Hb & _ & Hagain).
  - repeat split; [discriminate | vm_compute; discriminate].
  - reflexivity.
  - reflexivity.
  - reflexivity.
  - simpl; lia.
  - reflexivity.
  - exists w1. split; [exact Hrun|]. split; [exact Hsrc|]. split; [exact Hb|].
    exact Hagain.
Defined.
